(** * depthai_publisher: detection-to-publication pipeline

    A shallow embedding of the two ROS nodes of the package,

    - [src/depthai_publisher/dai_detector.py]  (class [DepthaiCamera]),
    - [src/depthai_publisher/aruco_subscriber_pose.py]  (class [ArucoDetector]),

    followed by the properties of the stabilised object report, of the
    label filter, of the coordinate normaliser and of the marker path.

    Conventions of the embedding.

    - Python [float]s and numpy [float64]/[float32] values are idealised as
      exact rationals ([Q]); numpy integer arrays are lists of [Z].
      Equality of floats is therefore [Qeq] ([==]).  The coordinate
      normaliser is also given on doubles, with NaN, the infinities and a
      rounded product (module [Doubles]).
    - A method of an object is a computation in the monad [Py] below: it
      threads the object's fields, records the calls made to the outside
      world (ROS publishers, loggers, [os.system], OpenCV drawing) as a
      trace of events, and finishes by returning or by raising.  A raise
      keeps the trace and the field updates made before it, as in Python. *)

From stdpp Require Import gmap strings list pretty.
From Stdlib Require Import QArith Qround Qminmax Qabs.

#[local] Open Scope Z_scope.

(** ** Python exceptions and the method monad *)

Inductive exn : Type :=
| IndexError
| ValueError
| AttributeError (name : string)
| UnboundLocalError (name : string).

Inductive completion (A : Type) : Type :=
| Returns (a : A)
| Raises (e : exn).
Arguments Returns {A} a.
Arguments Raises {A} e.

Record run (St Ev A : Type) : Type := Run {
  trace : list Ev;
  final : St;
  outcome : completion A
}.
Arguments Run {St Ev A} _ _ _.
Arguments trace {St Ev A} _.
Arguments final {St Ev A} _.
Arguments outcome {St Ev A} _.

Definition Py (St Ev A : Type) : Type := St -> run St Ev A.

Definition ret {St Ev A} (a : A) : Py St Ev A :=
  fun s => Run [] s (Returns a).

Definition raise {St Ev A} (e : exn) : Py St Ev A :=
  fun s => Run [] s (Raises e).

Definition bind {St Ev A B} (m : Py St Ev A) (k : A -> Py St Ev B) : Py St Ev B :=
  fun s =>
    match m s with
    | Run t s' (Returns a) =>
        match k a s' with
        | Run t' s'' o => Run (t ++ t') s'' o
        end
    | Run t s' (Raises e) => Run t s' (Raises e)
    end.

Definition emit {St Ev} (e : Ev) : Py St Ev unit :=
  fun s => Run [e] s (Returns tt).

Definition get {St Ev} : Py St Ev St :=
  fun s => Run [] s (Returns s).

Definition modify {St Ev} (f : St -> St) : Py St Ev unit :=
  fun s => Run [] (f s) (Returns tt).

Declare Scope py_scope.
Delimit Scope py_scope with py.
Notation "'let*' x := m 'in' k" := (bind m (fun x => k))
  (at level 10, x name, m at level 100, k at level 200,
   format "'[v' 'let*'  x  :=  m  'in' '/' k ']'") : py_scope.
Notation "m ;; k" := (bind m (fun _ => k))
  (at level 100, k at level 200, right associativity,
   format "'[v' m  ;; '/' k ']'") : py_scope.

(** [seq[i]] on a Python sequence, for a non-negative index. *)
Definition getitem {St Ev A} (l : list A) (i : nat) : Py St Ev A :=
  match l !! i with
  | Some x => ret x
  | None => raise IndexError
  end.

(** A relation between the state before, the trace and the state after
    that every step of a method respects. *)
Definition respects {St Ev A} (R : St → list Ev → St → Prop) (m : Py St Ev A) : Prop :=
  ∀ s, R s (trace (m s)) (final (m s)).

(** A method that cannot return normally. *)
Definition always_raises {St Ev A} (m : Py St Ev A) : Prop :=
  ∀ s, ∃ e, outcome (m s) = Raises e.

(** ** numpy on rationals and integers *)

(** [np.clip(x, 0, 1)], that is [minimum(maximum(x, 0), 1)]. *)
Definition np_clip01 (x : Q) : Q := Qmin (Qmax x 0) 1.

(** [astype(int)] on one entry: truncation toward zero. *)
Definition astype_int (x : Q) : Z := Z.quot (Qnum x) (Z.pos (Qden x)).

(** [a / b] on a numpy integer and a Python int: true division.  The
    divisors met below are the height and width of a frame and the number
    of rows of a full buffer, none of which is zero. *)
Definition true_divide (a b : Z) : Q := inject_Z a / inject_Z b.

(** [a[::2] = v]: the entries at even positions are overwritten. *)
Definition set_even_slice {A} (v : A) (a : list A) : list A :=
  imap (fun i x => if Nat.even i then v else x) a.

(** ** dai_detector.py *)

(** What [publish_object_data] and [frameNorm] read of a frame: its
    [shape], rows first.  An image has at least one row and one column. *)
Record Frame : Type := {
  shape0 : positive;   (* frame.shape[0], the height *)
  shape1 : positive    (* frame.shape[1], the width *)
}.

(** One [dai.ImgDetection].  The confidence and the four numbers of the
    box are the 32-bit floats of the device, each taken as the rational
    number it is; Python widens them to doubles without changing them. *)
Record Detection : Type := {
  label : nat;
  confidence : Q;
  xmin : Q;
  ymin : Q;
  xmax : Q;
  ymax : Q
}.

(** [DepthaiCamera.frameNorm], on the numbers of a box taken as rational
    numbers and multiplied exactly.  The product of a 32-bit float and a
    frame dimension is a double, so that nothing is rounded on what the
    device sends; NaN, infinities and rounding are in [Doubles.frameNorm]
    below. *)
Definition frameNorm (frame : Frame) (bbox : list Q) : list Z :=
  let normVals := replicate (length bbox) (Z.pos (shape0 frame)) in
  let normVals := set_even_slice (Z.pos (shape1 frame)) normVals in
  astype_int <$> zip_with Qmult (np_clip01 <$> bbox) (inject_Z <$> normVals).

(** *** [frameNorm] on doubles *)

(** [frameNorm] above takes the four numbers of a box as the rational
    numbers they are and multiplies exactly.  The definitions of this
    module follow the same three lines of the source on doubles as numpy
    has them: a NaN and the infinities are values, and a product is
    rounded to a double. *)
Module Doubles.

(** A double: a rational number, an infinity or a NaN. *)
Inductive float64 : Type :=
| Finite (x : Q)
| PosInf
| NegInf
| NaN.

(** [np.clip(x, 0, 1)], that is [minimum(maximum(x, 0), 1)]: an infinity
    is clipped like any number, a NaN stays a NaN. *)
Definition clip (x : float64) : float64 :=
  match x with
  | Finite q => Finite (np_clip01 q)
  | PosInf => Finite 1
  | NegInf => Finite 0
  | NaN => NaN
  end.

(** The most negative 64-bit integer, which [astype(int)] returns for a
    double that is no integer of 64 bits. *)
Definition int64_min : Z := -9223372036854775808.

(** [astype(int)] on one entry: truncation toward zero of a number in
    the range of a 64-bit integer, and [int64_min] for every other
    double. *)
Definition astype_int64 (x : float64) : Z :=
  match x with
  | Finite q =>
      if bool_decide (int64_min ≤ astype_int q < - int64_min) then astype_int q
      else int64_min
  | PosInf | NegInf | NaN => int64_min
  end.

Section Rounded.

(** The rounding of an exact product to a double. *)
Variable fl : Q → Q.

(** [x * n] for a clipped double [x] and the double of a frame dimension
    [n], which is positive; a clipped number is at most 1, so that the
    product does not overflow. *)
Definition multiply (x : float64) (n : Z) : float64 :=
  match x with
  | Finite q => Finite (fl (q * inject_Z n))
  | PosInf => PosInf
  | NegInf => NegInf
  | NaN => NaN
  end.

(** [DepthaiCamera.frameNorm]. *)
Definition frameNorm (frame : Frame) (bbox : list float64) : list Z :=
  let normVals := replicate (length bbox) (Z.pos (shape0 frame)) in
  let normVals := set_even_slice (Z.pos (shape1 frame)) normVals in
  astype_int64 <$> zip_with multiply (clip <$> bbox) normVals.

End Rounded.

End Doubles.

(** The calls [publish_object_data] makes to the outside world. *)
Inductive event : Type :=
| logwarn (text : string)           (* rospy.logwarn *)
| loginfo (text : string)           (* rospy.loginfo *)
| publish (data : list Q)           (* pub_object_detect.publish, Float32MultiArray.data *)
| os_system (command : string).     (* os.system *)

(** The fields of a [DepthaiCamera] that [publish_object_data] reads and
    writes.  A missing key of [coordinate_buffers] stands for the empty
    deque the [defaultdict] would create on access. *)
Record DepthaiCamera : Type := {
  published_objects : gset Z;
  coordinate_buffers : gmap Z (list (list Z))
}.

(** The fields as [__init__] leaves them. *)
Definition DepthaiCamera_init : DepthaiCamera :=
  {| published_objects := ∅; coordinate_buffers := ∅ |}.

(** [self.coordinate_buffers[object_id]]. *)
Definition buffer_of (self : DepthaiCamera) (object_id : Z) : list (list Z) :=
  default [] (coordinate_buffers self !! object_id).

(** [deque(maxlen=n).append(x)]: a full deque drops its oldest entry. *)
Definition deque_append {A} (maxlen : nat) (d : list A) (x : A) : list A :=
  if (length d <? maxlen)%nat then d ++ [x] else drop 1 (d ++ [x]).

(** [np.mean(rows, axis=0)] on integer rows of one length: the rows are
    added entry by entry and the sums divided by the number of rows. *)
Definition add_reduce_axis0 (rows : list (list Z)) : list Z :=
  match rows with
  | [] => []
  | r :: rest => foldl (zip_with Z.add) r rest
  end.

Definition np_mean_axis0 (rows : list (list Z)) : list Q :=
  (fun s => true_divide s (Z.of_nat (length rows))) <$> add_reduce_axis0 rows.

(** [a.reshape((4, 2))]: only an array of eight entries can be reshaped. *)
Definition reshape_4_2 {A} (a : list A) : option (list (list A)) :=
  match a with
  | [a0; a1; a2; a3; a4; a5; a6; a7] => Some [[a0; a1]; [a2; a3]; [a4; a5]; [a6; a7]]
  | _ => None
  end.

(** [str(float(n))] for an integer [n], as [format] prints [data[0]]. *)
Definition str_float (n : Z) : string := pretty n +:+ ".0".

(** The if/elif chain at the head of [publish_object_data]: the ids the
    navigation side expects for the two known classes. *)
Definition object_id_of (name : string) : option Z :=
  if String.eqb name "backpack" then Some 101
  else if String.eqb name "person" then Some 102
  else None.

Section Detector.

(** [labels], parsed from the model's JSON configuration at import time. *)
Variable labels : list string.

Definition Cam := Py DepthaiCamera event.

(** [labels[detection.label]]. *)
Definition label_name (detection : Detection) : Cam string :=
  getitem labels (label detection).

(** [DepthaiCamera.publish_object_data]. *)
Definition publish_object_data (frame : Frame) (detection : Detection) : Cam unit :=
  (let* name := label_name detection in
   match object_id_of name with
   | None => emit (logwarn "This Object Identifier is unknown")
   | Some object_id =>
     let bbox := frameNorm frame
                   [xmin detection; ymin detection; xmax detection; ymax detection] in
     let* b0 := getitem bbox 0 in
     let* b1 := getitem bbox 1 in
     let* b2 := getitem bbox 2 in
     let* b3 := getitem bbox 3 in
     let corners := [[b0; b1]; [b2; b1]; [b2; b3]; [b0; b3]] in
     let height := b3 - b1 in
     let width := b2 - b0 in
     let marker_length_x := true_divide width (Z.pos (shape1 frame)) in
     let marker_length_y := true_divide height (Z.pos (shape0 frame)) in
     modify (fun self =>
       {| published_objects := published_objects self;
          coordinate_buffers :=
            <[object_id := deque_append 10 (buffer_of self object_id) (concat corners)]>
              (coordinate_buffers self) |}) ;;
     let* self := get in
     if (length (buffer_of self object_id) =? 10)%nat
        && negb (bool_decide (object_id ∈ published_objects self))
     then
       match reshape_4_2 (np_mean_axis0 (buffer_of self object_id)) with
       | None => raise ValueError
       | Some avg_corners =>
         let data := [inject_Z object_id] ++ concat avg_corners
                       ++ [marker_length_x; marker_length_y] in
         emit (publish data) ;;
         emit (loginfo ("Found Target: " +:+ name)) ;;
         emit (loginfo ("Published Object Identity and Coordinates for: "
                          +:+ str_float object_id)) ;;
         emit (os_system ("espeak 'Detected Target: " +:+ name +:+ "'")) ;;
         modify (fun self =>
           {| published_objects := {[object_id]} ∪ published_objects self;
              coordinate_buffers := coordinate_buffers self |}) ;;
         modify (fun self =>
           {| published_objects := published_objects self;
              coordinate_buffers := <[object_id := []]> (coordinate_buffers self) |})
       end
     else ret tt
   end)%py.

(** The detection loop of [run], flattened over frames: every detection of
    every frame goes through [publish_object_data] in order; an exception
    leaves the loop. *)
Fixpoint feed (inputs : list (Frame * Detection)) : Cam unit :=
  match inputs with
  | [] => ret tt
  | (frame, detection) :: rest =>
      (publish_object_data frame detection ;; feed rest)%py
  end.

End Detector.

(** The payloads sent on the object channel, in order. *)
Definition reports (evs : list event) : list (list Q) :=
  omap (fun e => match e with publish data => Some data | _ => None end) evs.

(** ** Notions used in the statements about the detector node *)

(** The pixel box of a detection and what [publish_object_data] derives
    from it: the flattened corner array put in the buffer and the two size
    ratios. *)
Definition pixel_box (frame : Frame) (detection : Detection) : Z * Z * Z * Z :=
  let W := inject_Z (Z.pos (shape1 frame)) in
  let H := inject_Z (Z.pos (shape0 frame)) in
  (astype_int (np_clip01 (xmin detection) * W),
   astype_int (np_clip01 (ymin detection) * H),
   astype_int (np_clip01 (xmax detection) * W),
   astype_int (np_clip01 (ymax detection) * H)).

Definition corner_vector (frame : Frame) (detection : Detection) : list Z :=
  let '(b0, b1, b2, b3) := pixel_box frame detection in
  [b0; b1; b2; b1; b2; b3; b0; b3].

Definition size_ratios (frame : Frame) (detection : Detection) : Q * Q :=
  let '(b0, b1, b2, b3) := pixel_box frame detection in
  (true_divide (b2 - b0) (Z.pos (shape1 frame)),
   true_divide (b3 - b1) (Z.pos (shape0 frame))).

(** The value a double is clipped to: 0 below 0, 1 above 1, the number
    itself in between; a NaN is clipped to no number. *)
Definition clipped (x : Doubles.float64) (c : Q) : Prop :=
  match x with
  | Doubles.Finite q =>
      ((q <= 0 → c == 0) ∧ (0 <= q <= 1 → c == q) ∧ (1 <= q → c == 1))%Q
  | Doubles.PosInf => (c == 1)%Q
  | Doubles.NegInf => (c == 0)%Q
  | Doubles.NaN => False
  end.

(** The integer part of a number: the integer [p] with [p <= v < p + 1]. *)
Definition integer_part (v : Q) (p : Z) : Prop :=
  (inject_Z p <= v)%Q ∧ (v < inject_Z (p + 1))%Q.

(** Four pixel coordinates inside a frame: x in [0, W], y in [0, H]. *)
Definition in_frame (frame : Frame) (pixels : list Z) : Prop :=
  ∃ px0 py0 px1 py1 : Z,
    pixels = [px0; py0; px1; py1]
    ∧ 0 ≤ px0 ≤ Z.pos (shape1 frame) ∧ 0 ≤ py0 ≤ Z.pos (shape0 frame)
    ∧ 0 ≤ px1 ≤ Z.pos (shape1 frame) ∧ 0 ≤ py1 ≤ Z.pos (shape0 frame).

(** The normaliser as the specification words it: whatever the four
    doubles of the box, the pixel coordinates are inside the frame. *)
Definition normaliser_as_stated (fl : Q → Q) : Prop :=
  ∀ (frame : Frame) (x0 y0 x1 y1 : Doubles.float64),
    in_frame frame (Doubles.frameNorm fl frame [x0; y0; x1; y1]).

(** The state after the append of line 129. *)
Definition observed (self : DepthaiCamera) (object_id : Z) (v : list Z) : DepthaiCamera :=
  {| published_objects := published_objects self;
     coordinate_buffers :=
       <[object_id := deque_append 10 (buffer_of self object_id) v]>
         (coordinate_buffers self) |}.

(** The state after lines 147 and 148. *)
Definition marked (self : DepthaiCamera) (object_id : Z) : DepthaiCamera :=
  {| published_objects := {[object_id]} ∪ published_objects self;
     coordinate_buffers := <[object_id := []]> (coordinate_buffers self) |}.

(** A payload is a report for [object_id] when its first entry is
    [float(object_id)]. *)
Definition is_report_for (object_id : Z) (data : list Q) : bool :=
  match data with
  | d0 :: _ => Qeq_bool d0 (inject_Z object_id)
  | [] => false
  end.

Definition reports_for (object_id : Z) (evs : list event) : list (list Q) :=
  filter (fun data => is_report_for object_id data) (reports evs).

(** The object id a detection is classified to, if its class index is in
    [labels] and its class name is one of the two known ones. *)
Definition classified (labels : list string) (detection : Detection) : option Z :=
  labels !! label detection ≫= object_id_of.

(** The label filter as the specification words it: every detection that
    is mapped to no object id is dropped with one warning, and the call
    returns with the fields as they were. *)
Definition unmapped_is_dropped (labels : list string) : Prop :=
  ∀ frame detection self,
    classified labels detection = None →
    publish_object_data labels frame detection self
    = Run [logwarn "This Object Identifier is unknown"] self (Returns tt).

(** Column [j] of the buffered rows, and the arithmetic mean of a list of
    integers. *)
Definition column (j : nat) (rows : list (list Z)) : list Z :=
  (fun r => nth j r 0) <$> rows.

Definition arithmetic_mean (xs : list Z) : Q :=
  true_divide (foldr Z.add 0 xs) (Z.of_nat (length xs)).

(** The four averaged corner points of a window: point [k] has the mean of
    column [2k] as x and the mean of column [2k+1] as y. *)
Definition mean_corners (window : list (list Z)) : list (list Q) :=
  (fun k => [arithmetic_mean (column (2 * k) window);
             arithmetic_mean (column (2 * k + 1) window)]) <$> [0; 1; 2; 3]%nat.

(** The states of the object after any number of calls of
    [publish_object_data] since [__init__]. *)
Inductive reachable (labels : list string) : DepthaiCamera → Prop :=
| reachable_init : reachable labels DepthaiCamera_init
| reachable_call self frame detection :
    reachable labels self →
    reachable labels (final (publish_object_data labels frame detection self)).

(** Every buffer holds at most ten flattened corner sets of eight entries
    each, and fewer than ten while its id is unpublished. *)
Definition buffers_wf (self : DepthaiCamera) : Prop :=
  ∀ object_id,
    Forall (fun r => length r = 8%nat) (buffer_of self object_id)
    ∧ (length (buffer_of self object_id) ≤ 10)%nat
    ∧ (object_id ∉ published_objects self →
       (length (buffer_of self object_id) < 10)%nat).

Definition frame_416 : Frame := {| shape0 := 416; shape1 := 416 |}.

(** A detection with box (0.4, 0.4, 0.6, 0.6); its class index and
    confidence are left open. *)
Definition centred_detection (l : nat) (c : Q) : Detection :=
  {| label := l; confidence := c;
     xmin := 0.4; ymin := 0.4; xmax := 0.6; ymax := 0.6 |}.

(** The reports of [n] such detections in a row, fed to a fresh node. *)
Definition scenario_reports (labels : list string) (l : nat) (c : Q) (n : nat)
  : list (list Q) :=
  reports (trace (feed labels (replicate n (frame_416, centred_detection l c))
                    DepthaiCamera_init)).

(** Two numbers agree up to [tol] when they differ by at most [tol]. *)
Definition agree_up_to (tol : Q) (x y : Q) : Prop := (Qabs (x - y) <= tol)%Q.

(** The scenario with the corner and ratio values of the specification:
    ten detections give one report, with id 101, its eight corner
    coordinates within [tol_px] of (166,166), (250,166), (250,250),
    (166,250) and its two size ratios within [tol_ratio] of 0.2, and the
    eleventh detection adds no report. *)
Definition scenario_as_stated (labels : list string) (l : nat) (c : Q)
    (tol_px tol_ratio : Q) : Prop :=
  ∃ id corners ratios,
    scenario_reports labels l c 10 = [id :: corners ++ ratios]
    ∧ (id == 101)%Q
    ∧ Forall2 (agree_up_to tol_px) corners [166; 166; 250; 166; 250; 250; 166; 250]%Q
    ∧ Forall2 (agree_up_to tol_ratio) ratios [0.2; 0.2]%Q
    ∧ scenario_reports labels l c 11 = [id :: corners ++ ratios].

(** The node after nine detections of the scenario. *)
Definition after_nine : DepthaiCamera :=
  final (feed ["backpack"; "person"]
           (replicate 9 (frame_416, centred_detection 0 0.9)) DepthaiCamera_init).

(** ** Further notions about the detector node *)

(** The [espeak] command lines run, in order. *)
Definition announcements (evs : list event) : list string :=
  omap (fun e => match e with os_system command => Some command | _ => None end) evs.

(** The class name behind a report: id 101 is the backpack, the other id
    is the person. *)
Definition target_of_report (data : list Q) : string :=
  if is_report_for 101 data then "backpack" else "person".

(** The command line that announces a report. *)
Definition espeak_command (data : list Q) : string :=
  "espeak 'Detected Target: " +:+ target_of_report data +:+ "'".

(** A buffered row is the flattened corner array of a box: the corners
    (b0,b1), (b2,b1), (b2,b3), (b0,b3). *)
Definition is_box_row (r : list Z) : Prop :=
  ∃ b0 b1 b2 b3 : Z, r = [b0; b1; b2; b1; b2; b3; b0; b3].

(** The last [n] entries of a list. *)
Definition last_n {A} (n : nat) (l : list A) : list A := drop (length l - n) l.

(** The number of detections of a sequence that are classified to an
    object id. *)
Definition observations (labels : list string) (object_id : Z)
    (inputs : list (Frame * Detection)) : nat :=
  length (filter (fun fd => classified labels fd.2 = Some object_id) inputs).

(** Only boxes are buffered, only under the two known ids, and only those
    ids are ever published. *)
Definition buffers_hold_boxes (self : DepthaiCamera) : Prop :=
  (∀ object_id, object_id ∈ published_objects self → object_id = 101 ∨ object_id = 102)
  ∧ ∀ object_id,
      Forall is_box_row (buffer_of self object_id)
      ∧ (buffer_of self object_id ≠ [] → object_id = 101 ∨ object_id = 102).

(** ** dai_detector.py: the overlay and the main loop *)

Definition colour : Type := Z * Z * Z.

(** The module-level [class_colors] and [class_colors.get(class_id, (0, 0, 255))]. *)
Definition class_colors : gmap nat colour :=
  <[0%nat := (127, 0, 255)]> (<[1%nat := (128, 255, 0)]> (<[2%nat := (252, 202, 66)]> ∅)).

Definition class_colors_get (class_id : nat) : colour :=
  default (0, 0, 255) (class_colors !! class_id).

(** The drawing calls made on an overlay; the font is
    [FONT_HERSHEY_TRIPLEX] throughout. *)
Inductive drawing : Type :=
| putText (text : string) (org : Z * Z) (fontScale : Q) (color : colour)
| rectangle (pt1 pt2 : Z * Z) (color : colour) (thickness : Z).

(** [sensor_msgs/CameraInfo], the fields [publish_camera_info] fills in;
    the time stamp is not represented. *)
Record CameraInfo : Type := {
  frame_id : string;
  height : Z;
  width : Z;
  K : list Q;
  D : list Q;
  R : list Q;
  P : list Q;
  distortion_model : string
}.

(** What the loop of [run] sends out: what [publish_object_data] does, the
    lines printed, and the images and camera information published.  An
    image is represented by the frame it encodes and, for the detection
    image, by the drawings made on its copy. *)
Inductive output : Type :=
| from_object (e : event)
| print (text : string)
| pub_image_publish (frame : Frame)
| pub_image_raw_publish (frame : Frame)
| pub_image_detect_publish (frame : Frame) (overlay : list drawing)
| pub_cam_inf_publish (msg : CameraInfo).

(** The node and the locals of the loop of [run]; [clock] counts the
    readings of [time.time()] made so far. *)
Record Loop : Type := {
  cam : DepthaiCamera;
  counter : Z;
  fps : Q;
  start_time : Q;
  clock : nat
}.

(** A method of the node, run from the loop. *)
Definition on_camera {A} (m : Py DepthaiCamera event A) : Py Loop output A :=
  fun s =>
    let r := m (cam s) in
    Run (from_object <$> trace r)
        {| cam := final r; counter := counter s; fps := fps s;
           start_time := start_time s; clock := clock s |}
        (outcome r).

Section MainLoop.

Variable labels : list string.

(** [self.nn_shape_w] and [self.nn_shape_h], read from the configuration
    by [__init__] and by [createPipeline] before the loop starts. *)
Variable nn_shape_w nn_shape_h : Z.

(** The successive values of [time.time()], and ["{:.2f}".format]. *)
Variable time_time : nat → Q.
Variable format_2f : Q → string.

(** [DepthaiCamera.show_yolo]: the drawings made on the copy of the
    frame, or the exception raised on the way.  The confidence is a
    32-bit float, whose product with 100 is a double: [int] cuts the
    exact product. *)
Fixpoint show_yolo (frame : Frame) (detections : list Detection)
    (overlay : list drawing) : completion (list drawing) :=
  match detections with
  | [] => Returns overlay
  | detection :: rest =>
      match frameNorm frame
              [xmin detection; ymin detection; xmax detection; ymax detection] with
      | [b0; b1; b2; b3] =>
          let class_id := label detection in
          let color := class_colors_get class_id in
          match labels !! label detection with
          | None => Raises IndexError
          | Some name =>
              show_yolo frame rest
                (overlay ++
                 [putText name (b0 + 10, b1 + 20) 0.5 color;
                  putText (pretty (astype_int (confidence detection * 100)) +:+ "%")
                    (b0 + 10, b1 + 40) 0.5 color;
                  rectangle (b0, b1) (b2, b3) color 2])
          end
      | _ => Raises IndexError
      end
  end.

(** [DepthaiCamera.publish_camera_info]. *)
Definition camera_info_msg : CameraInfo :=
  {| frame_id := "camera";
     height := nn_shape_h;
     width := nn_shape_w;
     K := [615.381; 0.0; 320.0; 0.0; 615.381; 240.0; 0.0; 0.0; 1.0]%Q;
     D := [-0.10818; 0.12793; 0.00000; 0.00000; -0.04204]%Q;
     R := [1.0; 0.0; 0.0; 0.0; 1.0; 0.0; 0.0; 0.0; 1.0]%Q;
     P := [615.381; 0.0; 320.0; 0.0; 0.0; 615.381; 240.0; 0.0; 0.0; 0.0; 1.0; 0.0]%Q;
     distortion_model := "plumb_bob" |}.

Definition publish_camera_info : Py Loop output unit :=
  emit (pub_cam_inf_publish camera_info_msg).

(** [DepthaiCamera.publish_to_ros] and [publish_detect_to_ros]. *)
Definition publish_to_ros (frame : Frame) : Py Loop output unit :=
  (emit (pub_image_publish frame) ;;
   emit (pub_image_raw_publish frame))%py.

Definition publish_detect_to_ros (frame : Frame) (overlay : list drawing)
  : Py Loop output unit :=
  emit (pub_image_detect_publish frame overlay).

(** One reading of [time.time()]. *)
Definition read_clock : Py Loop output Q :=
  fun s =>
    Run [] {| cam := cam s; counter := counter s; fps := fps s;
              start_time := start_time s; clock := S (clock s) |}
        (Returns (time_time (clock s))).

(** Lines 247 to 252: the frame counter and the rate. *)
Definition count_frame : Py Loop output unit :=
  (modify (fun s => {| cam := cam s; counter := counter s + 1; fps := fps s;
                       start_time := start_time s; clock := clock s |}) ;;
   let* now := read_clock in
   let* s := get in
   if negb (Qle_bool (now - start_time s) 1) then
     let* now := read_clock in
     modify (fun s => {| cam := cam s; counter := counter s;
                         fps := inject_Z (counter s) / (now - start_time s);
                         start_time := start_time s; clock := clock s |}) ;;
     modify (fun s => {| cam := cam s; counter := 0; fps := fps s;
                         start_time := start_time s; clock := clock s |}) ;;
     let* now := read_clock in
     modify (fun s => {| cam := cam s; counter := counter s; fps := fps s;
                         start_time := now; clock := clock s |})
   else ret tt)%py.

(** One turn of the [while True] loop of [run], on what the two device
    queues hand over: lines 218 to 252. *)
Definition run_iteration (inRgb : option Frame) (inDet : option (list Detection))
  : Py Loop output unit :=
  match inRgb with
  | None => emit (print "Cam Image empty, trying again...")
  | Some frame =>
      match inDet with
      | None => emit (print "Detection empty, trying again...")
      | Some detections =>
          (on_camera (feed labels ((fun detection => (frame, detection)) <$> detections)) ;;
           match show_yolo frame detections [] with
           | Raises e => raise e
           | Returns overlay =>
               let* s := get in
               let overlay :=
                 overlay ++
                 [putText ("NN fps: " +:+ format_2f (fps s))
                    (2, Z.pos (shape0 frame) - 4) 0.4 (0, 255, 0);
                  putText "Found classes []" (2, 10) 0.4 (0, 255, 0)] in
               publish_to_ros frame ;;
               publish_detect_to_ros frame overlay ;;
               publish_camera_info ;;
               count_frame
           end)%py
      end
  end.

(** The loop over a finite run of queue messages. *)
Fixpoint run_loop (messages : list (option Frame * option (list Detection)))
  : Py Loop output unit :=
  match messages with
  | [] => ret tt
  | (inRgb, inDet) :: rest => (run_iteration inRgb inDet ;; run_loop rest)%py
  end.

End MainLoop.

(** What a trace of the loop holds of each kind. *)
Definition object_events (evs : list output) : list event :=
  omap (fun o => match o with from_object e => Some e | _ => None end) evs.

Definition printed (evs : list output) : list string :=
  omap (fun o => match o with print text => Some text | _ => None end) evs.

Definition images_published (evs : list output) : list Frame :=
  omap (fun o => match o with pub_image_publish frame => Some frame | _ => None end) evs.

Definition overlays_published (evs : list output) : list (Frame * list drawing) :=
  omap (fun o => match o with
                 | pub_image_detect_publish frame overlay => Some (frame, overlay)
                 | _ => None
                 end) evs.

Definition camera_infos_published (evs : list output) : list CameraInfo :=
  omap (fun o => match o with pub_cam_inf_publish msg => Some msg | _ => None end) evs.

(** The turns of the loop that received both an image and detections, and
    their detections paired with their frame, in order. *)
Definition complete_turns (messages : list (option Frame * option (list Detection)))
  : list (Frame * list Detection) :=
  omap (fun m => match m with
                 | (Some frame, Some detections) => Some (frame, detections)
                 | _ => None
                 end) messages.

Definition detections_in_order (messages : list (option Frame * option (list Detection)))
  : list (Frame * Detection) :=
  complete_turns messages ≫= fun fd => (fun detection => (fd.1, detection)) <$> fd.2.

(** A rectangle drawn inside a frame. *)
Definition rectangle_within (frame : Frame) (d : drawing) : Prop :=
  match d with
  | rectangle (x0, y0) (x1, y1) _ _ =>
      0 ≤ x0 ≤ Z.pos (shape1 frame) ∧ 0 ≤ x1 ≤ Z.pos (shape1 frame)
      ∧ 0 ≤ y0 ≤ Z.pos (shape0 frame) ∧ 0 ≤ y1 ≤ Z.pos (shape0 frame)
  | putText _ _ _ _ => True
  end.



(** * Python and numpy pieces of the marker node *)

(** ** numpy arrays with a shape *)

(** An array is its shape and its entries in row-major order. *)
Record ndarray : Type := {
  shape : list nat;
  entries : list Q
}.

Definition product (dims : list nat) : nat := foldr Nat.mul 1%nat dims.

(** [a.reshape(dims)]: the number of entries must not change. *)
Definition reshape {St Ev} (a : ndarray) (dims : list nat) : Py St Ev ndarray :=
  if (length (entries a) =? product dims)%nat
  then ret {| shape := dims; entries := entries a |}
  else raise ValueError.

(** [a[i]] along the first axis, for a non-negative [i]. *)
Definition subarray {St Ev} (a : ndarray) (i : nat) : Py St Ev ndarray :=
  match shape a with
  | n :: dims =>
      if (i <? n)%nat
      then ret {| shape := dims;
                  entries := take (product dims) (drop (i * product dims) (entries a)) |}
      else raise IndexError
  | [] => raise IndexError
  end.

(** [(r0, r1, r2, r3) = a]: the array is iterated along its first axis and
    must yield exactly four items. *)
Definition unpack4 {St Ev} (a : ndarray)
  : Py St Ev (ndarray * ndarray * ndarray * ndarray) :=
  match shape a with
  | 4%nat :: _ =>
      (let* r0 := subarray a 0 in
       let* r1 := subarray a 1 in
       let* r2 := subarray a 2 in
       let* r3 := subarray a 3 in
       ret (r0, r1, r2, r3))%py
  | _ => raise ValueError
  end.

(** [(int(p[0]), int(p[1]))] on a one-dimensional array [p]. *)
Definition int_point {St Ev} (p : ndarray) : Py St Ev (Z * Z) :=
  (let* x := getitem (entries p) 0 in
   let* y := getitem (entries p) 1 in
   ret (astype_int x, astype_int y))%py.

(** A local variable that the function binds first to the tuple of arrays
    returned by the detector and later to a single array. *)
Inductive pyobj : Type :=
| Tuple (items : list ndarray)
| Array (a : ndarray).

(** [obj[0]]. *)
Definition first_item {St Ev} (obj : pyobj) : Py St Ev ndarray :=
  match obj with
  | Tuple items => getitem items 0
  | Array a => subarray a 0
  end.

(** A [for] loop whose body updates local variables [L]. *)
Fixpoint for_each {St Ev A L} (items : list A) (body : A → L → Py St Ev L)
    (locals : L) : Py St Ev L :=
  match items with
  | [] => ret locals
  | x :: rest => (let* locals := body x locals in for_each rest body locals)%py
  end.

(** * aruco_subscriber_pose.py *)

Module Aruco.

(** ** The node *)

Definition vec3 : Type := Q * Q * Q.

(** [geometry_msgs/TransformStamped], the fields the node fills in. *)
Record TransformStamped : Type := {
  child_frame_id : string;
  translation : vec3;
  rotation : Q * Q * Q * Q
}.

(** What [cv2.aruco.detectMarkers] finds in a frame: one array of shape
    (1, 4, 2) per marker, and the marker ids ([ids.flatten()]).  A frame is
    represented by what the detector finds in it. *)
Record Frame : Type := {
  marker_corners : list ndarray;
  marker_ids : list Z
}.

(** What [compressed_imgmsg_to_cv2] makes of a message. *)
Inductive decoded : Type :=
| Decoded (frame : Frame)
| CvBridgeError (text : string).

(** The calls the node makes to the outside world.  The speech queue is
    shared with the speech thread, so a [put] is recorded here rather than
    kept in the fields of the frame path. *)
Inductive event : Type :=
| loginfo (text : string)
| logerr (text : string)
| cv2_line (p q : Z * Z)
| cv2_putText (text : string) (org : Z * Z)
| speech_queue_put (batch : list Z)
| sendTransform (msg : TransformStamped)
| aruco_pub_publish.

(** The one field the frame path reads and writes. *)
Record ArucoDetector : Type := {
  detected_marker_ids : gset Z
}.

Definition ArucoDetector_init : ArucoDetector := {| detected_marker_ids := ∅ |}.

(** The batches put on the speech queue, the poses sent and the number of
    annotated images published, as recorded in a trace. *)
Definition queued (evs : list event) : list (list Z) :=
  omap (fun e => match e with speech_queue_put batch => Some batch | _ => None end) evs.

Definition poses (evs : list event) : list TransformStamped :=
  omap (fun e => match e with sendTransform msg => Some msg | _ => None end) evs.

Definition images (evs : list event) : list unit :=
  omap (fun e => match e with aruco_pub_publish => Some tt | _ => None end) evs.

(** The events that leave the node for another thread or another node,
    as opposed to log lines and drawing on the frame. *)
Definition is_output (e : event) : bool :=
  match e with
  | speech_queue_put _ | sendTransform _ | aruco_pub_publish => true
  | _ => false
  end.

(** A frame showing one marker: the detector's (1, 4, 2) array of its
    four corners, in the detector's order, and its id. *)
Definition one_marker (marker_ID : Z) (p0 p1 p2 p3 : Q * Q) : Frame :=
  {| marker_corners :=
       [{| shape := [1; 4; 2]%nat;
           entries := [p0.1; p0.2; p1.1; p1.2; p2.1; p2.2; p3.1; p3.2] |}];
     marker_ids := [marker_ID] |}.

(** The attributes an [ArucoDetector] has: those of the class body and
    those [__init__] assigns. *)
Definition class_attributes : list string :=
  ["aruco_dict"; "aruco_params"; "frame_sub_topic"].

Definition init_attributes : list string :=
  ["aruco_pub"; "br"; "frame_sub"; "engine"; "speech_queue"; "speech_thread";
   "detected_marker_ids"; "aruco_data_pub"].

(** Reading [self.name]. *)
Definition self_attr {St Ev} (name : string) : Py St Ev unit :=
  if bool_decide (name ∈ class_attributes ++ init_attributes) then ret tt
  else raise (AttributeError name).

(** The names of the [cv2] module this file uses that OpenCV's Python
    bindings define; the pose solver is exported as [solvePnP]. *)
Definition cv2_attributes : list string :=
  ["aruco"; "line"; "putText"; "FONT_HERSHEY_COMPLEX"; "solvePnP"; "imencode"].

(** Reading [cv2.name]. *)
Definition cv2_attr {St Ev} (name : string) : Py St Ev unit :=
  if bool_decide (name ∈ cv2_attributes) then ret tt
  else raise (AttributeError name).

Definition Node := Py ArucoDetector event.

(** The last statement of [__init__], line 53: the f-string reads
    [self.pose_sub_topic]. *)
Definition init_line_53 : Node unit :=
  (self_attr "pose_sub_topic" ;;
   emit (loginfo "Publisher '/processed_aruco/pose' initialised"))%py.

(** Lines 95 to 97: the first-sighting check on one marker id. *)
Definition note_marker (marker_ID : Z) (new_ids : list Z) : Node (list Z) :=
  (let* self := get in
   if bool_decide (marker_ID ∈ detected_marker_ids self) then ret new_ids
   else
     modify (fun self =>
       {| detected_marker_ids := {[marker_ID]} ∪ detected_marker_ids self |}) ;;
     ret (new_ids ++ [marker_ID]))%py.

(** Lines 76 to 92 of the loop over [zip(corners, ids)]: the marker's
    outline and id are drawn on the frame.  The value is what line 76 binds
    the local [corners] to. *)
Definition draw_marker (marker_corner : ndarray) (marker_ID : Z) : Node ndarray :=
  (let* corners := reshape marker_corner [4; 2]%nat in
   let* rows := unpack4 corners in
   let '(top_left, top_right, bottom_right, bottom_left) := rows in
   let* top_right := int_point top_right in
   let* bottom_right := int_point bottom_right in
   let* bottom_left := int_point bottom_left in
   let* top_left := int_point top_left in
   emit (cv2_line top_left top_right) ;;
   emit (cv2_line top_right bottom_right) ;;
   emit (cv2_line bottom_right bottom_left) ;;
   emit (cv2_line bottom_left top_left) ;;
   emit (loginfo ("Aruco detected, ID: " +:+ pretty marker_ID)) ;;
   emit (cv2_putText (pretty marker_ID) (top_left.1, top_right.2 - 15)) ;;
   ret corners)%py.

(** The body of the loop, lines 76 to 97.  Its locals are [corners], which
    line 76 rebinds, and [new_ids]. *)
Definition marker_loop_body (item : ndarray * Z) (locals : pyobj * list Z)
  : Node (pyobj * list Z) :=
  (let* corners := draw_marker item.1 item.2 in
   let* new_ids := note_marker item.2 locals.2 in
   ret (Array corners, new_ids))%py.

(** Lines 101 to 103: the new ids of the frame go to the speech thread as
    one batch. *)
Definition queue_new_ids (new_ids : list Z) : Node unit :=
  match new_ids with
  | [] => ret tt
  | _ :: _ => (emit (speech_queue_put new_ids) ;;
               emit (loginfo "Queued IDs for speech"))%py
  end.

Section Pose.

(** The numerical collaborators: the perspective-n-point solver (object
    points, image points; the camera parameters are constants), the
    conversion of Euler angles to a quaternion, and the printing of a
    vector in a log line. *)
Variable solvePnP : list vec3 → ndarray → bool * vec3 * vec3.
Variable quaternion_from_euler : Q → Q → Q → Q * Q * Q * Q.
Variable str_vec : vec3 → string.

(** Lines 106 to 137: the pose of the frame, from the local [corners].
    The value is the [msg_out] the block binds, if it binds one. *)
Definition estimate_pose (corners : pyobj) : Node (option TransformStamped) :=
  let marker_size := 0.2%Q in
  let object_points :=
    [(- marker_size / 2, - marker_size / 2, 0);
     (marker_size / 2, - marker_size / 2, 0);
     (marker_size / 2, marker_size / 2, 0);
     (- marker_size / 2, marker_size / 2, 0)]%Q in
  (let* corner0 := first_item corners in
   let* image_points := reshape corner0 [4; 2]%nat in
   cv2_attr "solvePnp" ;;
   self_attr "camera_matrix" ;;
   self_attr "dist_coeffs" ;;
   let '(success, rvec, tvec) := solvePnP object_points image_points in
   if success then
     emit (loginfo "Pose estimation successful!") ;;
     emit (loginfo ("Rotation vector: " +:+ str_vec rvec)) ;;
     emit (loginfo ("Translation vector: " +:+ str_vec tvec)) ;;
     let '(r0, r1, r2) := rvec in
     ret (Some {| child_frame_id := "aruco_marker";
                  translation := tvec;
                  rotation := quaternion_from_euler r0 r1 r2 |})
   else ret None)%py.

(** Line 139, at the indentation of the function body. *)
Definition send_pose (msg_out : option TransformStamped) : Node unit :=
  (self_attr "tfbr" ;;
   match msg_out with
   | Some msg => emit (sendTransform msg)
   | None => raise (UnboundLocalError "msg_out")
   end)%py.

(** [ArucoDetector.find_aruco]; the value is unit, the frame it returns
    being the one it was given, drawn upon. *)
Definition find_aruco (frame : Frame) : Node unit :=
  let corners := Tuple (marker_corners frame) in
  (let* msg_out :=
     if (0 <? length (marker_corners frame))%nat then
       let ids := marker_ids frame in
       let* locals := for_each (zip (marker_corners frame) ids)
                        marker_loop_body (corners, []) in
       queue_new_ids locals.2 ;;
       estimate_pose locals.1
     else ret None in
   send_pose msg_out)%py.

(** [ArucoDetector.publish_to_ros]. *)
Definition publish_to_ros : Node unit := emit aruco_pub_publish.

(** [ArucoDetector.img_callback] on the outcome of the bridge's decoding;
    a [CvBridgeError] is logged and leaves the local [frame] unbound. *)
Definition img_callback (msg_in : decoded) : Node unit :=
  match msg_in with
  | Decoded frame => (find_aruco frame ;; publish_to_ros)%py
  | CvBridgeError text =>
      (emit (logerr ("Error converting image: " +:+ text)) ;;
       raise (UnboundLocalError "frame"))%py
  end.

(** The subscriber invokes the callback once per message on the same
    object, whether or not an earlier invocation raised. *)
Fixpoint spin (messages : list decoded) (self : ArucoDetector)
  : list event * ArucoDetector :=
  match messages with
  | [] => ([], self)
  | msg_in :: rest =>
      let r := img_callback msg_in self in
      let '(evs, self') := spin rest (final r) in
      (trace r ++ evs, self')
  end.

End Pose.

(** ** The constructor *)

(** What [__init__] does to the outside world. *)
Inductive init_event : Type :=
| init_loginfo (text : string)
| Publisher (topic : string) (queue_size : Z)
| CvBridge
| Subscriber (topic : string)
| pyttsx3_init
| engine_setProperty (name : string) (value : Z)
| Queue
| Thread_start
| init_node (name : string)
| rospy_spin.

(** The methods of the class. *)
Definition methods : list string :=
  ["__init__"; "img_callback"; "find_aruco"; "process_speech_queue"; "publish_to_ros"].

(** [self.name = ...] and [self.name] during [__init__]: the state is the
    list of instance attributes assigned so far. *)
Definition assign (name : string) : Py (list string) init_event unit :=
  modify (fun attrs => attrs ++ [name]).

Definition read (name : string) : Py (list string) init_event unit :=
  (let* attrs := get in
   if bool_decide (name ∈ class_attributes ++ methods ++ attrs) then ret tt
   else raise (AttributeError name))%py.

(** [ArucoDetector.__init__], given what [rospy.is_shutdown()] answers at
    line 30. *)
Definition __init__ (is_shutdown : bool) : Py (list string) init_event unit :=
  (emit (init_loginfo "Initialising Aruco Detector class...") ;;
   emit (Publisher "/processed_aruco/image/compressed" 2) ;;
   assign "aruco_pub" ;;
   emit (init_loginfo "Publisher '/processed_aruco/image/compressed' initialised") ;;
   emit CvBridge ;;
   assign "br" ;;
   emit (init_loginfo "CvBridge initialised") ;;
   (if negb is_shutdown then
      read "frame_sub_topic" ;;
      read "img_callback" ;;
      emit (Subscriber "/processor_node/image/compressed") ;;
      assign "frame_sub"
    else ret tt) ;;
   read "frame_sub_topic" ;;
   emit (init_loginfo
           "Subscriber to topic '/processor_node/image/compressed' initialised") ;;
   emit pyttsx3_init ;;
   assign "engine" ;;
   read "engine" ;;
   emit (engine_setProperty "rate" 165) ;;
   read "engine" ;;
   emit (engine_setProperty "pitch" 100) ;;
   emit Queue ;;
   assign "speech_queue" ;;
   read "process_speech_queue" ;;
   assign "speech_thread" ;;
   read "speech_thread" ;;
   read "speech_thread" ;;
   emit Thread_start ;;
   assign "detected_marker_ids" ;;
   emit (Publisher "/processed_aruco/pose" 10) ;;
   assign "aruco_data_pub" ;;
   read "pose_sub_topic" ;;
   emit (init_loginfo "Publisher '/processed_aruco/pose' initialised"))%py.

#[export] Instance init_event_eq_dec : EqDecision init_event.
Proof. solve_decision. Defined.

(** [main]: the node is initialised, the detector is constructed on a
    fresh object and the main thread hands over to [rospy.spin()]. *)
Definition main (is_shutdown : bool) : run (list string) init_event unit :=
  (emit (init_node "EGB349_vision") ;;
   emit (init_loginfo "Node 'EGB450 vision' started") ;;
   emit (init_loginfo "Processing images...") ;;
   __init__ is_shutdown ;;
   emit rospy_spin)%py [].

(** ** The speech thread *)

(** What the speech thread does to the speech engine and the log. *)
Inductive speech_event : Type :=
| speech_loginfo (text : string)
| engine_say (text : string)
| engine_runAndWait.

(** One turn of the loop of [process_speech_queue], lines 148 to 156.  The
    state is the content of [speech_queue], oldest batch first; [arrived]
    are the batches the frame path has put since the previous turn, up to
    the moment [get] returns.  An empty queue makes [get] raise
    [queue.Empty] after its timeout, which the loop catches. *)
Definition speech_turn (arrived : list (list Z))
  : Py (list (list Z)) speech_event unit :=
  (modify (fun queue => queue ++ arrived) ;;
   let* queue := get in
   match queue with
   | [] => ret tt
   | marker_ids :: rest =>
       modify (fun _ => rest) ;;
       for_each marker_ids
         (fun marker_ID _ =>
            emit (engine_say ("Detected ArUco Marker: " +:+ pretty marker_ID)))
         tt ;;
       emit engine_runAndWait
   end)%py.

(** [ArucoDetector.process_speech_queue], for as many turns as
    [rospy.is_shutdown()] answers false; [arrivals] lists, turn by turn,
    the batches put meanwhile. *)
Fixpoint speech_turns (arrivals : list (list (list Z)))
  : Py (list (list Z)) speech_event unit :=
  match arrivals with
  | [] => ret tt
  | arrived :: later => (speech_turn arrived ;; speech_turns later)%py
  end.

Definition process_speech_queue (arrivals : list (list (list Z)))
  : Py (list (list Z)) speech_event unit :=
  (emit (speech_loginfo "Initiate speech engine") ;;
   speech_turns arrivals)%py.

(** The marker ids announced, in order, and the number of times the
    thread waited for the engine to finish speaking. *)
Definition said (evs : list speech_event) : list string :=
  omap (fun e => match e with engine_say text => Some text | _ => None end) evs.

Definition waits (evs : list speech_event) : nat :=
  length (omap (fun e => match e with engine_runAndWait => Some tt | _ => None end) evs).

Definition announcement (marker_ID : Z) : string :=
  "Detected ArUco Marker: " +:+ pretty marker_ID.

(** ** Notions used in the statements about the marker node *)

(** Between two states of the node, the ids put on the speech queue are
    pairwise distinct, were unseen in the first state and are seen in the
    second, and nothing seen is forgotten. *)
Definition queued_once (s : ArucoDetector) (evs : list event) (s' : ArucoDetector) : Prop :=
  detected_marker_ids s ⊆ detected_marker_ids s'
  ∧ NoDup (concat (queued evs))
  ∧ ∀ x, x ∈ concat (queued evs) →
         (x ∉ detected_marker_ids s) ∧ x ∈ detected_marker_ids s'.

(** Drawing and the pose block leave the fields and the queue alone. *)
Definition untouched (s : ArucoDetector) (evs : list event) (s' : ArucoDetector) : Prop :=
  s' = s ∧ queued evs = [].

(** ** Further notions about the marker node *)

(** What [cv2.aruco.detectMarkers] returns: as many ids as corner arrays,
    each array of shape (1, 4, 2). *)
Definition detector_output (frame : Frame) : Prop :=
  length (marker_corners frame) = length (marker_ids frame)
  ∧ Forall (fun a => shape a = [1; 4; 2]%nat ∧ length (entries a) = 8%nat)
      (marker_corners frame).

(** A message the bridge decodes to a frame the detector has looked at, or
    fails to decode. *)
Definition well_decoded (msg_in : decoded) : Prop :=
  match msg_in with
  | Decoded frame => detector_output frame
  | CvBridgeError _ => True
  end.

(** The marker ids shown in a sequence of messages. *)
Definition shown (messages : list decoded) : list Z :=
  messages ≫= fun msg_in =>
    match msg_in with
    | Decoded frame => marker_ids frame
    | CvBridgeError _ => []
    end.

(** The line segments and the texts drawn on the frame, as recorded in a
    trace. *)
Definition lines (evs : list event) : list ((Z * Z) * (Z * Z)) :=
  omap (fun e => match e with cv2_line p q => Some (p, q) | _ => None end) evs.

Definition texts (evs : list event) : list string :=
  omap (fun e => match e with cv2_putText text _ => Some text | _ => None end) evs.

(** The pixel of a marker's corner number [i]: the detector's coordinates
    cut to integers by [int]. *)
Definition corner_pixel (a : ndarray) (i : nat) : Z * Z :=
  (astype_int (nth (2 * i) (entries a) 0%Q),
   astype_int (nth (2 * i + 1) (entries a) 0%Q)).

(** The closed outline through the four corners of a marker, in the
    detector's order. *)
Definition outline (a : ndarray) : list ((Z * Z) * (Z * Z)) :=
  [(corner_pixel a 0, corner_pixel a 1); (corner_pixel a 1, corner_pixel a 2);
   (corner_pixel a 2, corner_pixel a 3); (corner_pixel a 3, corner_pixel a 0)].

(** The ids of a list that were not seen before, each once, in the order
    of their first appearance. *)
Fixpoint first_sightings (seen : gset Z) (ids : list Z) : list Z :=
  match ids with
  | [] => []
  | marker_ID :: rest =>
      if bool_decide (marker_ID ∈ seen) then first_sightings seen rest
      else marker_ID :: first_sightings ({[marker_ID]} ∪ seen) rest
  end.

(** The local [corners] once the loop has rebound it (line 76): a single
    array of shape (4, 2). *)
Definition rebound (corners : pyobj) : Prop :=
  ∃ a, corners = Array a ∧ shape a = [4; 2]%nat ∧ length (entries a) = 8%nat.

(** The batch of a frame as the trace records it: an empty batch is not
    put on the queue. *)
Definition batch_put (batch : list Z) : list (list Z) :=
  match batch with
  | [] => []
  | _ :: _ => [batch]
  end.

End Aruco.

(** * Properties of the detector node *)

(** ** The coordinate normaliser *)

Lemma np_clip01_bounds (x : Q) : (0 <= np_clip01 x)%Q ∧ (np_clip01 x <= 1)%Q.
Proof.
  unfold np_clip01. split.
  - apply Q.min_glb; [apply Q.le_max_r | discriminate].
  - apply Q.le_min_r.
Qed.

Lemma np_clip01_inside (x : Q) : (0 <= x)%Q → (x <= 1)%Q → (np_clip01 x == x)%Q.
Proof.
  intros H0 H1. unfold np_clip01.
  rewrite Q.max_l by exact H0. apply Q.min_l. exact H1.
Qed.

Lemma np_clip01_below (x : Q) : (x <= 0)%Q → (np_clip01 x == 0)%Q.
Proof.
  intros H0. unfold np_clip01.
  rewrite Q.max_r by exact H0. apply Q.min_l. discriminate.
Qed.

Lemma np_clip01_above (x : Q) : (1 <= x)%Q → (np_clip01 x == 1)%Q.
Proof.
  intros H1. unfold np_clip01.
  rewrite Q.max_l by (apply Qle_trans with 1%Q; [discriminate | exact H1]).
  apply Q.min_r. exact H1.
Qed.

(** On a non-negative number truncation is the floor. *)
Lemma astype_int_floor (x : Q) : (0 <= x)%Q → astype_int x = Qfloor x.
Proof.
  destruct x as [n d]. unfold Qle, astype_int, Qfloor. simpl.
  intros Hn. apply Z.quot_div_nonneg; lia.
Qed.

Lemma astype_int_range (x : Q) (n : Z) :
  (0 <= x)%Q → (x <= inject_Z n)%Q → 0 ≤ astype_int x ≤ n.
Proof.
  intros H0 Hn. rewrite astype_int_floor by exact H0. split.
  - change 0 with (Qfloor (inject_Z 0)). apply Qfloor_resp_le. exact H0.
  - rewrite <- (Qfloor_Z n). apply Qfloor_resp_le. exact Hn.
Qed.

Lemma scaled_clip_range (x : Q) (n : positive) :
  0 ≤ astype_int (np_clip01 x * inject_Z (Z.pos n)) ≤ Z.pos n.
Proof.
  destruct (np_clip01_bounds x) as [H0 H1].
  assert (Hn : (0 <= inject_Z (Z.pos n))%Q).
  { change 0%Q with (inject_Z 0). rewrite <- Zle_Qle. lia. }
  apply astype_int_range.
  - apply Qmult_le_0_compat; assumption.
  - rewrite <- (Qmult_1_l (inject_Z (Z.pos n))) at 2.
    apply Qmult_le_compat_r; assumption.
Qed.

(** [frameNorm] on the four-entry box [publish_object_data] and
    [show_yolo] pass: x entries are scaled by the width, y entries by the
    height. *)
Lemma frameNorm_quad (frame : Frame) (x0 y0 x1 y1 : Q) :
  frameNorm frame [x0; y0; x1; y1] =
    [astype_int (np_clip01 x0 * inject_Z (Z.pos (shape1 frame)));
     astype_int (np_clip01 y0 * inject_Z (Z.pos (shape0 frame)));
     astype_int (np_clip01 x1 * inject_Z (Z.pos (shape1 frame)));
     astype_int (np_clip01 y1 * inject_Z (Z.pos (shape0 frame)))].
Proof. reflexivity. Qed.

(** *** On doubles *)

Lemma clipped_clip (q : Q) : clipped (Doubles.Finite q) (np_clip01 q).
Proof.
  split; [apply np_clip01_below |]. split; [| apply np_clip01_above].
  intros [H0 H1]. by apply np_clip01_inside.
Qed.

Section DoublesFacts.

Variable fl : Q → Q.
Hypothesis fl_mono : ∀ x y : Q, (x <= y)%Q → (fl x <= fl y)%Q.
Hypothesis fl_int : ∀ n : Z, 0 ≤ n ≤ 2 ^ 53 → (fl (inject_Z n) == inject_Z n)%Q.

(** A rounded product of a number of [0,1] and a frame dimension is
    between 0 and that dimension, and so is its integer part. *)
Lemma rounded_product_range (c : Q) (n : positive) :
  Z.pos n ≤ 2 ^ 53 →
  (0 <= c)%Q → (c <= 1)%Q →
  0 ≤ astype_int (fl (c * inject_Z (Z.pos n))%Q) ≤ Z.pos n.
Proof using fl_mono fl_int.
  intros Hn H0 H1.
  assert (HW : (0 <= inject_Z (Z.pos n))%Q).
  { change 0%Q with (inject_Z 0). rewrite <- Zle_Qle. lia. }
  apply astype_int_range.
  - apply Qle_trans with (fl (inject_Z 0)).
    + rewrite fl_int by lia. apply Qle_refl.
    + apply fl_mono. by apply Qmult_le_0_compat.
  - apply Qle_trans with (fl (inject_Z (Z.pos n))).
    + apply fl_mono. rewrite <- (Qmult_1_l (inject_Z (Z.pos n))) at 2.
      by apply Qmult_le_compat_r.
    + rewrite fl_int by lia. apply Qle_refl.
Qed.

Lemma rounded_product_integer_part (c : Q) (n : positive) :
  Z.pos n ≤ 2 ^ 53 →
  (0 <= c)%Q → (c <= 1)%Q →
  integer_part (fl (c * inject_Z (Z.pos n))%Q)
    (astype_int (fl (c * inject_Z (Z.pos n))%Q)).
Proof using fl_mono fl_int.
  intros Hn H0 H1.
  assert (HW : (0 <= inject_Z (Z.pos n))%Q).
  { change 0%Q with (inject_Z 0). rewrite <- Zle_Qle. lia. }
  assert (Hv : (0 <= fl (c * inject_Z (Z.pos n)))%Q).
  { apply Qle_trans with (fl (inject_Z 0)).
    - rewrite fl_int by lia. apply Qle_refl.
    - apply fl_mono. by apply Qmult_le_0_compat. }
  rewrite (astype_int_floor _ Hv). split; [apply Qfloor_le | apply Qlt_floor].
Qed.

Lemma clipped_entry (c : Q) (n : positive) :
  Z.pos n ≤ 2 ^ 53 →
  (0 <= c)%Q → (c <= 1)%Q →
  Doubles.astype_int64 (Doubles.multiply fl (Doubles.Finite c) (Z.pos n))
  = astype_int (fl (c * inject_Z (Z.pos n))%Q).
Proof using fl_mono fl_int.
  intros Hn H0 H1.
  pose proof (rounded_product_range c n Hn H0 H1) as Hrange.
  cbn [Doubles.multiply Doubles.astype_int64].
  rewrite bool_decide_eq_true_2; [done |].
  assert (Hpow : 2 ^ 53 = 9007199254740992) by reflexivity.
  unfold Doubles.int64_min. lia.
Qed.

(** One entry of [frameNorm]: the number is clipped, scaled by the
    frame dimension and cut to an integer of the frame. *)
Lemma frameNorm_entry (x : Doubles.float64) (n : positive) :
  Z.pos n ≤ 2 ^ 53 →
  x ≠ Doubles.NaN →
  ∃ (c : Q) (p : Z),
    clipped x c
    ∧ Doubles.astype_int64 (Doubles.multiply fl (Doubles.clip x) (Z.pos n)) = p
    ∧ integer_part (fl (c * inject_Z (Z.pos n))%Q) p
    ∧ 0 ≤ p ≤ Z.pos n.
Proof using fl_mono fl_int.
  intros Hn Hx.
  assert (Hentry : ∀ c : Q, (0 <= c)%Q → (c <= 1)%Q →
    ∃ p : Z,
      Doubles.astype_int64 (Doubles.multiply fl (Doubles.Finite c) (Z.pos n)) = p
      ∧ integer_part (fl (c * inject_Z (Z.pos n))%Q) p
      ∧ 0 ≤ p ≤ Z.pos n).
  { intros c H0 H1. eexists. split; [by apply clipped_entry |].
    split; [by apply rounded_product_integer_part | by apply rounded_product_range]. }
  destruct x as [q| | |]; [| | | done].
  - destruct (np_clip01_bounds q) as [H0 H1].
    destruct (Hentry (np_clip01 q) H0 H1) as (p & Hp).
    exists (np_clip01 q), p. split; [apply clipped_clip | exact Hp].
  - destruct (Hentry 1%Q) as (p & Hp); [done | done |].
    exists 1%Q, p. split; [reflexivity | exact Hp].
  - destruct (Hentry 0%Q) as (p & Hp); [done | done |].
    exists 0%Q, p. split; [reflexivity | exact Hp].
Qed.

End DoublesFacts.

(** On numbers, multiplied exactly, [Doubles.frameNorm] is [frameNorm]. *)
Lemma frameNorm_exact (frame : Frame) (x0 y0 x1 y1 : Q) :
  Z.pos (shape1 frame) ≤ 2 ^ 53 →
  Z.pos (shape0 frame) ≤ 2 ^ 53 →
  Doubles.frameNorm (fun q => q) frame
    [Doubles.Finite x0; Doubles.Finite y0; Doubles.Finite x1; Doubles.Finite y1]
  = frameNorm frame [x0; y0; x1; y1].
Proof.
  intros HW HH. rewrite frameNorm_quad.
  change (Doubles.frameNorm (fun q => q) frame
            [Doubles.Finite x0; Doubles.Finite y0; Doubles.Finite x1; Doubles.Finite y1])
    with [Doubles.astype_int64 (Doubles.multiply (fun q => q)
            (Doubles.Finite (np_clip01 x0)) (Z.pos (shape1 frame)));
          Doubles.astype_int64 (Doubles.multiply (fun q => q)
            (Doubles.Finite (np_clip01 y0)) (Z.pos (shape0 frame)));
          Doubles.astype_int64 (Doubles.multiply (fun q => q)
            (Doubles.Finite (np_clip01 x1)) (Z.pos (shape1 frame)));
          Doubles.astype_int64 (Doubles.multiply (fun q => q)
            (Doubles.Finite (np_clip01 y1)) (Z.pos (shape0 frame)))].
  rewrite !(clipped_entry (fun q => q)); try done; try apply np_clip01_bounds.
Qed.

(** C5, as amended.  For every box of four doubles none of which is a
    NaN, inside [0,1] or not and the infinities included, and every frame
    of width W and height H, [frameNorm] clips each number to [0,1] (0
    below 0, 1 above 1, the number itself in between) and only then scales
    it, x entries by W and y entries by H, whatever the rounding of the
    product; the four results are the integer parts of these products,
    with x in [0,W] and y in [0,H]. *)
Theorem frameNorm_within_frame
    (fl : Q → Q) (frame : Frame) (x0 y0 x1 y1 : Doubles.float64) :
  (∀ x y : Q, (x <= y)%Q → (fl x <= fl y)%Q) →
  (∀ n : Z, 0 ≤ n ≤ 2 ^ 53 → (fl (inject_Z n) == inject_Z n)%Q) →
  let W := Z.pos (shape1 frame) in
  let H := Z.pos (shape0 frame) in
  W ≤ 2 ^ 53 → H ≤ 2 ^ 53 →
  x0 ≠ Doubles.NaN → y0 ≠ Doubles.NaN → x1 ≠ Doubles.NaN → y1 ≠ Doubles.NaN →
  ∃ (c0 d0 c1 d1 : Q) (px0 py0 px1 py1 : Z),
    clipped x0 c0 ∧ clipped y0 d0 ∧ clipped x1 c1 ∧ clipped y1 d1
    ∧ Doubles.frameNorm fl frame [x0; y0; x1; y1] = [px0; py0; px1; py1]
    ∧ integer_part (fl (c0 * inject_Z W)%Q) px0
    ∧ integer_part (fl (d0 * inject_Z H)%Q) py0
    ∧ integer_part (fl (c1 * inject_Z W)%Q) px1
    ∧ integer_part (fl (d1 * inject_Z H)%Q) py1
    ∧ 0 ≤ px0 ≤ W ∧ 0 ≤ py0 ≤ H ∧ 0 ≤ px1 ≤ W ∧ 0 ≤ py1 ≤ H.
Proof.
  intros Hmono Hint W H HW HH Hx0 Hy0 Hx1 Hy1.
  destruct (frameNorm_entry fl Hmono Hint x0 (shape1 frame) HW Hx0)
    as (c0 & px0 & Hc0 & He0 & Hi0 & Hr0).
  destruct (frameNorm_entry fl Hmono Hint y0 (shape0 frame) HH Hy0)
    as (d0 & py0 & Hd0 & Hf0 & Hj0 & Hs0).
  destruct (frameNorm_entry fl Hmono Hint x1 (shape1 frame) HW Hx1)
    as (c1 & px1 & Hc1 & He1 & Hi1 & Hr1).
  destruct (frameNorm_entry fl Hmono Hint y1 (shape0 frame) HH Hy1)
    as (d1 & py1 & Hd1 & Hf1 & Hj1 & Hs1).
  exists c0, d0, c1, d1, px0, py0, px1, py1.
  do 4 (split; [done |]).
  split; [rewrite <- He0, <- Hf0, <- He1, <- Hf1; reflexivity |].
  do 4 (split; [done |]). done.
Qed.

Lemma frameNorm_within_frame_witness :
  let fl := fun q : Q => q in
  let box := [Doubles.Finite (-0.1); Doubles.Finite 0.4; Doubles.PosInf;
              Doubles.Finite 1.3] in
  (∀ x y : Q, (x <= y)%Q → (fl x <= fl y)%Q)
  ∧ (∀ n : Z, 0 ≤ n ≤ 2 ^ 53 → (fl (inject_Z n) == inject_Z n)%Q)
  ∧ Z.pos (shape1 frame_416) ≤ 2 ^ 53
  ∧ Doubles.frameNorm fl frame_416 box = [0; 166; 416; 416]
  ∧ in_frame frame_416 (Doubles.frameNorm fl frame_416 box).
Proof.
  intros fl box.
  assert (Hmono : ∀ x y : Q, (x <= y)%Q → (fl x <= fl y)%Q) by (intros x y H; exact H).
  assert (Hint : ∀ n : Z, 0 ≤ n ≤ 2 ^ 53 → (fl (inject_Z n) == inject_Z n)%Q)
    by (intros n _; reflexivity).
  assert (Hdim : Z.pos (shape1 frame_416) ≤ 2 ^ 53) by (vm_compute; discriminate).
  split; [exact Hmono |]. split; [exact Hint |]. split; [exact Hdim |].
  split; [vm_compute; reflexivity |].
  destruct (frameNorm_within_frame fl frame_416
              (Doubles.Finite (-0.1)) (Doubles.Finite 0.4) Doubles.PosInf
              (Doubles.Finite 1.3) Hmono Hint Hdim Hdim)
    as (c0 & d0 & c1 & d1 & px0 & py0 & px1 & py1
        & _ & _ & _ & _ & Heq & _ & _ & _ & _ & Hin); [discriminate.. |].
  unfold box. rewrite Heq. by exists px0, py0, px1, py1.
Defined.

(** C5, as the claim words it, fails on a NaN: [np.clip] leaves it a
    NaN, so does the product, and [astype(int)] makes it the most negative
    64-bit integer, which is no pixel of the frame. *)
Lemma nan_leaves_the_frame : ¬ normaliser_as_stated (fun q => q).
Proof.
  intros Hclaim.
  destruct (Hclaim frame_416 Doubles.NaN (Doubles.Finite 0.4)
              (Doubles.Finite 0.6) (Doubles.Finite 0.6))
    as (px0 & py0 & px1 & py1 & Heq & [Hlow _] & _).
  vm_compute in Heq. injection Heq as Hpx0 _ _ _.
  rewrite <- Hpx0 in Hlow. vm_compute in Hlow. by apply Hlow.
Qed.

(** ** The stabilised object report *)

Section DetectorFacts.

Variable labels : list string.

Lemma buffer_of_observed self object_id v :
  buffer_of (observed self object_id v) object_id
  = deque_append 10 (buffer_of self object_id) v.
Proof. unfold buffer_of at 1, observed. simpl. by rewrite lookup_insert_eq. Qed.

Lemma publish_object_data_raises frame detection self :
  labels !! label detection = None →
  publish_object_data labels frame detection self = Run [] self (Raises IndexError).
Proof.
  intros Hl. unfold publish_object_data, label_name, getitem, bind.
  rewrite Hl. reflexivity.
Qed.

Lemma publish_object_data_unknown frame detection self name :
  labels !! label detection = Some name →
  object_id_of name = None →
  publish_object_data labels frame detection self
  = Run [logwarn "This Object Identifier is unknown"] self (Returns tt).
Proof.
  intros Hl Hid. unfold publish_object_data, label_name, getitem, bind.
  rewrite Hl. simpl. rewrite Hid. reflexivity.
Qed.

Lemma publish_object_data_known frame detection self name object_id :
  labels !! label detection = Some name →
  object_id_of name = Some object_id →
  let self1 := observed self object_id (corner_vector frame detection) in
  publish_object_data labels frame detection self =
    if (length (buffer_of self1 object_id) =? 10)%nat
       && negb (bool_decide (object_id ∈ published_objects self))
    then
      match reshape_4_2 (np_mean_axis0 (buffer_of self1 object_id)) with
      | None => Run [] self1 (Raises ValueError)
      | Some avg_corners =>
          Run [publish ([inject_Z object_id] ++ concat avg_corners
                          ++ [(size_ratios frame detection).1;
                              (size_ratios frame detection).2]);
               loginfo ("Found Target: " +:+ name);
               loginfo ("Published Object Identity and Coordinates for: "
                          +:+ str_float object_id);
               os_system ("espeak 'Detected Target: " +:+ name +:+ "'")]
              (marked self1 object_id) (Returns tt)
      end
    else Run [] self1 (Returns tt).
Proof.
  intros Hl Hid self1. subst self1.
  unfold publish_object_data, label_name, getitem, bind.
  rewrite Hl. cbn [ret]. rewrite Hid, frameNorm_quad.
  cbn [lookup list_lookup ret modify get emit raise].
  unfold observed, corner_vector, size_ratios, pixel_box, marked.
  cbn [published_objects coordinate_buffers concat app fst snd].
  match goal with |- context [if ?c then _ else _] => destruct c end.
  - match goal with
    | |- context [reshape_4_2 ?a] => destruct (reshape_4_2 a)
    end; reflexivity.
  - reflexivity.
Qed.

End DetectorFacts.

(** *** One report per object id *)

Lemma reports_app evs1 evs2 : reports (evs1 ++ evs2) = reports evs1 ++ reports evs2.
Proof. apply omap_app. Qed.

Lemma reports_for_app object_id evs1 evs2 :
  reports_for object_id (evs1 ++ evs2)
  = reports_for object_id evs1 ++ reports_for object_id evs2.
Proof. unfold reports_for. by rewrite reports_app, filter_app. Qed.

Lemma is_report_for_id (a b : Z) (rest : list Q) :
  is_report_for a (inject_Z b :: rest) = bool_decide (a = b).
Proof.
  simpl. case_bool_decide as Hab.
  - subst. apply Qeq_bool_iff. reflexivity.
  - destruct (Qeq_bool (inject_Z b) (inject_Z a)) eqn:E; [| done].
    apply Qeq_bool_eq in E. pose proof (proj1 (inject_Z_injective b a) E). congruence.
Qed.

Section Dedup.

Variable labels : list string.

(** What one call does to the report stream of one id and to
    [published_objects]. *)
Lemma publish_object_data_step frame detection self object_id :
  let r := publish_object_data labels frame detection self in
  published_objects self ⊆ published_objects (final r)
  ∧ (reports_for object_id (trace r) = []
     ∨ (length (reports_for object_id (trace r)) = 1%nat
        ∧ (object_id ∉ published_objects self)
        ∧ object_id ∈ published_objects (final r))).
Proof.
  destruct (labels !! label detection) as [name|] eqn:Hl.
  2:{ rewrite publish_object_data_raises by done. simpl. auto. }
  destruct (object_id_of name) as [oid|] eqn:Hid.
  2:{ rewrite (publish_object_data_unknown _ _ _ _ name) by done. simpl. auto. }
  rewrite (publish_object_data_known _ _ _ _ name oid) by done.
  set (self1 := observed self oid (corner_vector frame detection)).
  destruct (length (buffer_of self1 oid) =? 10)%nat; simpl; [| auto].
  case_bool_decide as Hin; simpl; [auto |].
  destruct (reshape_4_2 _) as [avg|]; simpl; [| auto].
  split; [set_solver |].
  unfold reports_for. simpl. rewrite filter_cons.
  change (is_report_for object_id (inject_Z oid :: ?l))
    with (is_report_for object_id (inject_Z oid :: l)).
  rewrite is_report_for_id.
  case_bool_decide as Heq; rewrite ?filter_nil.
  - subst oid. destruct (decide (Is_true true)) as [_|n]; [| by destruct n].
    right. simpl. repeat split; [done | set_solver].
  - destruct (decide (Is_true false)) as [[]|_]. by left.
Qed.

Lemma feed_cons frame detection rest self :
  feed labels ((frame, detection) :: rest) self =
    let r := publish_object_data labels frame detection self in
    match outcome r with
    | Returns _ => let r' := feed labels rest (final r) in
                   Run (trace r ++ trace r') (final r') (outcome r')
    | Raises e => Run (trace r) (final r) (Raises e)
    end.
Proof.
  cbn [feed]. unfold bind.
  destruct (publish_object_data labels frame detection self) as [t s' [[]|e]];
    cbn [trace final outcome]; [| reflexivity].
  by destruct (feed labels rest s').
Qed.

Lemma feed_dedup inputs : ∀ self object_id,
  let r := feed labels inputs self in
  published_objects self ⊆ published_objects (final r)
  ∧ (length (reports_for object_id (trace r))
     ≤ if bool_decide (object_id ∈ published_objects self) then 0 else 1)%nat.
Proof.
  induction inputs as [|[frame detection] rest IH]; intros self object_id.
  - simpl. split; [done | case_bool_decide; lia].
  - rewrite feed_cons.
    pose proof (publish_object_data_step frame detection self object_id) as Hstep.
    set (r1 := publish_object_data labels frame detection self) in *.
    simpl in Hstep. destruct Hstep as [Hsub Hrep].
    assert (Hhead : (length (reports_for object_id (trace r1))
              ≤ if bool_decide (object_id ∈ published_objects self) then 0 else 1)%nat).
    { destruct Hrep as [-> | (-> & Hnot & _)]; [simpl; lia |].
      rewrite bool_decide_eq_false_2 by done. lia. }
    clearbody r1. destruct r1 as [t1 s1 [[]|e]]; simpl in *; [| done].
    destruct (IH s1 object_id) as [Hsub' Hrest]. simpl in Hsub', Hrest.
    split; [by etrans |].
    rewrite reports_for_app, length_app.
    destruct Hrep as [-> | (-> & Hnot & Hin)].
    + simpl. etrans; [exact Hrest |].
      repeat case_bool_decide; try lia. exfalso. auto.
    + rewrite bool_decide_eq_true_2 in Hrest by done.
      rewrite bool_decide_eq_false_2 by done. lia.
Qed.

End Dedup.

(** C1.  Whatever the sequence of frames and detections, the object
    channel carries at most one report for a given object id from start-up
    on; from any state in which the id is already in [published_objects],
    no later call publishes a report for it, however often its window
    fills again; and [published_objects] only grows. *)
Theorem at_most_one_report_per_object
    (labels : list string) (inputs : list (Frame * Detection)) (object_id : Z) :
  (length (reports_for object_id
             (trace (feed labels inputs DepthaiCamera_init))) ≤ 1)%nat
  ∧ ∀ self : DepthaiCamera,
      let r := feed labels inputs self in
      published_objects self ⊆ published_objects (final r)
      ∧ (length (reports_for object_id (trace r))
         ≤ if bool_decide (object_id ∈ published_objects self) then 0 else 1)%nat.
Proof.
  split.
  - destruct (feed_dedup labels inputs DepthaiCamera_init object_id) as [_ H].
    simpl in H. rewrite bool_decide_eq_false_2 in H by set_solver. exact H.
  - intros self. apply feed_dedup.
Qed.

(** *** The window and its mean *)

Lemma nth_zip_with_add (a b : list Z) (j : nat) :
  length a = length b →
  nth j (zip_with Z.add a b) 0 = nth j a 0 + nth j b 0.
Proof.
  revert b j. induction a as [|x a IH]; intros [|y b] j Hlen; simpl in Hlen; try lia.
  - by destruct j.
  - destruct j as [|j]; simpl; [done |]. apply IH. lia.
Qed.

Lemma foldl_zip_with_add (n : nat) (rest : list (list Z)) : ∀ acc : list Z,
  length acc = n →
  Forall (fun r => length r = n) rest →
  length (foldl (zip_with Z.add) acc rest) = n
  ∧ ∀ j, nth j (foldl (zip_with Z.add) acc rest) 0
         = nth j acc 0 + foldr Z.add 0 (column j rest).
Proof.
  induction rest as [|r rest IH]; intros acc Hacc Hrest; simpl.
  - split; [done | intros j; lia].
  - apply Forall_cons in Hrest as [Hr Hrest].
    destruct (IH (zip_with Z.add acc r)) as [Hlen Hnth]; [| done |].
    { rewrite length_zip_with. lia. }
    split; [done |]. intros j.
    rewrite Hnth, nth_zip_with_add by lia. lia.
Qed.

Lemma add_reduce_axis0_columns (n : nat) (rows : list (list Z)) :
  rows ≠ [] →
  Forall (fun r => length r = n) rows →
  length (add_reduce_axis0 rows) = n
  ∧ ∀ j, nth j (add_reduce_axis0 rows) 0 = foldr Z.add 0 (column j rows).
Proof.
  destruct rows as [|r rest]; [done |]. intros _ Hrows.
  apply Forall_cons in Hrows as [Hr Hrest]. simpl.
  apply (foldl_zip_with_add n rest r); done.
Qed.

Lemma length_column j rows : length (column j rows) = length rows.
Proof. apply length_fmap. Qed.

(** On rows of eight entries, [np.mean(..., axis=0).reshape((4, 2))]
    succeeds and yields the column means, paired into points. *)
Lemma reshape_mean_window (window : list (list Z)) :
  window ≠ [] →
  Forall (fun r => length r = 8%nat) window →
  reshape_4_2 (np_mean_axis0 window) = Some (mean_corners window).
Proof.
  intros Hne Hrows.
  destruct (add_reduce_axis0_columns 8 window Hne Hrows) as [Hlen Hnth].
  unfold np_mean_axis0, mean_corners, arithmetic_mean.
  destruct (add_reduce_axis0 window)
    as [|s0 [|s1 [|s2 [|s3 [|s4 [|s5 [|s6 [|s7 [|? ?]]]]]]]]]; simplify_eq/=.
  rewrite !length_column.
  rewrite <- (Hnth 0%nat), <- (Hnth 1%nat), <- (Hnth 2%nat), <- (Hnth 3%nat),
          <- (Hnth 4%nat), <- (Hnth 5%nat), <- (Hnth 6%nat), <- (Hnth 7%nat).
  reflexivity.
Qed.

(** *** States the node can be in *)

Section Reachable.

Variable labels : list string.

Lemma length_corner_vector frame detection :
  length (corner_vector frame detection) = 8%nat.
Proof. reflexivity. Qed.

Lemma deque_append_length {A} (d : list A) (x : A) :
  (length d ≤ 10)%nat →
  (length (deque_append 10 d x) ≤ 10)%nat
  ∧ ((length d < 10)%nat → deque_append 10 d x = d ++ [x]).
Proof.
  intros Hd. unfold deque_append.
  destruct (Nat.ltb_spec (length d) 10) as [Hlt|Hge].
  - rewrite length_app. simpl. split; [lia | done].
  - rewrite length_drop, length_app. simpl. split; lia.
Qed.

Lemma deque_append_Forall {A} (P : A → Prop) (d : list A) (x : A) :
  Forall P d → P x → Forall P (deque_append 10 d x).
Proof.
  intros Hd Hx. unfold deque_append.
  assert (Forall P (d ++ [x])) by (apply Forall_app; auto).
  destruct (length d <? 10)%nat; [done | by apply Forall_drop].
Qed.

Lemma buffer_of_other self object_id other rows published :
  object_id ≠ other →
  buffer_of {| published_objects := published;
               coordinate_buffers := <[other := rows]> (coordinate_buffers self) |}
            object_id
  = buffer_of self object_id.
Proof. intros Hne. unfold buffer_of. simpl. by rewrite lookup_insert_ne. Qed.

Lemma buffers_wf_observed self object_id frame detection :
  buffers_wf self →
  ∀ other,
    Forall (fun r => length r = 8%nat)
      (buffer_of (observed self object_id (corner_vector frame detection)) other)
    ∧ (length (buffer_of (observed self object_id (corner_vector frame detection)) other)
       ≤ 10)%nat.
Proof.
  intros Hwf other. destruct (decide (other = object_id)) as [->|Hne].
  - rewrite buffer_of_observed. destruct (Hwf object_id) as (Hrows & Hlen & _).
    split; [by apply deque_append_Forall | by apply deque_append_length].
  - unfold observed. rewrite buffer_of_other by done.
    destruct (Hwf other) as (? & ? & _). done.
Qed.

Lemma buffers_wf_step self frame detection :
  buffers_wf self →
  buffers_wf (final (publish_object_data labels frame detection self)).
Proof.
  intros Hwf.
  destruct (labels !! label detection) as [name|] eqn:Hl.
  2:{ by rewrite publish_object_data_raises. }
  destruct (object_id_of name) as [oid|] eqn:Hid.
  2:{ by rewrite (publish_object_data_unknown _ _ _ _ name). }
  rewrite (publish_object_data_known _ _ _ _ name oid) by done.
  pose proof (buffers_wf_observed self oid frame detection Hwf) as Hobs.
  set (self1 := observed self oid (corner_vector frame detection)) in *.
  destruct (Nat.eqb_spec (length (buffer_of self1 oid)) 10) as [Hfull|Hnot]; simpl.
  - case_bool_decide as Hin; simpl.
    + intros other. destruct (Hobs other) as [Hrows Hlen].
      repeat split; [done | done |].
      intros Hout. destruct (decide (other = oid)) as [->|Hne]; [done |].
      subst self1. unfold observed in *. rewrite buffer_of_other in * by done.
      by apply Hwf.
    + rewrite reshape_mean_window.
      2:{ intros Hnil. rewrite Hnil in Hfull. discriminate. }
      2:{ apply Hobs. }
      simpl. intros other. destruct (decide (other = oid)) as [->|Hne].
      * unfold buffer_of, marked. simpl. rewrite lookup_insert_eq. simpl.
        repeat split; [constructor | lia | lia].
      * unfold marked. rewrite buffer_of_other by done.
        destruct (Hobs other) as [Hrows Hlen]. repeat split; [done | done |].
        intros Hout. subst self1. unfold observed in *.
        rewrite buffer_of_other in * by done.
        apply Hwf. intros Hin'. apply Hout, elem_of_union_r, Hin'.
  - intros other. destruct (Hobs other) as [Hrows Hlen].
    repeat split; [done | done |]. intros Hout.
    destruct (decide (other = oid)) as [->|Hne]; [lia |].
    subst self1. unfold observed in *. rewrite buffer_of_other in * by done.
    by apply Hwf.
Qed.

Lemma reachable_wf self : reachable labels self → buffers_wf self.
Proof.
  induction 1 as [|self frame detection _ IH].
  - intros object_id. unfold buffer_of. simpl. rewrite lookup_empty. simpl.
    repeat split; [constructor | lia | lia].
  - by apply buffers_wf_step.
Qed.

(** What is published when an unpublished id's window fills. *)
Lemma publish_full_window self frame detection name object_id :
  reachable labels self →
  labels !! label detection = Some name →
  object_id_of name = Some object_id →
  object_id ∉ published_objects self →
  length (buffer_of self object_id) = 9%nat →
  let window := buffer_of self object_id ++ [corner_vector frame detection] in
  publish_object_data labels frame detection self =
    Run [publish ([inject_Z object_id] ++ concat (mean_corners window)
                    ++ [(size_ratios frame detection).1;
                        (size_ratios frame detection).2]);
         loginfo ("Found Target: " +:+ name);
         loginfo ("Published Object Identity and Coordinates for: "
                    +:+ str_float object_id);
         os_system ("espeak 'Detected Target: " +:+ name +:+ "'")]
        (marked (observed self object_id (corner_vector frame detection)) object_id)
        (Returns tt).
Proof.
  intros Hreach Hl Hid Hout Hlen window.
  apply reachable_wf in Hreach as Hwf.
  rewrite (publish_object_data_known _ _ _ _ name object_id) by done.
  rewrite buffer_of_observed.
  destruct (deque_append_length (buffer_of self object_id)
              (corner_vector frame detection)) as [_ Happ]; [lia |].
  rewrite Happ by lia. fold window.
  assert (Hfull : length window = 10%nat).
  { unfold window. rewrite length_app. simpl. lia. }
  rewrite Hfull. simpl. rewrite bool_decide_eq_false_2 by done. simpl.
  rewrite reshape_mean_window; [done | |].
  - intros Hnil. rewrite Hnil in Hfull. discriminate.
  - apply Forall_app. split; [apply Hwf |]. by repeat constructor.
Qed.

End Reachable.

(** C2.  When an unpublished id's buffer holds exactly ten corner sets
    c_1..c_10 after the append, they are the nine buffered before plus the
    current one (nothing was evicted), each has eight entries, and the one
    report then published carries, after the id, the four points whose
    coordinates are the arithmetic means of the eight columns of
    c_1..c_10. *)
Theorem report_corners_are_window_mean
    (labels : list string) (self : DepthaiCamera)
    (frame : Frame) (detection : Detection) (name : string) (object_id : Z) :
  reachable labels self →
  labels !! label detection = Some name →
  object_id_of name = Some object_id →
  object_id ∉ published_objects self →
  let window :=
    buffer_of (observed self object_id (corner_vector frame detection)) object_id in
  length window = 10%nat →
  let μ := fun j => arithmetic_mean (column j window) in
  window = buffer_of self object_id ++ [corner_vector frame detection]
  ∧ Forall (fun c => length c = 8%nat) window
  ∧ ∃ avg_corners,
      avg_corners = [[μ 0; μ 1]; [μ 2; μ 3]; [μ 4; μ 5]; [μ 6; μ 7]]%nat
      ∧ reports (trace (publish_object_data labels frame detection self))
        = [[inject_Z object_id] ++ concat avg_corners
             ++ [(size_ratios frame detection).1; (size_ratios frame detection).2]].
Proof.
  intros Hreach Hl Hid Hout window Hfull μ.
  pose proof (reachable_wf labels self Hreach object_id) as (Hrows & Hle & Hlt).
  specialize (Hlt Hout).
  destruct (deque_append_length (buffer_of self object_id)
              (corner_vector frame detection) Hle) as [_ Happ].
  specialize (Happ Hlt).
  assert (Hwin : window = buffer_of self object_id ++ [corner_vector frame detection]).
  { unfold window. by rewrite buffer_of_observed. }
  assert (Hnine : length (buffer_of self object_id) = 9%nat).
  { rewrite Hwin, length_app in Hfull. simpl in Hfull. lia. }
  split; [done |]. split.
  { rewrite Hwin. apply Forall_app. split; [done |]. by repeat constructor. }
  eexists. split; [reflexivity |].
  rewrite (publish_full_window labels self frame detection name object_id) by done.
  rewrite <- Hwin. reflexivity.
Qed.

Lemma reshape_4_2_concat {A} (a : list A) (points : list (list A)) :
  reshape_4_2 a = Some points → concat points = a ∧ length a = 8%nat.
Proof.
  destruct a as [|a0 [|a1 [|a2 [|a3 [|a4 [|a5 [|a6 [|a7 [|? ?]]]]]]]]];
    simpl; intros ?; simplify_eq. done.
Qed.

(** C10.  Every payload [publish_object_data] sends, in any state the node
    can reach, has exactly eleven entries: the object id; the eight
    coordinates of the four averaged corners, entry [j + 1] being the
    arithmetic mean of coordinate [j] over the ten corner sets of the
    window, the nine buffered and the current one; and two size ratios.
    The ratios are the width and height of the pixel box of the detection
    of this very call, divided by the width and height of this call's
    frame: the window does not enter them. *)
Theorem report_payload_layout
    (labels : list string) (self : DepthaiCamera)
    (frame : Frame) (detection : Detection) (data : list Q) :
  reachable labels self →
  data ∈ reports (trace (publish_object_data labels frame detection self)) →
  ∃ (name : string) (object_id : Z) (b0 b1 b2 b3 : Z),
    labels !! label detection = Some name
    ∧ object_id_of name = Some object_id
    ∧ frameNorm frame [xmin detection; ymin detection; xmax detection; ymax detection]
      = [b0; b1; b2; b3]
    ∧ let window := buffer_of self object_id ++ [[b0; b1; b2; b1; b2; b3; b0; b3]] in
      let μ := fun j => arithmetic_mean (column j window) in
      length window = 10%nat
      ∧ data = [inject_Z object_id;
                μ 0%nat; μ 1%nat; μ 2%nat; μ 3%nat; μ 4%nat; μ 5%nat; μ 6%nat; μ 7%nat;
                (inject_Z (b2 - b0) / inject_Z (Z.pos (shape1 frame)))%Q;
                (inject_Z (b3 - b1) / inject_Z (Z.pos (shape0 frame)))%Q]
      ∧ length data = 11%nat
      ∧ reports (trace (publish_object_data labels frame detection self)) = [data].
Proof.
  intros Hreach.
  destruct (labels !! label detection) as [name|] eqn:Hl.
  2:{ rewrite publish_object_data_raises by done. simpl. by intros ?%elem_of_nil. }
  destruct (object_id_of name) as [oid|] eqn:Hid.
  2:{ rewrite (publish_object_data_unknown _ _ _ _ name) by done.
      simpl. by intros ?%elem_of_nil. }
  pose proof (reachable_wf labels self Hreach oid) as (Hrows & Hle & Hlt).
  destruct (decide (oid ∈ published_objects self)) as [Hin|Hout].
  { rewrite (publish_object_data_known _ _ _ _ name oid) by done.
    rewrite (bool_decide_eq_true_2 _ Hin), andb_false_r.
    simpl. by intros ?%elem_of_nil. }
  specialize (Hlt Hout).
  destruct (deque_append_length (buffer_of self oid)
              (corner_vector frame detection) Hle) as [_ Happ].
  specialize (Happ Hlt).
  destruct (decide (length (buffer_of self oid) = 9%nat)) as [Hnine|Hnot].
  2:{ rewrite (publish_object_data_known _ _ _ _ name oid) by done.
      rewrite buffer_of_observed, Happ, length_app. cbn [length].
      rewrite (proj2 (Nat.eqb_neq _ 10)) by lia.
      simpl. by intros ?%elem_of_nil. }
  rewrite (publish_full_window labels self frame detection name oid) by done.
  cbn [trace reports omap list_omap]. intros ->%list_elem_of_singleton.
  exists name, oid. eexists _, _, _, _. rewrite frameNorm_quad.
  split; [done |]. split; [done |]. split; [reflexivity |].
  cbn zeta. split; [rewrite length_app, Hnine; reflexivity |].
  split; [reflexivity |]. split; reflexivity.
Qed.

(** ** The label filter *)

Lemma object_id_of_other (name : string) :
  name ≠ "backpack" → name ≠ "person" → object_id_of name = None.
Proof.
  intros Hb Hp. unfold object_id_of.
  apply String.eqb_neq in Hb, Hp. by rewrite Hb, Hp.
Qed.

(** C4, as amended.  A detection whose class index is in [labels] and
    whose class name is neither of the two names of the if/elif chain only
    logs one warning: no buffer is created or appended to,
    [published_objects] is unchanged, nothing is published on the object
    channel, [espeak] is not run, and the call returns normally, so that
    the loop of [run] goes on with the next detection. *)
Theorem unknown_label_is_dropped
    (labels : list string) (self : DepthaiCamera)
    (frame : Frame) (detection : Detection) (name : string)
    (rest : list (Frame * Detection)) :
  labels !! label detection = Some name →
  name ≠ "backpack" →
  name ≠ "person" →
  publish_object_data labels frame detection self
  = Run [logwarn "This Object Identifier is unknown"] self (Returns tt)
  ∧ feed labels ((frame, detection) :: rest) self
    = Run (logwarn "This Object Identifier is unknown" :: trace (feed labels rest self))
          (final (feed labels rest self))
          (outcome (feed labels rest self)).
Proof.
  intros Hl Hb Hp.
  pose proof (publish_object_data_unknown labels frame detection self name Hl
                (object_id_of_other name Hb Hp)) as Hcall.
  split; [exact Hcall |].
  rewrite feed_cons, Hcall. reflexivity.
Qed.

(** C4, as the claim words it, fails on a class index that [labels] does
    not hold: with two configured labels, a detection of class 5 is mapped
    to no object id, and [labels[detection.label]] raises [IndexError]
    without a warning; the exception leaves the detection loop, so the
    detections after it are not processed. *)
Lemma unmapped_class_index_is_fatal :
  ¬ unmapped_is_dropped ["backpack"; "person"].
Proof.
  intros Hclaim.
  specialize (Hclaim frame_416 (centred_detection 5 0.9) DepthaiCamera_init eq_refl).
  rewrite publish_object_data_raises in Hclaim by reflexivity.
  discriminate Hclaim.
Qed.

(** ** The ten-backpack scenario *)

Lemma scenario_reports_backpack (labels : list string) (l : nat) (c : Q) :
  labels !! l = Some "backpack" →
  let data := [inject_Z 101; 1660 # 10; 1660 # 10; 2490 # 10; 1660 # 10;
               2490 # 10; 2490 # 10; 1660 # 10; 2490 # 10;
               83 # 416; 83 # 416] in
  scenario_reports labels l c 10 = [data]
  ∧ scenario_reports labels l c 11 = [data].
Proof.
  intros Hl. unfold scenario_reports.
  cbn [replicate feed]. unfold publish_object_data, label_name, getitem.
  cbn [label centred_detection]. rewrite Hl.
  split; vm_compute; reflexivity.
Qed.

(** C3.  Ten identical "backpack" detections with box
    (0.4, 0.4, 0.6, 0.6) on a 416x416 frame produce exactly one report, for
    object id 101.  Its corners agree with (166,166), (250,166), (250,250),
    (166,250) to within one pixel, or any larger tolerance, and its size
    ratios with 0.2 to within 1/2080, or any larger tolerance:
    [astype(int)] truncates 166.4 to 166 and 249.6 to 249, so the corners
    are (166,166), (249,166), (249,249), (166,249) and both ratios are
    83/416.  An eleventh identical detection adds no report. *)
Theorem ten_backpacks_one_report
    (labels : list string) (l : nat) (c : Q) (tol_px tol_ratio : Q) :
  labels !! l = Some "backpack" →
  (1 <= tol_px)%Q →
  (1 # 2080 <= tol_ratio)%Q →
  scenario_as_stated labels l c tol_px tol_ratio
  ∧ ∃ data,
      scenario_reports labels l c 10 = [data]
      ∧ Forall2 Qeq data
          [101; 166; 166; 249; 166; 249; 249; 166; 249; 83 # 416; 83 # 416]%Q
      ∧ scenario_reports labels l c 11 = [data].
Proof.
  intros Hl Hpx Hratio.
  destruct (scenario_reports_backpack labels l c Hl) as [H10 H11].
  split.
  - exists (inject_Z 101),
      [1660 # 10; 1660 # 10; 2490 # 10; 1660 # 10;
       2490 # 10; 2490 # 10; 1660 # 10; 2490 # 10]%Q,
      [83 # 416; 83 # 416]%Q.
    split; [exact H10 |]. split; [reflexivity |].
    split; [| split; [| exact H11]].
    + repeat (constructor;
                [apply Qle_trans with 1%Q;
                   [apply Qle_bool_iff; vm_compute; reflexivity | exact Hpx] |]).
      constructor.
    + repeat (constructor;
                [apply Qle_trans with (1 # 2080)%Q;
                   [apply Qle_bool_iff; vm_compute; reflexivity | exact Hratio] |]).
      constructor.
  - eexists. split; [exact H10 |]. split; [| exact H11].
    repeat (constructor; [reflexivity |]). constructor.
Qed.

Lemma ten_backpacks_one_report_witness :
  [ "backpack"; "person" ] !! 0%nat = Some "backpack"
  ∧ (1 <= 1)%Q
  ∧ (1 # 2080 <= 1 # 1000)%Q
  ∧ scenario_as_stated ["backpack"; "person"] 0 0.9 1 (1 # 1000)
  ∧ ∃ data,
      scenario_reports ["backpack"; "person"] 0 0.9 10 = [data]
      ∧ Forall2 Qeq data
          [101; 166; 166; 249; 166; 249; 249; 166; 249; 83 # 416; 83 # 416]%Q
      ∧ scenario_reports ["backpack"; "person"] 0 0.9 11 = [data].
Proof.
  assert (Hpx : (1 <= 1)%Q) by (apply Qle_bool_iff; vm_compute; reflexivity).
  assert (Hratio : (1 # 2080 <= 1 # 1000)%Q)
    by (apply Qle_bool_iff; vm_compute; reflexivity).
  split; [reflexivity |]. split; [exact Hpx |]. split; [exact Hratio |].
  apply (ten_backpacks_one_report ["backpack"; "person"] 0 0.9 1 (1 # 1000));
    [reflexivity | exact Hpx | exact Hratio].
Defined.

(** The size ratios are those of the last detection, not a window mean:
    after nine detections with a box of side 0.2, a tenth with a box of
    side 0.5 is published with ratios 208/416 although the corners are
    averaged over all ten. *)
Example ratios_follow_last_detection :
  let wide := {| label := 0; confidence := 0.9;
                 xmin := 0.25; ymin := 0.25; xmax := 0.75; ymax := 0.75 |} in
  ∃ data,
    reports (trace (feed ["backpack"; "person"]
                      (replicate 9 (frame_416, centred_detection 0 0.9)
                         ++ [(frame_416, wide)])
                      DepthaiCamera_init)) = [data]
    ∧ Forall2 Qeq data
        [101; 159.8; 159.8; 255.3; 159.8; 255.3; 255.3; 159.8; 255.3; 0.5; 0.5]%Q.
Proof.
  eexists. split; [vm_compute; reflexivity |].
  repeat (constructor; [reflexivity |]). constructor.
Qed.

(** *** Instances *)

Lemma reachable_feed (labels : list string) (inputs : list (Frame * Detection)) :
  ∀ self, reachable labels self → reachable labels (final (feed labels inputs self)).
Proof.
  induction inputs as [|[frame detection] rest IH]; intros self Hreach; [done |].
  rewrite feed_cons.
  pose proof (reachable_call labels self frame detection Hreach) as Hcall.
  destruct (publish_object_data labels frame detection self) as [t s' [[]|e]];
    simpl in *; [by apply IH | done].
Qed.

Lemma report_corners_are_window_mean_witness :
  let labels := ["backpack"; "person"] in
  let detection := centred_detection 0 0.9 in
  let window :=
    buffer_of (observed after_nine 101 (corner_vector frame_416 detection)) 101 in
  let μ := fun j => arithmetic_mean (column j window) in
  window = buffer_of after_nine 101 ++ [corner_vector frame_416 detection]
  ∧ Forall (fun c => length c = 8%nat) window
  ∧ ∃ avg_corners,
      avg_corners = [[μ 0; μ 1]; [μ 2; μ 3]; [μ 4; μ 5]; [μ 6; μ 7]]%nat
      ∧ reports (trace (publish_object_data labels frame_416 detection after_nine))
        = [[inject_Z 101] ++ concat avg_corners
             ++ [(size_ratios frame_416 detection).1;
                 (size_ratios frame_416 detection).2]].
Proof.
  intros labels detection.
  apply (report_corners_are_window_mean labels after_nine frame_416 detection
           "backpack" 101).
  - apply reachable_feed, reachable_init.
  - reflexivity.
  - reflexivity.
  - apply (bool_decide_eq_false_1 (101 ∈ published_objects after_nine)).
    vm_compute. reflexivity.
  - vm_compute. reflexivity.
Defined.

Lemma report_payload_layout_witness :
  let labels := ["backpack"; "person"] in
  let wide := {| label := 0; confidence := 0.9;
                 xmin := 0.25; ymin := 0.25; xmax := 0.75; ymax := 0.75 |} in
  let data := [inject_Z 101; 1598 # 10; 1598 # 10; 2553 # 10; 1598 # 10;
               2553 # 10; 2553 # 10; 1598 # 10; 2553 # 10;
               208 # 416; 208 # 416] in
  reachable labels after_nine
  ∧ data ∈ reports (trace (publish_object_data labels frame_416 wide after_nine))
  ∧ length data = 11%nat
  ∧ reports (trace (publish_object_data labels frame_416 wide after_nine)) = [data].
Proof.
  intros labels wide data.
  assert (Hreach : reachable labels after_nine)
    by apply reachable_feed, reachable_init.
  assert (Hin : data ∈ reports (trace (publish_object_data labels frame_416
                                         wide after_nine))).
  { vm_compute. constructor. }
  split; [exact Hreach |]. split; [exact Hin |].
  destruct (report_payload_layout labels after_nine frame_416 wide data Hreach Hin)
    as (name & object_id & b0 & b1 & b2 & b3 & _ & _ & _ & _ & _ & Hlen & Hone).
  split; [exact Hlen | exact Hone].
Defined.

Lemma unknown_label_is_dropped_witness :
  let labels := ["backpack"; "person"; "drone"] in
  let detection := centred_detection 2 0.9 in
  labels !! label detection = Some "drone"
  ∧ publish_object_data labels frame_416 detection after_nine
    = Run [logwarn "This Object Identifier is unknown"] after_nine (Returns tt).
Proof.
  intros labels detection. split; [reflexivity |].
  apply (unknown_label_is_dropped labels after_nine frame_416 detection "drone" []).
  - reflexivity.
  - discriminate.
  - discriminate.
Defined.

(** * Reasoning about methods *)

Lemma bind_run {St Ev A B} (m : Py St Ev A) (k : A → Py St Ev B) (s : St) :
  bind m k s =
    match outcome (m s) with
    | Returns a =>
        Run (trace (m s) ++ trace (k a (final (m s))))
            (final (k a (final (m s))))
            (outcome (k a (final (m s))))
    | Raises e => Run (trace (m s)) (final (m s)) (Raises e)
    end.
Proof.
  unfold bind. destruct (m s) as [t s' [a|e]]; simpl; [| reflexivity].
  by destruct (k a s').
Qed.

Lemma always_raises_bind_l {St Ev A B} (m : Py St Ev A) (k : A → Py St Ev B) :
  always_raises m → always_raises (bind m k).
Proof.
  intros Hm s. destruct (Hm s) as [e He]. exists e.
  rewrite bind_run, He. reflexivity.
Qed.

Lemma always_raises_bind_r {St Ev A B} (m : Py St Ev A) (k : A → Py St Ev B) :
  (∀ a, always_raises (k a)) → always_raises (bind m k).
Proof.
  intros Hk s. rewrite bind_run.
  destruct (outcome (m s)) as [a|e]; simpl; [apply Hk | by exists e].
Qed.

(** What follows a method that always raises is never run. *)
Lemma bind_always_raises {St Ev A B} (m : Py St Ev A) (k : A → Py St Ev B) (s : St) :
  always_raises m →
  trace (bind m k s) = trace (m s) ∧ final (bind m k s) = final (m s).
Proof.
  intros Hm. destruct (Hm s) as [e He]. rewrite bind_run, He. done.
Qed.

Section Respects.

Context {St Ev : Type}.
Variable R : St → list Ev → St → Prop.
Hypothesis R_refl : ∀ s, R s [] s.
Hypothesis R_trans : ∀ s t s' t' s'', R s t s' → R s' t' s'' → R s (t ++ t') s''.

Lemma respects_ret {A} (a : A) : respects R (ret a).
Proof using R_refl. intros s. apply R_refl. Qed.

Lemma respects_raise {A} (e : exn) : respects R (@raise St Ev A e).
Proof using R_refl. intros s. apply R_refl. Qed.

Lemma respects_get : respects R get.
Proof using R_refl. intros s. apply R_refl. Qed.

Lemma respects_emit (e : Ev) : (∀ s, R s [e] s) → respects R (emit e).
Proof. intros He s. apply He. Qed.

Lemma respects_modify (f : St → St) : (∀ s, R s [] (f s)) → respects R (modify f).
Proof. intros Hf s. apply Hf. Qed.

Lemma respects_bind {A B} (m : Py St Ev A) (k : A → Py St Ev B) :
  respects R m → (∀ a, respects R (k a)) → respects R (bind m k).
Proof using R_trans.
  intros Hm Hk s. rewrite bind_run. specialize (Hm s).
  destruct (outcome (m s)) as [a|e]; simpl; [| done].
  eapply R_trans; [exact Hm | apply Hk].
Qed.

Lemma respects_getitem {A} (l : list A) (i : nat) : respects R (getitem l i).
Proof using R_refl.
  unfold getitem. destruct (l !! i); [apply respects_ret | apply respects_raise].
Qed.

Lemma respects_for_each {A L} (items : list A) (body : A → L → Py St Ev L) :
  (∀ x locals, respects R (body x locals)) →
  ∀ locals, respects R (for_each items body locals).
Proof using R_refl R_trans.
  intros Hbody. induction items as [|x rest IH]; intros locals; simpl.
  - apply respects_ret.
  - apply respects_bind; [apply Hbody | apply IH].
Qed.

Lemma respects_reshape (a : ndarray) (dims : list nat) : respects R (reshape a dims).
Proof using R_refl.
  unfold reshape. destruct (_ =? _)%nat; [apply respects_ret | apply respects_raise].
Qed.

Lemma respects_subarray (a : ndarray) (i : nat) : respects R (subarray a i).
Proof using R_refl.
  unfold subarray. destruct (shape a) as [|n dims]; [apply respects_raise |].
  destruct (_ <? _)%nat; [apply respects_ret | apply respects_raise].
Qed.

Lemma respects_unpack4 (a : ndarray) : respects R (unpack4 a).
Proof using R_refl R_trans.
  unfold unpack4.
  destruct (shape a) as [|[|[|[|[|[|n]]]]] dims]; try apply respects_raise.
  repeat (apply respects_bind; [apply respects_subarray | intros ?]).
  apply respects_ret.
Qed.

Lemma respects_int_point (p : ndarray) : respects R (int_point p).
Proof using R_refl R_trans.
  unfold int_point.
  repeat (apply respects_bind; [apply respects_getitem | intros ?]).
  apply respects_ret.
Qed.

Lemma respects_first_item (obj : pyobj) : respects R (first_item obj).
Proof using R_refl.
  destruct obj; [apply respects_getitem | apply respects_subarray].
Qed.

End Respects.

(** * Further properties of the detector node *)

(** ** Size ratios *)

Lemma np_clip01_mono (x y : Q) : (x <= y)%Q → (np_clip01 x <= np_clip01 y)%Q.
Proof.
  intros Hxy. unfold np_clip01.
  apply Q.min_le_compat_r, Q.max_le_compat_r, Hxy.
Qed.

Lemma scaled_clip_mono (x y : Q) (n : positive) :
  (x <= y)%Q →
  astype_int (np_clip01 x * inject_Z (Z.pos n))
  ≤ astype_int (np_clip01 y * inject_Z (Z.pos n)).
Proof.
  intros Hxy.
  assert (Hn : (0 <= inject_Z (Z.pos n))%Q).
  { change 0%Q with (inject_Z 0). rewrite <- Zle_Qle. lia. }
  rewrite !astype_int_floor.
  - apply Qfloor_resp_le, Qmult_le_compat_r; [by apply np_clip01_mono | done].
  - apply Qmult_le_0_compat; [apply np_clip01_bounds | done].
  - apply Qmult_le_0_compat; [apply np_clip01_bounds | done].
Qed.

Lemma true_divide_unit (d : Z) (n : positive) :
  0 ≤ d ≤ Z.pos n → (0 <= true_divide d (Z.pos n) <= 1)%Q.
Proof.
  intros [H0 Hn]. unfold true_divide.
  assert (Hpos : (0 < inject_Z (Z.pos n))%Q).
  { change 0%Q with (inject_Z 0). rewrite <- Zlt_Qlt. lia. }
  split.
  - apply Qle_shift_div_l; [done |]. rewrite Qmult_0_l.
    change 0%Q with (inject_Z 0). by rewrite <- Zle_Qle.
  - apply Qle_shift_div_r; [done |]. rewrite Qmult_1_l. by rewrite <- Zle_Qle.
Qed.

Lemma size_ratios_unit (frame : Frame) (detection : Detection) :
  (xmin detection <= xmax detection)%Q →
  (ymin detection <= ymax detection)%Q →
  (0 <= (size_ratios frame detection).1 <= 1)%Q
  ∧ (0 <= (size_ratios frame detection).2 <= 1)%Q.
Proof.
  intros Hx Hy. unfold size_ratios, pixel_box. cbn [fst snd].
  pose proof (scaled_clip_mono _ _ (shape1 frame) Hx).
  pose proof (scaled_clip_mono _ _ (shape0 frame) Hy).
  pose proof (scaled_clip_range (xmin detection) (shape1 frame)).
  pose proof (scaled_clip_range (xmax detection) (shape1 frame)).
  pose proof (scaled_clip_range (ymin detection) (shape0 frame)).
  pose proof (scaled_clip_range (ymax detection) (shape0 frame)).
  split; apply true_divide_unit; lia.
Qed.

(** What a call that publishes has published. *)
Lemma published_data (labels : list string) (self : DepthaiCamera)
    (frame : Frame) (detection : Detection) (data : list Q) :
  data ∈ reports (trace (publish_object_data labels frame detection self)) →
  ∃ (name : string) (object_id : Z) (avg : list Q),
    labels !! label detection = Some name
    ∧ object_id_of name = Some object_id
    ∧ (object_id ∉ published_objects self)
    ∧ avg = np_mean_axis0
              (buffer_of (observed self object_id (corner_vector frame detection))
                 object_id)
    ∧ length avg = 8%nat
    ∧ data = [inject_Z object_id] ++ avg
               ++ [(size_ratios frame detection).1; (size_ratios frame detection).2].
Proof.
  destruct (labels !! label detection) as [name|] eqn:Hl.
  2:{ rewrite publish_object_data_raises by done. simpl. by intros ?%elem_of_nil. }
  destruct (object_id_of name) as [oid|] eqn:Hid.
  2:{ rewrite (publish_object_data_unknown _ _ _ _ name) by done.
      simpl. by intros ?%elem_of_nil. }
  rewrite (publish_object_data_known _ _ _ _ name oid) by done.
  set (self1 := observed self oid (corner_vector frame detection)).
  destruct (length (buffer_of self1 oid) =? 10)%nat; simpl;
    [| by intros ?%elem_of_nil].
  case_bool_decide as Hin; simpl; [by intros ?%elem_of_nil |].
  destruct (reshape_4_2 _) as [points|] eqn:Hre; [| simpl; by intros ?%elem_of_nil].
  apply reshape_4_2_concat in Hre as [Hcat Hlen].
  cbn [trace reports omap list_omap]. intros ->%list_elem_of_singleton.
  exists name, oid, (np_mean_axis0 (buffer_of self1 oid)).
  by rewrite Hcat.
Qed.

(** X1.  When a detection's box is the right way round (xmin <= xmax and
    ymin <= ymax), the two size ratios of the report it triggers, entries
    9 and 10 of the payload, lie between 0 and 1. *)
Theorem published_ratios_in_unit_interval
    (labels : list string) (self : DepthaiCamera)
    (frame : Frame) (detection : Detection) (data : list Q) :
  (xmin detection <= xmax detection)%Q →
  (ymin detection <= ymax detection)%Q →
  data ∈ reports (trace (publish_object_data labels frame detection self)) →
  ∃ rx ry : Q,
    data !! 9%nat = Some rx ∧ data !! 10%nat = Some ry
    ∧ (0 <= rx <= 1)%Q ∧ (0 <= ry <= 1)%Q.
Proof.
  intros Hx Hy Hin.
  destruct (published_data labels self frame detection data Hin)
    as (name & oid & avg & _ & _ & _ & _ & Hlen & ->).
  destruct avg as [|a0 [|a1 [|a2 [|a3 [|a4 [|a5 [|a6 [|a7 [|? ?]]]]]]]]];
    simplify_eq/=.
  destruct (size_ratios_unit frame detection Hx Hy) as [Hrx Hry].
  by eexists _, _.
Qed.

Lemma published_ratios_in_unit_interval_witness :
  let detection := centred_detection 0 0.9 in
  (xmin detection <= xmax detection)%Q
  ∧ ∃ rx ry : Q,
      [inject_Z 101; 1660 # 10; 1660 # 10; 2490 # 10; 1660 # 10;
       2490 # 10; 2490 # 10; 1660 # 10; 2490 # 10; 83 # 416; 83 # 416] !! 9%nat
      = Some rx
      ∧ [inject_Z 101; 1660 # 10; 1660 # 10; 2490 # 10; 1660 # 10;
         2490 # 10; 2490 # 10; 1660 # 10; 2490 # 10; 83 # 416; 83 # 416] !! 10%nat
        = Some ry
      ∧ (0 <= rx <= 1)%Q ∧ (0 <= ry <= 1)%Q.
Proof.
  intros detection.
  assert (Hx : (xmin detection <= xmax detection)%Q) by discriminate.
  assert (Hy : (ymin detection <= ymax detection)%Q) by discriminate.
  split; [exact Hx |].
  apply (published_ratios_in_unit_interval ["backpack"; "person"] after_nine
           frame_416 detection _ Hx Hy).
  vm_compute. constructor.
Defined.

(** ** One class does not disturb the other *)

Lemma object_id_of_Some (name : string) (object_id : Z) :
  object_id_of name = Some object_id →
  (name = "backpack" ∧ object_id = 101) ∨ (name = "person" ∧ object_id = 102).
Proof.
  unfold object_id_of.
  destruct (String.eqb_spec name "backpack") as [->|_]; [intros [= <-]; by left |].
  destruct (String.eqb_spec name "person") as [->|_]; [intros [= <-]; by right |].
  done.
Qed.

Lemma reports_for_other (a b : Z) (rest : list Q) (evs : list event) :
  a ≠ b →
  reports evs = [] →
  reports_for a (publish (inject_Z b :: rest) :: evs) = [].
Proof.
  intros Hne Hevs. unfold reports_for. cbn [reports omap list_omap].
  fold (reports evs). rewrite Hevs, filter_cons, is_report_for_id.
  rewrite bool_decide_eq_false_2 by done.
  by destruct (decide (Is_true false)) as [[]|_].
Qed.

Lemma call_leaves_other_object
    (labels : list string) (self : DepthaiCamera)
    (frame : Frame) (detection : Detection) (other : Z) :
  classified labels detection ≠ Some other →
  let r := publish_object_data labels frame detection self in
  buffer_of (final r) other = buffer_of self other
  ∧ (other ∈ published_objects (final r) ↔ other ∈ published_objects self)
  ∧ reports_for other (trace r) = [].
Proof.
  unfold classified. intros Hother.
  destruct (labels !! label detection) as [name|] eqn:Hl; simpl in Hother.
  2:{ by rewrite publish_object_data_raises. }
  destruct (object_id_of name) as [oid|] eqn:Hid.
  2:{ by rewrite (publish_object_data_unknown _ _ _ _ name). }
  assert (Hne : other ≠ oid) by congruence.
  rewrite (publish_object_data_known _ _ _ _ name oid) by done.
  set (self1 := observed self oid (corner_vector frame detection)).
  assert (Hbuf : buffer_of self1 other = buffer_of self other).
  { unfold self1, observed. by rewrite buffer_of_other. }
  destruct (_ && _); simpl; [| done].
  destruct (reshape_4_2 _) as [avg|]; simpl; [| done].
  split; [| split].
  - unfold marked. by rewrite buffer_of_other.
  - rewrite elem_of_union, elem_of_singleton.
    split; [by intros [?|?] | by right].
  - by apply reports_for_other.
Qed.

Lemma reports_for_own (a : Z) (rest : list Q) (evs : list event) :
  reports evs = [] →
  reports_for a (publish (inject_Z a :: rest) :: evs) = [inject_Z a :: rest].
Proof.
  intros Hevs. unfold reports_for. cbn [reports omap list_omap].
  fold (reports evs). rewrite Hevs, filter_cons, is_report_for_id.
  rewrite bool_decide_eq_true_2 by done.
  by destruct (decide (Is_true true)) as [_|[]].
Qed.

(** X2.  A call on a detection that is not classified to a given object
    id leaves that id's buffer as it was, does not change whether the id is
    published, and sends no report for it. *)
Theorem other_object_untouched
    (labels : list string) (self : DepthaiCamera)
    (frame : Frame) (detection : Detection) (other : Z) :
  classified labels detection ≠ Some other →
  let r := publish_object_data labels frame detection self in
  buffer_of (final r) other = buffer_of self other
  ∧ (other ∈ published_objects (final r) ↔ other ∈ published_objects self)
  ∧ reports_for other (trace r) = [].
Proof. apply call_leaves_other_object. Qed.

Lemma other_object_untouched_witness :
  let labels := ["backpack"; "person"] in
  let detection := centred_detection 0 0.9 in
  let r := publish_object_data labels frame_416 detection after_nine in
  classified labels detection ≠ Some 102
  ∧ buffer_of (final r) 102 = buffer_of after_nine 102
  ∧ (102 ∈ published_objects (final r) ↔ 102 ∈ published_objects after_nine)
  ∧ reports_for 102 (trace r) = [].
Proof.
  intros labels detection r.
  assert (H : classified labels detection ≠ Some 102) by discriminate.
  split; [exact H |].
  exact (other_object_untouched labels after_nine frame_416 detection 102 H).
Defined.

(** ** A class index outside the configured labels *)

Lemma feed_app (labels : list string) (inputs1 inputs2 : list (Frame * Detection)) :
  ∀ self,
    feed labels (inputs1 ++ inputs2) self
    = bind (feed labels inputs1) (fun _ => feed labels inputs2) self.
Proof.
  induction inputs1 as [|[frame detection] rest IH]; intros self.
  - cbn [app feed]. unfold bind, ret. by destruct (feed labels inputs2 self).
  - rewrite <- app_comm_cons, feed_cons, bind_run, feed_cons.
    destruct (publish_object_data labels frame detection self) as [t s [[]|e]];
      cbn [trace final outcome]; [| done].
    rewrite IH, bind_run.
    destruct (feed labels rest s) as [t' s' [[]|e]]; cbn [trace final outcome];
      [| done].
    by rewrite app_assoc.
Qed.

(** X3.  A detection whose class index is outside [labels] ends the
    detection loop with [IndexError]: the detections before it have had
    their effect, the fields stay as they were when it was reached, and no
    later detection is processed. *)
Theorem unresolved_label_ends_feed
    (labels : list string) (self : DepthaiCamera)
    (before after : list (Frame * Detection)) (frame : Frame) (detection : Detection) :
  labels !! label detection = None →
  outcome (feed labels before self) = Returns tt →
  feed labels (before ++ (frame, detection) :: after) self
  = Run (trace (feed labels before self)) (final (feed labels before self))
        (Raises IndexError).
Proof.
  intros Hl Hbefore. rewrite feed_app, bind_run, Hbefore, feed_cons.
  rewrite publish_object_data_raises by done. cbn [trace final outcome].
  by rewrite app_nil_r.
Qed.

Lemma unresolved_label_ends_feed_witness :
  let labels := ["backpack"; "person"] in
  let nine := replicate 9 (frame_416, centred_detection 0 0.9) in
  let stray := (frame_416, centred_detection 2 0.9) in
  let tenth := (frame_416, centred_detection 0 0.9) in
  labels !! 2%nat = None
  ∧ feed labels (nine ++ stray :: [tenth]) DepthaiCamera_init
    = Run (trace (feed labels nine DepthaiCamera_init))
          (final (feed labels nine DepthaiCamera_init)) (Raises IndexError).
Proof.
  intros labels nine stray tenth. split; [reflexivity |].
  apply (unresolved_label_ends_feed labels DepthaiCamera_init nine [tenth]
           frame_416 (centred_detection 2 0.9)).
  - reflexivity.
  - vm_compute. reflexivity.
Defined.

(** ** Announcements *)

Lemma announcements_app evs1 evs2 :
  announcements (evs1 ++ evs2) = announcements evs1 ++ announcements evs2.
Proof. apply omap_app. Qed.

Lemma publish_object_data_announces (labels : list string) self frame detection :
  let r := publish_object_data labels frame detection self in
  announcements (trace r) = espeak_command <$> reports (trace r).
Proof.
  destruct (labels !! label detection) as [name|] eqn:Hl.
  2:{ by rewrite publish_object_data_raises. }
  destruct (object_id_of name) as [oid|] eqn:Hid.
  2:{ by rewrite (publish_object_data_unknown _ _ _ _ name). }
  rewrite (publish_object_data_known _ _ _ _ name oid) by done.
  destruct (_ && _); simpl; [| done].
  destruct (reshape_4_2 _) as [avg|]; simpl; [| done].
  unfold espeak_command, target_of_report. do 4 f_equal.
  change (is_report_for 101 (inject_Z oid :: ?l))
    with (is_report_for 101 (inject_Z oid :: l)).
  rewrite is_report_for_id.
  by destruct (object_id_of_Some name oid Hid) as [[-> ->]|[-> ->]].
Qed.

(** X4.  Every report is accompanied by exactly one [espeak] command
    naming its class, "backpack" for id 101 and "person" for id 102, and
    there is no [espeak] command without a report: the command lines run
    are those of the reports sent, in the same order. *)
Theorem announcements_follow_reports
    (labels : list string) (inputs : list (Frame * Detection)) (self : DepthaiCamera) :
  announcements (trace (feed labels inputs self))
  = (fun data => "espeak 'Detected Target: " +:+ target_of_report data +:+ "'")
      <$> reports (trace (feed labels inputs self)).
Proof.
  revert self. induction inputs as [|[frame detection] rest IH]; intros self; [done |].
  rewrite feed_cons.
  pose proof (publish_object_data_announces labels self frame detection) as Hcall.
  simpl in Hcall.
  destruct (publish_object_data labels frame detection self) as [t s [[]|e]];
    cbn [trace final outcome] in *; [| exact Hcall].
  rewrite announcements_app, reports_app, fmap_app, Hcall, IH. reflexivity.
Qed.

(** ** What the buffers hold *)

Lemma is_box_row_corner_vector frame detection :
  is_box_row (corner_vector frame detection).
Proof.
  unfold corner_vector. destruct (pixel_box frame detection) as [[[b0 b1] b2] b3].
  by exists b0, b1, b2, b3.
Qed.

Lemma is_box_row_length (r : list Z) : is_box_row r → length r = 8%nat.
Proof. by intros (b0 & b1 & b2 & b3 & ->). Qed.

Lemma buffers_hold_boxes_step (labels : list string) self frame detection :
  buffers_hold_boxes self →
  buffers_hold_boxes (final (publish_object_data labels frame detection self)).
Proof.
  intros [Hpub Hbuf].
  destruct (labels !! label detection) as [name|] eqn:Hl.
  2:{ by rewrite publish_object_data_raises. }
  destruct (object_id_of name) as [oid|] eqn:Hid.
  2:{ by rewrite (publish_object_data_unknown _ _ _ _ name). }
  assert (Hoid : oid = 101 ∨ oid = 102).
  { destruct (object_id_of_Some name oid Hid) as [[_ ->]|[_ ->]]; auto. }
  rewrite (publish_object_data_known _ _ _ _ name oid) by done.
  set (self1 := observed self oid (corner_vector frame detection)).
  assert (Hobs : buffers_hold_boxes self1).
  { split; [exact Hpub |]. intros other.
    destruct (decide (other = oid)) as [->|Hne].
    - unfold self1. rewrite buffer_of_observed. split; [| done].
      apply deque_append_Forall; [apply Hbuf | apply is_box_row_corner_vector].
    - unfold self1, observed. rewrite buffer_of_other by done. apply Hbuf. }
  destruct (_ && _); simpl; [| done].
  destruct (reshape_4_2 _) as [avg|]; simpl; [| done].
  destruct Hobs as [Hpub1 Hbuf1]. split.
  - intros other [->%elem_of_singleton|Hin]%elem_of_union; [done | by apply Hpub1].
  - intros other. destruct (decide (other = oid)) as [->|Hne].
    + unfold buffer_of, marked. simpl. rewrite lookup_insert_eq. simpl.
      split; [constructor | done].
    + unfold marked. rewrite buffer_of_other by done. apply Hbuf1.
Qed.

Lemma reachable_hold_boxes (labels : list string) self :
  reachable labels self → buffers_hold_boxes self.
Proof.
  induction 1 as [|self frame detection _ IH].
  - split; [by intros x ?%not_elem_of_empty |].
    intros object_id. unfold buffer_of. simpl. rewrite lookup_empty. simpl.
    split; [constructor | done].
  - by apply buffers_hold_boxes_step.
Qed.

(** X5.  In every state the node can reach, a buffer holds at most ten
    rows, fewer than ten while its id is unpublished; every row is the
    flattened corner array of a box; only the ids 101 and 102 have a
    non-empty buffer, and only they are ever marked as published. *)
Theorem reachable_buffers_are_bounded_boxes
    (labels : list string) (self : DepthaiCamera) :
  reachable labels self →
  (∀ object_id, object_id ∈ published_objects self → object_id = 101 ∨ object_id = 102)
  ∧ ∀ object_id,
      (length (buffer_of self object_id) ≤ 10)%nat
      ∧ (object_id ∉ published_objects self →
         (length (buffer_of self object_id) < 10)%nat)
      ∧ Forall (fun r => ∃ b0 b1 b2 b3 : Z, r = [b0; b1; b2; b1; b2; b3; b0; b3])
          (buffer_of self object_id)
      ∧ (buffer_of self object_id ≠ [] → object_id = 101 ∨ object_id = 102).
Proof.
  intros Hreach.
  destruct (reachable_hold_boxes labels self Hreach) as [Hpub Hbuf].
  split; [exact Hpub |]. intros object_id.
  destruct (reachable_wf labels self Hreach object_id) as (_ & Hle & Hlt).
  destruct (Hbuf object_id) as [Hrows Hkeys]. done.
Qed.

Lemma reachable_buffers_are_bounded_boxes_witness :
  (length (buffer_of after_nine 101) ≤ 10)%nat
  ∧ (101 ∉ published_objects after_nine → (length (buffer_of after_nine 101) < 10)%nat).
Proof.
  assert (Hreach : reachable ["backpack"; "person"] after_nine)
    by apply reachable_feed, reachable_init.
  destruct (reachable_buffers_are_bounded_boxes ["backpack"; "person"] after_nine Hreach)
    as [_ Hbuf].
  destruct (Hbuf 101) as (Hle & Hlt & _). split; [exact Hle | exact Hlt].
Defined.

(** ** The averaged corners *)

Lemma column_box_rows (rows : list (list Z)) :
  Forall is_box_row rows →
  column 0 rows = column 6 rows ∧ column 1 rows = column 3 rows
  ∧ column 2 rows = column 4 rows ∧ column 5 rows = column 7 rows.
Proof.
  induction 1 as [|r rows (b0 & b1 & b2 & b3 & ->) _ (H06 & H13 & H24 & H57)];
    [done |].
  unfold column in *. cbn [fmap list_fmap nth]. by rewrite H06, H13, H24, H57.
Qed.

(** X6.  In every state the node can reach, the eight corner entries of a
    report, each the mean of one column, again describe an axis-parallel
    box: the payload has the form
    [id, left, top, right, top, right, bottom, left, bottom, rx, ry]. *)
Theorem averaged_corners_form_a_box
    (labels : list string) (self : DepthaiCamera)
    (frame : Frame) (detection : Detection) (data : list Q) :
  reachable labels self →
  data ∈ reports (trace (publish_object_data labels frame detection self)) →
  ∃ id left top right bottom rx ry : Q,
    data = [id; left; top; right; top; right; bottom; left; bottom; rx; ry].
Proof.
  intros Hreach Hin.
  destruct (published_data labels self frame detection data Hin)
    as (name & oid & avg & _ & _ & _ & Havg & Hlen & ->).
  set (window := buffer_of (observed self oid (corner_vector frame detection)) oid)
    in *.
  assert (Hrows : Forall is_box_row window).
  { unfold window. rewrite buffer_of_observed. apply deque_append_Forall.
    - apply (reachable_hold_boxes labels self Hreach).
    - apply is_box_row_corner_vector. }
  assert (Hne : window ≠ []).
  { intros Hnil. rewrite Hnil in Havg. subst avg. discriminate. }
  assert (Hmean : np_mean_axis0 window = concat (mean_corners window)).
  { symmetry. eapply reshape_4_2_concat, reshape_mean_window; [done |].
    eapply Forall_impl; [exact Hrows | apply is_box_row_length]. }
  destruct (column_box_rows window Hrows) as (H06 & H13 & H24 & H57).
  rewrite Havg, Hmean. unfold mean_corners. cbn [fmap list_fmap concat app].
  cbn [Nat.mul Nat.add]. rewrite <- H06, <- H13, <- H24, <- H57.
  by eexists _, _, _, _, _, _, _.
Qed.

Lemma averaged_corners_form_a_box_witness :
  let data := [inject_Z 101; 1660 # 10; 1660 # 10; 2490 # 10; 1660 # 10;
               2490 # 10; 2490 # 10; 1660 # 10; 2490 # 10; 83 # 416; 83 # 416] in
  ∃ id left top right bottom rx ry : Q,
    data = [id; left; top; right; top; right; bottom; left; bottom; rx; ry].
Proof.
  intros data.
  apply (averaged_corners_form_a_box ["backpack"; "person"] after_nine frame_416
           (centred_detection 0 0.9)).
  - apply reachable_feed, reachable_init.
  - vm_compute. constructor.
Defined.

(** ** Exactly one report, at the tenth observation *)

(** On well-formed buffers a call with a resolvable class index never
    raises: it publishes when it brings an unpublished id's buffer from nine
    to ten rows, and only appends otherwise. *)
Lemma publish_object_data_wf (labels : list string) self frame detection name oid :
  buffers_wf self →
  labels !! label detection = Some name →
  object_id_of name = Some oid →
  let self1 := observed self oid (corner_vector frame detection) in
  let r := publish_object_data labels frame detection self in
  outcome r = Returns tt
  ∧ (((oid ∉ published_objects self) ∧ length (buffer_of self oid) = 9%nat
      ∧ length (reports_for oid (trace r)) = 1%nat
      ∧ final r = marked self1 oid)
     ∨ ((oid ∈ published_objects self ∨ (length (buffer_of self oid) < 9)%nat)
        ∧ trace r = [] ∧ final r = self1
        ∧ (oid ∉ published_objects self →
           length (buffer_of self1 oid) = S (length (buffer_of self oid))))).
Proof.
  intros Hwf Hl Hid self1 r. unfold r.
  rewrite (publish_object_data_known _ _ _ _ name oid) by done. fold self1.
  destruct (Hwf oid) as (Hrows & Hle & Hlt).
  destruct (buffers_wf_observed self oid frame detection Hwf oid) as [Hrows1 Hle1].
  fold self1 in Hrows1, Hle1.
  destruct (decide (oid ∈ published_objects self)) as [Hin|Hout].
  { rewrite bool_decide_eq_true_2, andb_false_r by done.
    split; [done |]. right. split; [by left |]. done. }
  specialize (Hlt Hout).
  assert (Hlen1 : length (buffer_of self1 oid) = S (length (buffer_of self oid))).
  { unfold self1. rewrite buffer_of_observed.
    destruct (deque_append_length (buffer_of self oid)
                (corner_vector frame detection) Hle) as [_ Happ].
    rewrite (Happ Hlt), length_app. simpl. lia. }
  rewrite bool_decide_eq_false_2 by done. cbn [negb]. rewrite andb_true_r.
  destruct (Nat.eqb_spec (length (buffer_of self1 oid)) 10) as [Hfull|Hnot].
  - rewrite reshape_mean_window; [| | done].
    2:{ intros Hnil. rewrite Hnil in Hfull. discriminate. }
    split; [done |]. left. split; [done |]. split; [lia |]. split; [| done].
    cbn [trace app]. by rewrite reports_for_own.
  - split; [done |]. right. split; [right; lia |]. done.
Qed.

Lemma feed_counts_observations (labels : list string) (object_id : Z)
    (inputs : list (Frame * Detection)) : ∀ self,
  buffers_wf self →
  Forall (fun fd => is_Some (labels !! label fd.2)) inputs →
  let r := feed labels inputs self in
  outcome r = Returns tt
  ∧ (object_id ∉ published_objects self →
     length (reports_for object_id (trace r))
     = if (10 <=? length (buffer_of self object_id)
                   + observations labels object_id inputs)%nat
       then 1%nat else 0%nat).
Proof.
  induction inputs as [|[frame detection] rest IH]; intros self Hwf Hres.
  - split; [done |]. intros Hout.
    change (observations labels object_id []) with 0%nat.
    destruct (Hwf object_id) as (_ & _ & Hlt). specialize (Hlt Hout).
    rewrite Nat.add_0_r.
    by destruct (Nat.leb_spec 10 (length (buffer_of self object_id))); [lia |].
  - apply Forall_cons in Hres as [[name Hl] Hres]. simpl in Hl.
    assert (Hcls : classified labels detection = object_id_of name).
    { unfold classified. by rewrite Hl. }
    assert (Hobs : observations labels object_id ((frame, detection) :: rest)
                   = if decide (object_id_of name = Some object_id)
                     then S (observations labels object_id rest)
                     else observations labels object_id rest).
    { unfold observations. rewrite filter_cons. cbn [snd]. rewrite Hcls.
      by destruct (decide _). }
    rewrite Hobs. clear Hobs. rewrite feed_cons.
    pose proof (buffers_wf_step labels self frame detection Hwf) as Hwf'.
    destruct (object_id_of name) as [oid|] eqn:Hid.
    2:{ rewrite (publish_object_data_unknown _ _ _ _ name) in * by done.
        cbn [trace final outcome] in *.
        destruct (IH self Hwf Hres) as [Hret Hcount]. split; [done |].
        intros Hout. rewrite reports_for_app. cbn [app].
        destruct (decide (None = Some object_id)) as [[=]|_].
        by apply Hcount. }
    destruct (publish_object_data_wf labels self frame detection name oid Hwf Hl Hid)
      as [Hret Hcases].
    pose proof (call_leaves_other_object labels self frame detection) as Hother.
    rewrite Hcls in Hother.
    set (r1 := publish_object_data labels frame detection self) in *.
    clearbody r1. destruct r1 as [t1 s1 o1]. cbn [trace final outcome] in *.
    subst o1. cbn [trace final outcome].
    destruct (IH s1 Hwf' Hres) as [Hret' Hcount]. split; [done |].
    intros Hout. rewrite reports_for_app, length_app.
    destruct (decide (Some oid = Some object_id)) as [[= ->]|Hne].
    + destruct Hcases as [(_ & Hnine & Hone & Hfin)
                         |([Hin|Hfew] & Htr & Hfin & Hlen)]; [| done |].
      * rewrite Hone, Hnine.
        destruct (feed_dedup labels rest s1 object_id) as [_ Hzero].
        cbn zeta in Hzero. rewrite bool_decide_eq_true_2 in Hzero.
        2:{ rewrite Hfin. simpl. apply elem_of_union_l. by apply elem_of_singleton. }
        destruct (Nat.leb_spec 10 (9 + S (observations labels object_id rest))); lia.
      * rewrite Htr. change (length (reports_for object_id [])) with 0%nat.
        rewrite Hcount by (by rewrite Hfin).
        rewrite Hfin, (Hlen Hout).
        by replace (S (length (buffer_of self object_id))
                    + observations labels object_id rest)%nat
          with (length (buffer_of self object_id)
                + S (observations labels object_id rest))%nat by lia.
    + destruct (Hother object_id) as (Hbuf & Hpub & Hnone); [congruence |].
      rewrite Hnone. cbn [length].
      rewrite Hcount by (by rewrite Hpub). by rewrite Hbuf.
Qed.

(** X7.  When every class index of the input resolves in [labels], the
    detection loop does not raise, and the number of reports it sends for
    an object id is one if at least ten of the detections are classified
    to that id and zero otherwise. *)
Theorem one_report_once_ten_observations
    (labels : list string) (inputs : list (Frame * Detection)) (object_id : Z) :
  Forall (fun fd => is_Some (labels !! label fd.2)) inputs →
  let r := feed labels inputs DepthaiCamera_init in
  outcome r = Returns tt
  ∧ length (reports_for object_id (trace r))
    = if (10 <=? observations labels object_id inputs)%nat then 1%nat else 0%nat.
Proof.
  intros Hres.
  destruct (feed_counts_observations labels object_id inputs DepthaiCamera_init)
    as [Hret Hcount]; [apply reachable_wf with labels, reachable_init | done |].
  split; [done |]. rewrite Hcount by apply not_elem_of_empty. reflexivity.
Qed.

Lemma one_report_once_ten_observations_witness :
  let labels := ["backpack"; "person"] in
  let inputs := replicate 12 (frame_416, centred_detection 0 0.9)
                  ++ replicate 3 (frame_416, centred_detection 1 0.8) in
  let r := feed labels inputs DepthaiCamera_init in
  outcome r = Returns tt
  ∧ length (reports_for 101 (trace r)) = 1%nat
  ∧ length (reports_for 102 (trace r)) = 0%nat.
Proof.
  intros labels inputs r.
  assert (Hres : Forall (fun fd => is_Some (labels !! label fd.2)) inputs).
  { repeat (constructor; [by eexists |]). constructor. }
  destruct (one_report_once_ten_observations labels inputs 101 Hres) as [Hret H101].
  destruct (one_report_once_ten_observations labels inputs 102 Hres) as [_ H102].
  split; [exact Hret |]. split; [exact H101 | exact H102].
Defined.

(** ** The buffer of a published id *)

Lemma last_n_deque_append {A} (d : list A) (x : A) (l : list A) :
  (length d ≤ 10)%nat →
  last_n 10 (deque_append 10 d x ++ l) = last_n 10 (d ++ x :: l).
Proof.
  intros Hd. unfold deque_append.
  destruct (Nat.ltb_spec (length d) 10) as [Hlt|Hge]; cbv iota.
  - by rewrite <- app_assoc.
  - assert (Hlen : length d = 10%nat) by lia.
    destruct d as [|y d]; [discriminate |].
    cbn [length] in Hlen. unfold last_n. cbn [app drop].
    rewrite !drop_0, !length_app. cbn [length]. rewrite length_app. cbn [length].
    replace (S (length d + S (length l)) - 10)%nat with (S (length l)) by lia.
    replace (length d + 1 + length l - 10)%nat with (length l) by lia.
    cbn [drop]. by rewrite <- app_assoc.
Qed.

(** X8.  Once an id is published its buffer is not released: detections
    classified to it are still appended, the deque dropping its oldest row
    when it holds ten, so that the buffer holds the last ten rows of what
    it held plus the new corner arrays; nothing is logged, published or
    announced, and [published_objects] stays as it is. *)
Theorem published_buffer_keeps_last_ten
    (labels : list string) (self : DepthaiCamera) (object_id : Z)
    (inputs : list (Frame * Detection)) :
  object_id ∈ published_objects self →
  (length (buffer_of self object_id) ≤ 10)%nat →
  Forall (fun fd => classified labels fd.2 = Some object_id) inputs →
  let r := feed labels inputs self in
  outcome r = Returns tt
  ∧ trace r = []
  ∧ published_objects (final r) = published_objects self
  ∧ buffer_of (final r) object_id
    = last_n 10 (buffer_of self object_id
                   ++ ((fun fd => corner_vector fd.1 fd.2) <$> inputs)).
Proof.
  revert self. induction inputs as [|[frame detection] rest IH];
    intros self Hin Hlen Hcls.
  - cbn [feed ret trace final outcome fmap list_fmap]. do 3 (split; [done |]).
    unfold last_n. rewrite app_nil_r.
    by replace (length _ - 10)%nat with 0%nat by lia.
  - apply Forall_cons in Hcls as [Hd Hrest]. unfold classified in Hd. cbn [snd] in Hd.
    destruct (labels !! label detection) as [name|] eqn:Hl; [| done].
    cbn [mbind option_bind] in Hd.
    rewrite feed_cons, (publish_object_data_known _ _ _ _ name object_id) by done.
    rewrite bool_decide_eq_true_2, andb_false_r by done. cbn [trace final outcome].
    set (self1 := observed self object_id (corner_vector frame detection)).
    assert (Hbuf1 : buffer_of self1 object_id
                    = deque_append 10 (buffer_of self object_id)
                        (corner_vector frame detection))
      by apply buffer_of_observed.
    destruct (IH self1) as (Hret & Htrace & Hpub & Hbuf); [done | | done |].
    { rewrite Hbuf1. by apply deque_append_length. }
    cbn zeta in Hret, Htrace, Hpub, Hbuf.
    do 2 (split; [done |]). split; [done |].
    rewrite Hbuf, Hbuf1. cbn [fmap list_fmap fst snd].
    by apply last_n_deque_append.
Qed.

Lemma published_buffer_keeps_last_ten_witness :
  let labels := ["backpack"; "person"] in
  let published := final (publish_object_data labels frame_416
                            (centred_detection 0 0.9) after_nine) in
  let inputs := replicate 12 (frame_416, centred_detection 0 0.9) in
  let r := feed labels inputs published in
  101 ∈ published_objects published
  ∧ trace r = []
  ∧ length (buffer_of (final r) 101) = 10%nat.
Proof.
  intros labels published inputs r.
  assert (Hin : 101 ∈ published_objects published).
  { apply (bool_decide_eq_true_1 (101 ∈ published_objects published)).
    vm_compute. reflexivity. }
  assert (Hlen : (length (buffer_of published 101) ≤ 10)%nat).
  { vm_compute. lia. }
  assert (Hcls : Forall (fun fd => classified labels fd.2 = Some 101) inputs).
  { repeat (constructor; [reflexivity |]). constructor. }
  destruct (published_buffer_keeps_last_ten labels published 101 inputs Hin Hlen Hcls)
    as (_ & Htrace & _ & Hbuf).
  split; [exact Hin |]. split; [exact Htrace |].
  fold r in Hbuf. rewrite Hbuf. vm_compute. reflexivity.
Defined.

(** ** The overlay *)

Section OverlayFacts.

Variable labels : list string.

Lemma show_yolo_resolved (frame : Frame) (detections : list Detection) :
  Forall (fun detection => is_Some (labels !! label detection)) detections →
  ∀ overlay, ∃ drawn,
    show_yolo labels frame detections overlay = Returns (overlay ++ drawn)
    ∧ length drawn = (3 * length detections)%nat
    ∧ Forall (rectangle_within frame) drawn.
Proof.
  induction 1 as [|detection rest [name Hl] _ IH]; intros overlay.
  - exists []. by rewrite app_nil_r.
  - cbn [show_yolo]. rewrite frameNorm_quad, Hl.
    destruct (IH (overlay ++
      [putText name
         (astype_int (np_clip01 (xmin detection) * inject_Z (Z.pos (shape1 frame))) + 10,
          astype_int (np_clip01 (ymin detection) * inject_Z (Z.pos (shape0 frame))) + 20)
         0.5 (class_colors_get (label detection));
       putText (pretty (astype_int (confidence detection * 100)) +:+ "%")
         (astype_int (np_clip01 (xmin detection) * inject_Z (Z.pos (shape1 frame))) + 10,
          astype_int (np_clip01 (ymin detection) * inject_Z (Z.pos (shape0 frame))) + 40)
         0.5 (class_colors_get (label detection));
       rectangle
         (astype_int (np_clip01 (xmin detection) * inject_Z (Z.pos (shape1 frame))),
          astype_int (np_clip01 (ymin detection) * inject_Z (Z.pos (shape0 frame))))
         (astype_int (np_clip01 (xmax detection) * inject_Z (Z.pos (shape1 frame))),
          astype_int (np_clip01 (ymax detection) * inject_Z (Z.pos (shape0 frame))))
         (class_colors_get (label detection)) 2]))
      as (drawn & -> & Hlen & Hin).
    eexists. rewrite <- app_assoc. split; [reflexivity |]. split.
    + rewrite length_app, Hlen. cbn [length]. lia.
    + apply Forall_app. split; [| done].
      repeat constructor; apply scaled_clip_range.
Qed.



End OverlayFacts.



(** ** The main loop *)

Lemma object_events_app evs1 evs2 :
  object_events (evs1 ++ evs2) = object_events evs1 ++ object_events evs2.
Proof. apply omap_app. Qed.





Lemma from_object_events (t : list event) :
  object_events (from_object <$> t) = t
  ∧ printed (from_object <$> t) = []
  ∧ images_published (from_object <$> t) = []
  ∧ overlays_published (from_object <$> t) = []
  ∧ camera_infos_published (from_object <$> t) = [].
Proof.
  induction t as [|e t (IH1 & IH2 & IH3 & IH4 & IH5)]; [done |].
  cbn [fmap list_fmap]. unfold object_events, printed, images_published,
    overlays_published, camera_infos_published in *.
  cbn [omap list_omap]. by rewrite IH1, IH2, IH3, IH4, IH5.
Qed.

Section LoopFacts.

Variable labels : list string.
Variable nn_shape_w nn_shape_h : Z.
Variable time_time : nat → Q.
Variable format_2f : Q → string.

#[local] Abbreviation turn :=
  (run_iteration labels nn_shape_w nn_shape_h time_time format_2f).
#[local] Abbreviation turns :=
  (run_loop labels nn_shape_w nn_shape_h time_time format_2f).

Lemma feed_returns_resolved (inputs : list (Frame * Detection)) : ∀ self,
  outcome (feed labels inputs self) = Returns tt →
  Forall (fun fd => is_Some (labels !! label fd.2)) inputs.
Proof.
  induction inputs as [|[frame detection] rest IH]; intros self Hret; [constructor |].
  rewrite feed_cons in Hret.
  destruct (labels !! label detection) as [name|] eqn:Hl.
  2:{ by rewrite publish_object_data_raises in Hret. }
  constructor; [by exists name |].
  destruct (publish_object_data labels frame detection self) as [t s [[]|e]];
    cbn [trace final outcome] in Hret; [by apply (IH s) | done].
Qed.

Lemma count_frame_run (s : Loop) :
  ∃ s', count_frame time_time s = Run [] s' (Returns tt) ∧ cam s' = cam s.
Proof.
  unfold count_frame, bind, modify, read_clock, get. cbn [trace final outcome app].
  destruct (negb (Qle_bool _ _)); cbn [trace final outcome app ret];
    by eexists.
Qed.

(** One turn with an image and detections. *)
Lemma run_iteration_complete (frame : Frame) (detections : list Detection) (s : Loop) :
  let r0 := feed labels ((fun detection => (frame, detection)) <$> detections) (cam s) in
  let r := turn (Some frame) (Some detections) s in
  match outcome r0 with
  | Raises e =>
      r = Run (from_object <$> trace r0)
            {| cam := final r0; counter := counter s; fps := fps s;
               start_time := start_time s; clock := clock s |}
            (Raises e)
  | Returns _ =>
      ∃ drawn s',
        length drawn = (3 * length detections)%nat
        ∧ Forall (rectangle_within frame) drawn
        ∧ cam s' = final r0
        ∧ r = Run ((from_object <$> trace r0) ++
                   [pub_image_publish frame;
                    pub_image_raw_publish frame;
                    pub_image_detect_publish frame
                      (drawn ++
                       [putText ("NN fps: " +:+ format_2f (fps s))
                          (2, Z.pos (shape0 frame) - 4) 0.4 (0, 255, 0);
                        putText "Found classes []" (2, 10) 0.4 (0, 255, 0)]);
                    pub_cam_inf_publish (camera_info_msg nn_shape_w nn_shape_h)])
                s' (Returns tt)
  end.
Proof.
  intros r0 r. unfold r, run_iteration. rewrite bind_run.
  unfold on_camera. fold r0. cbn [trace final outcome].
  pose proof (feed_returns_resolved
                ((fun detection => (frame, detection)) <$> detections) (cam s)) as Hres.
  fold r0 in Hres.
  destruct (outcome r0) as [[]|e]; [| done].
  specialize (Hres eq_refl).
  assert (Hres' : Forall (fun detection => is_Some (labels !! label detection))
                    detections).
  { apply (proj1 (Forall_fmap _ _ _)) in Hres. exact Hres. }
  destruct (show_yolo_resolved labels frame detections Hres' [])
    as (drawn & -> & Hlen & Hin).
  cbn [app].
  set (s1 := {| cam := final r0; counter := counter s; fps := fps s;
                start_time := start_time s; clock := clock s |}).
  destruct (count_frame_run s1) as (s' & Hcount & Hcam).
  exists drawn, s'. split; [done |]. split; [done |]. split; [done |].
  unfold bind, get, publish_to_ros, publish_detect_to_ros, publish_camera_info, emit.
  unfold bind. cbn [trace final outcome]. rewrite Hcount. reflexivity.
Qed.

End LoopFacts.

Section LoopTheorems.

Variable labels : list string.
Variable nn_shape_w nn_shape_h : Z.
Variable time_time : nat → Q.
Variable format_2f : Q → string.

#[local] Abbreviation turn :=
  (run_iteration labels nn_shape_w nn_shape_h time_time format_2f).
#[local] Abbreviation turns :=
  (run_loop labels nn_shape_w nn_shape_h time_time format_2f).

Lemma run_loop_cons inRgb inDet rest s :
  turns ((inRgb, inDet) :: rest) s =
    match outcome (turn inRgb inDet s) with
    | Returns _ =>
        Run (trace (turn inRgb inDet s) ++ trace (turns rest (final (turn inRgb inDet s))))
            (final (turns rest (final (turn inRgb inDet s))))
            (outcome (turns rest (final (turn inRgb inDet s))))
    | Raises e => Run (trace (turn inRgb inDet s)) (final (turn inRgb inDet s)) (Raises e)
    end.
Proof. cbn [run_loop]. by rewrite bind_run. Qed.

Lemma run_loop_feeds (messages : list (option Frame * option (list Detection))) :
  ∀ s,
    let r := turns messages s in
    let r0 := feed labels (detections_in_order messages) (cam s) in
    object_events (trace r) = trace r0
    ∧ cam (final r) = final r0
    ∧ outcome r = outcome r0.
Proof.
  induction messages as [|[[frame|] [detections|]] rest IH]; intros s; [done | | | |].
  - rewrite run_loop_cons.
    change (detections_in_order ((Some frame, Some detections) :: rest))
      with (((fun detection => (frame, detection)) <$> detections)
              ++ detections_in_order rest).
    rewrite feed_app, bind_run.
    pose proof (run_iteration_complete labels nn_shape_w nn_shape_h time_time
                  format_2f frame detections s) as Hturn.
    cbn zeta in Hturn.
    destruct (outcome (feed labels _ (cam s))) as [[]|e].
    + destruct Hturn as (drawn & s' & _ & _ & Hcam & ->). cbn [trace final outcome].
      destruct (IH s') as (Hev & Hfin & Hout). cbn zeta in Hev, Hfin, Hout.
      rewrite Hcam in Hev, Hfin, Hout.
      rewrite !object_events_app, Hev.
      destruct (from_object_events (trace (feed labels
        ((fun detection => (frame, detection)) <$> detections) (cam s)))) as [-> _].
      split; [| done]. cbn [object_events omap list_omap]. by rewrite app_nil_r.
    + rewrite Hturn. cbn [trace final outcome cam].
      by destruct (from_object_events (trace (feed labels
        ((fun detection => (frame, detection)) <$> detections) (cam s)))) as [-> _].
  - rewrite run_loop_cons. cbn [run_iteration emit trace final outcome].
    rewrite object_events_app. apply (IH s).
  - rewrite run_loop_cons. cbn [run_iteration emit trace final outcome].
    rewrite object_events_app. apply (IH s).
  - rewrite run_loop_cons. cbn [run_iteration emit trace final outcome].
    rewrite object_events_app. apply (IH s).
Qed.


End LoopTheorems.

(** X10.  The loop of [run] hands the detections of the turns that
    received both an image and detections to [publish_object_data], each
    with its turn's frame, in order: what the node reports, logs and
    announces over a run of queue messages, the fields it ends with, and
    whether and how the loop ends in an exception, are those of the
    detection loop on these detections. *)
Theorem run_loop_feeds_detections_in_order
    (labels : list string) (nn_shape_w nn_shape_h : Z)
    (time_time : nat → Q) (format_2f : Q → string)
    (messages : list (option Frame * option (list Detection))) (s : Loop) :
  let r := run_loop labels nn_shape_w nn_shape_h time_time format_2f messages s in
  let r0 := feed labels (detections_in_order messages) (cam s) in
  object_events (trace r) = trace r0
  ∧ cam (final r) = final r0
  ∧ outcome r = outcome r0.
Proof. apply run_loop_feeds. Qed.



(** X12.  A turn in which some detection has a class index outside
    [labels] ends in an exception before anything is published for its
    frame: no image, no overlay, no camera information, and the frame is
    not counted. *)
Theorem failing_turn_publishes_nothing
    (labels : list string) (nn_shape_w nn_shape_h : Z)
    (time_time : nat → Q) (format_2f : Q → string)
    (frame : Frame) (detections : list Detection) (s : Loop) :
  Exists (fun detection => labels !! label detection = None) detections →
  let r := run_iteration labels nn_shape_w nn_shape_h time_time format_2f
             (Some frame) (Some detections) s in
  (∃ e, outcome r = Raises e)
  ∧ images_published (trace r) = []
  ∧ overlays_published (trace r) = []
  ∧ camera_infos_published (trace r) = []
  ∧ counter (final r) = counter s.
Proof.
  intros Hex.
  pose proof (run_iteration_complete labels nn_shape_w nn_shape_h time_time
                format_2f frame detections s) as Hturn.
  pose proof (feed_returns_resolved labels
                ((fun detection => (frame, detection)) <$> detections) (cam s)) as Hres.
  cbn zeta in Hturn |- *.
  destruct (from_object_events (trace (feed labels
    ((fun detection => (frame, detection)) <$> detections) (cam s))))
    as (_ & _ & Him & Hov & Hci).
  destruct (outcome (feed labels _ (cam s))) as [[]|e].
  - exfalso. specialize (Hres eq_refl).
    apply (proj1 (Forall_fmap _ _ _)) in Hres.
    apply Exists_exists in Hex as (detection & Hin & Hnone).
    apply (proj1 (Forall_forall _ _)) with (x := detection) in Hres; [| done].
    cbn in Hres. rewrite Hnone in Hres. by destruct Hres.
  - rewrite Hturn. cbn [trace final outcome counter]. split; [by exists e | done].
Qed.

Lemma failing_turn_publishes_nothing_witness :
  let labels := ["backpack"; "person"] in
  let detections := [centred_detection 0 0.9; centred_detection 5 0.9] in
  let s := {| cam := after_nine; counter := 3; fps := 0; start_time := 0; clock := 0 |} in
  let r := run_iteration labels 416 416 (fun n => inject_Z (Z.of_nat n))
             (fun _ => "0.00") (Some frame_416) (Some detections) s in
  (∃ e, outcome r = Raises e)
  ∧ images_published (trace r) = []
  ∧ overlays_published (trace r) = []
  ∧ camera_infos_published (trace r) = []
  ∧ counter (final r) = 3.
Proof.
  intros labels detections s r.
  apply (failing_turn_publishes_nothing labels 416 416
           (fun n => inject_Z (Z.of_nat n)) (fun _ => "0.00") frame_416 detections s).
  right. by left.
Defined.

(** * Properties of the marker node *)

Module ArucoFacts.

Import Aruco.

Section Blocks.

(** The blocks of [find_aruco] respect every relation that log lines and
    drawing, the recording of a marker id and a [put] respect. *)
Variable R : ArucoDetector → list event → ArucoDetector → Prop.
Hypothesis R_refl : ∀ s, R s [] s.
Hypothesis R_trans : ∀ s t s' t' s'', R s t s' → R s' t' s'' → R s (t ++ t') s''.
Hypothesis R_log : ∀ s e, is_output e = false → R s [e] s.

Lemma respects_self_attr (name : string) : respects R (self_attr name).
Proof using R_refl.
  unfold self_attr. destruct (bool_decide _); [apply respects_ret | apply respects_raise];
    done.
Qed.

Lemma respects_cv2_attr (name : string) : respects R (cv2_attr name).
Proof using R_refl.
  unfold cv2_attr. destruct (bool_decide _); [apply respects_ret | apply respects_raise];
    done.
Qed.

Lemma respects_log (e : event) : is_output e = false → respects R (emit e).
Proof using R_log. intros He. apply respects_emit. intros s. by apply R_log. Qed.

Lemma respects_draw_marker marker_corner marker_ID :
  respects R (draw_marker marker_corner marker_ID).
Proof using R_refl R_trans R_log.
  unfold draw_marker.
  apply respects_bind; [done | by apply respects_reshape | intros corners].
  apply respects_bind; [done | by apply respects_unpack4 | intros [[[tl tr] br] bl]].
  do 4 (apply respects_bind; [done | by apply respects_int_point | intros ?]).
  do 6 (apply respects_bind; [done | by apply respects_log | intros _]).
  by apply respects_ret.
Qed.

Section PoseBlocks.

Variable solvePnP : list vec3 → ndarray → bool * vec3 * vec3.
Variable quaternion_from_euler : Q → Q → Q → Q * Q * Q * Q.
Variable str_vec : vec3 → string.

Lemma respects_estimate_pose corners :
  respects R (estimate_pose solvePnP quaternion_from_euler str_vec corners).
Proof using R_refl R_trans R_log.
  unfold estimate_pose.
  apply respects_bind; [done | by apply respects_first_item | intros corner0].
  apply respects_bind; [done | by apply respects_reshape | intros image_points].
  apply respects_bind; [done | by apply respects_cv2_attr | intros _].
  do 2 (apply respects_bind; [done | by apply respects_self_attr | intros _]).
  destruct (solvePnP _ image_points) as [[[] [[r0 r1] r2]] tvec].
  - do 3 (apply respects_bind; [done | by apply respects_log | intros _]).
    by apply respects_ret.
  - by apply respects_ret.
Qed.

End PoseBlocks.

End Blocks.

(** Line 139 never sends: reading [self.tfbr] raises first. *)
Lemma send_pose_run (msg_out : option TransformStamped) (s : ArucoDetector) :
  send_pose msg_out s = Run [] s (Raises (AttributeError "tfbr")).
Proof. reflexivity. Qed.

(** Line 118 never solves: reading [cv2.solvePnp] raises first. *)
Lemma cv2_attr_solvePnp (s : ArucoDetector) :
  @cv2_attr ArucoDetector event "solvePnp" s
  = Run [] s (Raises (AttributeError "solvePnp")).
Proof. reflexivity. Qed.

(** The last statement of [__init__] raises as well. *)
Lemma init_line_53_run (s : ArucoDetector) :
  init_line_53 s = Run [] s (Raises (AttributeError "pose_sub_topic")).
Proof. reflexivity. Qed.

Section Callback.

Variable solvePnP : list vec3 → ndarray → bool * vec3 * vec3.
Variable quaternion_from_euler : Q → Q → Q → Q * Q * Q * Q.
Variable str_vec : vec3 → string.

#[local] Abbreviation find_aruco := (find_aruco solvePnP quaternion_from_euler str_vec).
#[local] Abbreviation img_callback := (img_callback solvePnP quaternion_from_euler str_vec).
#[local] Abbreviation spin := (spin solvePnP quaternion_from_euler str_vec).

Lemma find_aruco_raises (frame : Frame) : always_raises (find_aruco frame).
Proof.
  apply always_raises_bind_r. intros msg_out s.
  exists (AttributeError "tfbr"). by rewrite send_pose_run.
Qed.

Section FindArucoRespects.

Variable R : ArucoDetector → list event → ArucoDetector → Prop.
Hypothesis R_refl : ∀ s, R s [] s.
Hypothesis R_trans : ∀ s t s' t' s'', R s t s' → R s' t' s'' → R s (t ++ t') s''.
Hypothesis R_log : ∀ s e, is_output e = false → R s [e] s.
Hypothesis R_put : ∀ s batch, R s [speech_queue_put batch] s.
Hypothesis R_add :
  ∀ s marker_ID,
    R s [] {| detected_marker_ids := {[marker_ID]} ∪ detected_marker_ids s |}.

Lemma respects_note_marker marker_ID new_ids :
  respects R (note_marker marker_ID new_ids).
Proof using R_refl R_trans R_add.
  unfold note_marker.
  apply respects_bind; [done | by apply respects_get | intros self].
  destruct (bool_decide _); [by apply respects_ret |].
  apply respects_bind; [done | | intros _; by apply respects_ret].
  apply respects_modify. intros s. apply R_add.
Qed.

Lemma respects_marker_loop_body item locals :
  respects R (marker_loop_body item locals).
Proof using R_refl R_trans R_log R_add.
  unfold marker_loop_body.
  apply respects_bind; [done | by apply respects_draw_marker | intros corners].
  apply respects_bind; [done | apply respects_note_marker | intros new_ids].
  by apply respects_ret.
Qed.

Lemma respects_queue_new_ids new_ids : respects R (queue_new_ids new_ids).
Proof using R_refl R_trans R_log R_put.
  destruct new_ids as [|x rest]; simpl; [by apply respects_ret |].
  apply respects_bind; [done | | intros _; by apply respects_log].
  apply respects_emit. intros s. apply R_put.
Qed.

Lemma respects_find_aruco frame : respects R (find_aruco frame).
Proof using R_refl R_trans R_log R_put R_add.
  unfold Aruco.find_aruco. apply respects_bind; [done | |].
  - destruct (_ <? _)%nat; [| by apply respects_ret].
    apply respects_bind; [done | | intros locals].
    + apply respects_for_each; [done | done |].
      intros item locals. apply respects_marker_loop_body.
    + apply respects_bind; [done | apply respects_queue_new_ids | intros _].
      by apply respects_estimate_pose.
  - intros msg_out s. rewrite send_pose_run. apply R_refl.
Qed.

End FindArucoRespects.

Lemma poses_app evs1 evs2 : poses (evs1 ++ evs2) = poses evs1 ++ poses evs2.
Proof. apply omap_app. Qed.

Lemma images_app evs1 evs2 : images (evs1 ++ evs2) = images evs1 ++ images evs2.
Proof. apply omap_app. Qed.

Lemma queued_app evs1 evs2 : queued (evs1 ++ evs2) = queued evs1 ++ queued evs2.
Proof. apply omap_app. Qed.

Lemma find_aruco_no_pose frame s : poses (trace (find_aruco frame s)) = [].
Proof.
  apply (respects_find_aruco (fun _ t _ => poses t = [])); try done.
  - intros _ t _ t' _ Ht Ht'. by rewrite poses_app, Ht, Ht'.
  - by intros _ [].
Qed.

Lemma find_aruco_no_image frame s : images (trace (find_aruco frame s)) = [].
Proof.
  apply (respects_find_aruco (fun _ t _ => images t = [])); try done.
  - intros _ t _ t' _ Ht Ht'. by rewrite images_app, Ht, Ht'.
  - by intros _ [].
Qed.

(** The callback raises on every message, before [publish_to_ros]. *)
Lemma img_callback_run msg_in s :
  let r := img_callback msg_in s in
  (∃ e, outcome r = Raises e) ∧ images (trace r) = [] ∧ poses (trace r) = [].
Proof.
  destruct msg_in as [frame|text]; simpl.
  - destruct (bind_always_raises (find_aruco frame) (fun _ => publish_to_ros) s
                (find_aruco_raises frame)) as [-> _].
    split; [| split].
    + apply always_raises_bind_l, find_aruco_raises.
    + apply find_aruco_no_image.
    + apply find_aruco_no_pose.
  - split; [by eexists | done].
Qed.

Lemma spin_no_pose messages : ∀ s, poses (spin messages s).1 = [].
Proof.
  induction messages as [|msg_in rest IH]; intros s; simpl; [done |].
  specialize (IH (final (img_callback msg_in s))).
  destruct (Aruco.spin _ _ _ rest _) as [evs s']. simpl in *.
  rewrite poses_app, IH.
  by destruct (img_callback_run msg_in s) as (_ & _ & ->).
Qed.

(** The solver has no say in what [find_aruco] does. *)
Lemma estimate_pose_run corners s :
  estimate_pose solvePnP quaternion_from_euler str_vec corners s =
    (let* corner0 := first_item corners in
     let* image_points := reshape corner0 [4; 2]%nat in
     raise (AttributeError "solvePnp"))%py s.
Proof.
  unfold estimate_pose, bind.
  destruct (first_item corners s) as [t s' [corner0|e]]; [| done].
  destruct (reshape corner0 [4; 2]%nat s') as [t' s'' [image_points|e]]; done.
Qed.

End Callback.

(** C6, the code against the claim.  [find_aruco] sends no pose at all:
    every call raises before line 139 can send, so no sequence of messages
    makes the node emit a MarkerPose.  In particular two frames showing
    marker 7 at different corners each raise [ValueError] at line 115,
    where the local [corners], rebound by the loop to a (4, 2) array, is
    indexed and reshaped, and leave the pose channel empty. *)
Theorem no_pose_is_ever_sent
    (solvePnP : list vec3 → ndarray → bool * vec3 * vec3)
    (quaternion_from_euler : Q → Q → Q → Q * Q * Q * Q)
    (str_vec : vec3 → string) :
  (∀ frame self,
     let r := find_aruco solvePnP quaternion_from_euler str_vec frame self in
     poses (trace r) = [] ∧ ∃ e, outcome r = Raises e)
  ∧ (∀ messages self,
       poses (spin solvePnP quaternion_from_euler str_vec messages self).1 = [])
  ∧ (let frame1 := one_marker 7 (10, 10)%Q (110, 10)%Q (110, 110)%Q (10, 110)%Q in
     let frame2 := one_marker 7 (40, 20)%Q (140, 20)%Q (140, 120)%Q (40, 120)%Q in
     let r1 := find_aruco solvePnP quaternion_from_euler str_vec frame1
                 ArucoDetector_init in
     let r2 := find_aruco solvePnP quaternion_from_euler str_vec frame2 (final r1) in
     outcome r1 = Raises ValueError ∧ outcome r2 = Raises ValueError
     ∧ poses (trace r1 ++ trace r2) = []).
Proof.
  split; [| split].
  - intros frame self. split; [apply find_aruco_no_pose | apply find_aruco_raises].
  - intros messages self. apply spin_no_pose.
  - vm_compute. done.
Qed.

(** C7, the code against the claim.  The callback raises on every message
    and never reaches [publish_to_ros], so the processing of the frame is
    aborted whether or not a pose could be solved.  On a frame showing a
    marker with four collinear corners the exception is the [ValueError]
    of line 115; the solver is not consulted, whatever it would answer. *)
Theorem callback_is_aborted
    (solvePnP : list vec3 → ndarray → bool * vec3 * vec3)
    (quaternion_from_euler : Q → Q → Q → Q * Q * Q * Q)
    (str_vec : vec3 → string) :
  (∀ msg_in self,
     let r := img_callback solvePnP quaternion_from_euler str_vec msg_in self in
     (∃ e, outcome r = Raises e) ∧ images (trace r) = [] ∧ poses (trace r) = [])
  ∧ (let frame := one_marker 5 (0, 0)%Q (10, 0)%Q (20, 0)%Q (30, 0)%Q in
     let r := img_callback solvePnP quaternion_from_euler str_vec (Decoded frame)
                ArucoDetector_init in
     outcome r = Raises ValueError ∧ images (trace r) = []).
Proof.
  split.
  - intros msg_in self. apply img_callback_run.
  - vm_compute. done.
Qed.

(** ** First sightings *)

Lemma queued_once_refl s : queued_once s [] s.
Proof. split; [done |]. split; [constructor | by intros x ?%elem_of_nil]. Qed.

Lemma queued_once_trans s t s' t' s'' :
  queued_once s t s' → queued_once s' t' s'' → queued_once s (t ++ t') s''.
Proof.
  intros (Hsub & Hnd & Hin) (Hsub' & Hnd' & Hin').
  split; [by etrans |]. rewrite queued_app, concat_app. split.
  - apply NoDup_app. split; [done |]. split; [| done].
    intros x Hx Hx'. destruct (Hin x Hx) as [_ Hs']. destruct (Hin' x Hx') as [Hn _].
    done.
  - intros x [Hx|Hx]%elem_of_app.
    + destruct (Hin x Hx) as [Hn Hs']. split; [done | by apply Hsub'].
    + destruct (Hin' x Hx) as [Hn Hs'']. split; [| done].
      intros Hs. apply Hn. by apply Hsub.
Qed.

Lemma note_marker_new self marker_ID new_ids :
  marker_ID ∉ detected_marker_ids self →
  note_marker marker_ID new_ids self
  = Run [] {| detected_marker_ids := {[marker_ID]} ∪ detected_marker_ids self |}
        (Returns (new_ids ++ [marker_ID])).
Proof.
  intros Hnew. unfold note_marker, bind, get. simpl.
  by rewrite bool_decide_eq_false_2.
Qed.

Lemma note_marker_seen self marker_ID new_ids :
  marker_ID ∈ detected_marker_ids self →
  note_marker marker_ID new_ids self = Run [] self (Returns new_ids).
Proof.
  intros Hseen. unfold note_marker, bind, get. simpl.
  by rewrite bool_decide_eq_true_2.
Qed.

Lemma untouched_trans s t s' t' s'' :
  untouched s t s' → untouched s' t' s'' → untouched s (t ++ t') s''.
Proof. intros [-> Ht] [-> Ht']. split; [done |]. by rewrite queued_app, Ht, Ht'. Qed.

Lemma untouched_log s e : is_output e = false → untouched s [e] s.
Proof. by destruct e. Qed.

Lemma draw_marker_untouched marker_corner marker_ID s :
  untouched s (trace (draw_marker marker_corner marker_ID s))
    (final (draw_marker marker_corner marker_ID s)).
Proof.
  apply (respects_draw_marker untouched); [done | apply untouched_trans | apply untouched_log].
Qed.

Lemma queue_new_ids_run new_ids s :
  final (queue_new_ids new_ids s) = s
  ∧ concat (queued (trace (queue_new_ids new_ids s))) = new_ids.
Proof.
  destruct new_ids as [|x rest]; [done |]. simpl. by rewrite app_nil_r.
Qed.

Section FirstSighting.

Variable solvePnP : list vec3 → ndarray → bool * vec3 * vec3.
Variable quaternion_from_euler : Q → Q → Q → Q * Q * Q * Q.
Variable str_vec : vec3 → string.

Lemma estimate_pose_untouched corners s :
  let r := estimate_pose solvePnP quaternion_from_euler str_vec corners s in
  untouched s (trace r) (final r).
Proof.
  apply (respects_estimate_pose untouched);
    [done | apply untouched_trans | apply untouched_log].
Qed.

(** One turn of the loop: it raises while drawing, or finds the id seen,
    or records it and appends it to [new_ids]. *)
Lemma marker_loop_body_run item corners new_ids s :
  let r := marker_loop_body item (corners, new_ids) s in
  queued (trace r) = []
  ∧ ((∃ e, outcome r = Raises e ∧ final r = s)
     ∨ (∃ corners', outcome r = Returns (corners', new_ids)
          ∧ final r = s ∧ item.2 ∈ detected_marker_ids s)
     ∨ (∃ corners', outcome r = Returns (corners', new_ids ++ [item.2])
          ∧ (item.2 ∉ detected_marker_ids s)
          ∧ final r = {| detected_marker_ids := {[item.2]} ∪ detected_marker_ids s |})).
Proof.
  unfold marker_loop_body. rewrite bind_run.
  destruct (draw_marker_untouched item.1 item.2 s) as [Hfinal Hquiet].
  destruct (outcome (draw_marker item.1 item.2 s)) as [corners'|e]; simpl.
  2:{ split; [done |]. left. by exists e. }
  rewrite Hfinal, bind_run. simpl.
  destruct (decide (item.2 ∈ detected_marker_ids s)) as [Hseen|Hnew].
  - rewrite note_marker_seen by done. simpl. rewrite app_nil_r, Hquiet.
    split; [done |]. right; left. by exists (Array corners').
  - rewrite note_marker_new by done. simpl. rewrite app_nil_r, Hquiet.
    split; [done |]. right; right. by exists (Array corners').
Qed.

Lemma marker_loop_new_ids items : ∀ corners new_ids s,
  let r := for_each items marker_loop_body (corners, new_ids) s in
  queued (trace r) = []
  ∧ detected_marker_ids s ⊆ detected_marker_ids (final r)
  ∧ ∀ corners' new_ids', outcome r = Returns (corners', new_ids') →
      ∃ added, new_ids' = new_ids ++ added ∧ NoDup added
        ∧ ∀ x, x ∈ added →
               (x ∉ detected_marker_ids s) ∧ x ∈ detected_marker_ids (final r).
Proof.
  induction items as [|item rest IH]; intros corners new_ids s.
  - simpl. split; [done |]. split; [done |]. intros ?? [= <- <-].
    exists []. rewrite app_nil_r. split; [done |].
    split; [constructor | by intros x ?%elem_of_nil].
  - cbn [for_each]. rewrite bind_run.
    destruct (marker_loop_body_run item corners new_ids s) as [Hquiet Hcases].
    destruct Hcases as [(e & -> & Hs) | [(c1 & -> & Hs & Hseen) | (c1 & -> & Hnew & Hs)]];
      simpl.
    + rewrite Hs. split; [done |]. split; [done |]. by intros ?? [=].
    + rewrite Hs. destruct (IH c1 new_ids s) as (Hq & Hsub & Hret).
      rewrite queued_app, Hquiet, Hq. split; [done |]. split; [done |]. exact Hret.
    + rewrite Hs.
      set (s1 := {| detected_marker_ids := {[item.2]} ∪ detected_marker_ids s |}).
      destruct (IH c1 (new_ids ++ [item.2]) s1) as (Hq & Hsub & Hret).
      rewrite queued_app, Hquiet, Hq. split; [done |].
      split; [etrans; [| exact Hsub]; simpl; apply union_subseteq_r |].
      intros c' ids' Hout. destruct (Hret c' ids' Hout) as (added & -> & Hnd & Hin).
      exists (item.2 :: added). rewrite <- app_assoc. split; [done |]. split.
      * constructor; [| done]. intros Hx. destruct (Hin _ Hx) as [Hn _].
        apply Hn. simpl. apply elem_of_union_l. by apply elem_of_singleton.
      * intros x [->|Hx]%elem_of_cons.
        -- split; [done |]. apply Hsub. simpl.
           apply elem_of_union_l. by apply elem_of_singleton.
        -- destruct (Hin x Hx) as [Hn Hfin]. split; [| done].
           intros Hx'. apply Hn. simpl. by apply elem_of_union_r.
Qed.

(** One call of [find_aruco]: what it queues was unseen before the call
    and is seen after it, without repetition. *)
Lemma find_aruco_queued_once frame s :
  let r := find_aruco solvePnP quaternion_from_euler str_vec frame s in
  queued_once s (trace r) (final r).
Proof.
  unfold find_aruco. rewrite bind_run.
  assert (Hsend : ∀ (o : completion (option TransformStamped)) t s',
    queued_once s t s' →
    queued_once s
      (trace match o with
             | Returns a => Run (t ++ trace (send_pose a s')) (final (send_pose a s'))
                              (outcome (send_pose a s'))
             | Raises e => Run t s' (Raises e)
             end)
      (final match o with
             | Returns a => Run (t ++ trace (send_pose a s')) (final (send_pose a s'))
                              (outcome (send_pose a s'))
             | Raises e => Run t s' (Raises e)
             end)).
  { intros [a|e] t s' H; simpl; [| done]. by rewrite app_nil_r. }
  apply Hsend. clear Hsend.
  destruct (0 <? length (marker_corners frame))%nat; [| apply queued_once_refl].
  rewrite bind_run.
  destruct (marker_loop_new_ids (zip (marker_corners frame) (marker_ids frame))
              (Tuple (marker_corners frame)) [] s) as (Hq & Hsub & Hret).
  set (r := for_each _ _ _ s) in *.
  destruct (outcome r) as [[corners' new_ids']|e] eqn:Hout; simpl.
  2:{ split; [done |]. rewrite Hq. split; [constructor | by intros x ?%elem_of_nil]. }
  destruct (Hret corners' new_ids' eq_refl) as (added & -> & Hnd & Hin).
  simpl in *. rewrite bind_run.
  destruct (queue_new_ids_run added (final r)) as [Hfin Hbatch].
  destruct (estimate_pose_untouched corners' (final r)) as [Hfin' Hquiet].
  simpl in Hfin', Hquiet.
  assert (Hcat : ∀ t, queued t = [] →
            concat (queued (trace r ++ trace (queue_new_ids added (final r)) ++ t))
            = added).
  { intros t Ht. rewrite !queued_app, Hq, Ht, app_nil_r. exact Hbatch. }
  destruct (outcome (queue_new_ids added (final r))) as [[]|e]; simpl.
  - rewrite Hfin, Hfin'. split; [done |]. rewrite (Hcat _ Hquiet). done.
  - rewrite Hfin. split; [done |].
    rewrite <- (app_nil_r (trace (queue_new_ids added (final r)))).
    rewrite (Hcat [] eq_refl). done.
Qed.

Lemma img_callback_queued_once msg_in s :
  let r := img_callback solvePnP quaternion_from_euler str_vec msg_in s in
  queued_once s (trace r) (final r).
Proof.
  destruct msg_in as [frame|text]; simpl.
  - destruct (bind_always_raises
                (find_aruco solvePnP quaternion_from_euler str_vec frame)
                (fun _ => publish_to_ros) s
                (find_aruco_raises solvePnP quaternion_from_euler str_vec frame))
      as [-> ->].
    apply find_aruco_queued_once.
  - apply queued_once_refl.
Qed.

Lemma spin_queued_once messages : ∀ s,
  queued_once s (spin solvePnP quaternion_from_euler str_vec messages s).1
    (spin solvePnP quaternion_from_euler str_vec messages s).2.
Proof.
  induction messages as [|msg_in rest IH]; intros s; simpl.
  - apply queued_once_refl.
  - specialize (IH (final (img_callback solvePnP quaternion_from_euler str_vec
                             msg_in s))).
    destruct (spin _ _ _ rest _) as [evs s']. simpl in *.
    eapply queued_once_trans; [apply img_callback_queued_once | exact IH].
Qed.

End FirstSighting.

(** C8.  The first-sighting check of lines 95 to 97 records an unseen
    marker id and appends it to the frame's batch, and leaves the set and
    the batch alone for an id already seen.  Over any sequence of messages
    the set of seen ids only grows, so a recorded id is found seen by every
    later check; and the ids put on the speech queue are pairwise distinct,
    each unseen before and seen after: no id is queued twice. *)
Theorem first_sighting_queues_once
    (solvePnP : list vec3 → ndarray → bool * vec3 * vec3)
    (quaternion_from_euler : Q → Q → Q → Q * Q * Q * Q)
    (str_vec : vec3 → string) :
  (∀ self marker_ID new_ids,
     marker_ID ∉ detected_marker_ids self →
     note_marker marker_ID new_ids self
     = Run [] {| detected_marker_ids := {[marker_ID]} ∪ detected_marker_ids self |}
           (Returns (new_ids ++ [marker_ID])))
  ∧ (∀ self marker_ID new_ids,
       marker_ID ∈ detected_marker_ids self →
       note_marker marker_ID new_ids self = Run [] self (Returns new_ids))
  ∧ (∀ messages self,
       let r := spin solvePnP quaternion_from_euler str_vec messages self in
       detected_marker_ids self ⊆ detected_marker_ids r.2
       ∧ NoDup (concat (queued r.1))
       ∧ ∀ x, x ∈ concat (queued r.1) →
              (x ∉ detected_marker_ids self) ∧ x ∈ detected_marker_ids r.2).
Proof.
  split; [| split].
  - intros self marker_ID new_ids. apply note_marker_new.
  - intros self marker_ID new_ids. apply note_marker_seen.
  - intros messages self. apply spin_queued_once.
Qed.

Lemma first_sighting_queues_once_witness :
  let seen_7 := {| detected_marker_ids := {[7]} ∪ ∅ |} in
  (7 ∉ detected_marker_ids ArucoDetector_init)
  ∧ note_marker 7 [] ArucoDetector_init = Run [] seen_7 (Returns [7])
  ∧ 7 ∈ detected_marker_ids seen_7
  ∧ note_marker 7 [] seen_7 = Run [] seen_7 (Returns []).
Proof.
  intros seen_7.
  destruct (first_sighting_queues_once
              (fun _ _ => (false, (0, 0, 0), (0, 0, 0))%Q)
              (fun _ _ _ => (0, 0, 0, 1)%Q)
              (fun _ => "")) as (Hnew & Hseen & _).
  assert (H0 : 7 ∉ detected_marker_ids ArucoDetector_init)
    by apply not_elem_of_empty.
  assert (H1 : 7 ∈ detected_marker_ids seen_7)
    by (apply elem_of_union_l, elem_of_singleton; reflexivity).
  split; [exact H0 |]. split; [exact (Hnew ArucoDetector_init 7 [] H0) |].
  split; [exact H1 | exact (Hseen seen_7 7 [] H1)].
Defined.

End ArucoFacts.

(** * Further properties of the marker node *)

Module ArucoFurther.

Import Aruco.

(** ** The constructor *)

Lemma read_known name attrs :
  name ∈ class_attributes ++ methods ++ attrs →
  read name attrs = Run [] attrs (Returns tt).
Proof. intros H. unfold read, bind, get. by rewrite bool_decide_eq_true_2. Qed.

Lemma read_unknown name attrs :
  name ∉ class_attributes ++ methods ++ attrs →
  read name attrs = Run [] attrs (Raises (AttributeError name)).
Proof. intros H. unfold read, bind, get. by rewrite bool_decide_eq_false_2. Qed.

Lemma bind_emit {St Ev B} (e : Ev) (k : unit → Py St Ev B) (s : St) :
  bind (emit e) k s = match k tt s with Run t s' o => Run (e :: t) s' o end.
Proof. reflexivity. Qed.

Lemma bind_assign {B} name (k : unit → Py (list string) init_event B) attrs :
  bind (assign name) k attrs = k tt (attrs ++ [name]).
Proof. unfold bind, assign, modify. by destruct (k tt _). Qed.

Lemma bind_read_known {B} name (k : unit → Py (list string) init_event B) attrs :
  name ∈ class_attributes ++ methods ++ attrs →
  bind (read name) k attrs = k tt attrs.
Proof. intros H. unfold bind. rewrite read_known by done. by destruct (k tt _). Qed.

Lemma bind_read_unknown {B} name (k : unit → Py (list string) init_event B) attrs :
  name ∉ class_attributes ++ methods ++ attrs →
  bind (read name) k attrs = Run [] attrs (Raises (AttributeError name)).
Proof. intros H. unfold bind. by rewrite read_unknown. Qed.

Lemma bind_ret {St Ev A B} (a : A) (k : A → Py St Ev B) (s : St) :
  bind (ret a) k s = k a s.
Proof. unfold bind, ret. by destruct (k a s). Qed.

Lemma bind_bind {St Ev A B C} (m : Py St Ev A) (f : A → Py St Ev B)
    (k : B → Py St Ev C) (s : St) :
  bind (bind m f) k s = bind m (fun a => bind (f a) k) s.
Proof.
  unfold bind. destruct (m s) as [t s1 [a|e]]; [| done].
  destruct (f a s1) as [t1 s2 [b|e]]; [| done].
  destruct (k b s2) as [t2 s3 o]. by rewrite app_assoc.
Qed.

Ltac known_attribute :=
  unfold class_attributes, methods;
  rewrite ?elem_of_app, ?elem_of_cons; auto 40.

Ltac unknown_attribute :=
  unfold class_attributes, methods;
  rewrite ?not_elem_of_app, ?not_elem_of_cons;
  repeat split; first [ done | apply not_elem_of_nil ].

Ltac constructor_step :=
  first [ rewrite bind_bind | rewrite bind_ret | rewrite bind_emit | rewrite bind_assign
        | rewrite bind_read_known by known_attribute ];
  cbv beta.

Lemma __init___run (is_shutdown : bool) (attrs : list string) :
  "pose_sub_topic" ∉ attrs →
  __init__ is_shutdown attrs
  = Run (trace (__init__ is_shutdown []))
      (attrs ++ final (__init__ is_shutdown []))
      (Raises (AttributeError "pose_sub_topic")).
Proof.
  intros Hn.
  destruct is_shutdown;
    [ let v := eval vm_compute in (__init__ true []) in
      change (__init__ true []) with v
    | let v := eval vm_compute in (__init__ false []) in
      change (__init__ false []) with v ];
    cbn [trace final]; unfold __init__; cbn [negb];
    repeat constructor_step;
    rewrite bind_read_unknown by unknown_attribute;
    by rewrite <- !app_assoc.
Qed.

(** X13.  [ArucoDetector.__init__] never returns.  Whatever
    [rospy.is_shutdown()] answers at line 30, and whatever attributes the
    object already has short of [pose_sub_topic], it raises
    [AttributeError] for [self.pose_sub_topic] at line 53: after the
    speech thread was started and the pose publisher created, with the
    subscriber created exactly when the node was not shut down, and
    before the last log line.  It has then assigned the attributes listed
    in [init_attributes] ([frame_sub] only when not shut down), and none
    of [tfbr], [camera_matrix] and [dist_coeffs] that [find_aruco]
    reads. *)
Theorem constructor_raises_at_its_last_line (is_shutdown : bool) (attrs : list string) :
  "pose_sub_topic" ∉ attrs →
  let r := __init__ is_shutdown attrs in
  outcome r = Raises (AttributeError "pose_sub_topic")
  ∧ final r = attrs ++ (if is_shutdown
                        then filter (fun name => name ≠ "frame_sub") init_attributes
                        else init_attributes)
  ∧ Thread_start ∈ trace r
  ∧ Publisher "/processed_aruco/pose" 10 ∈ trace r
  ∧ (Subscriber "/processor_node/image/compressed" ∈ trace r ↔ is_shutdown = false)
  ∧ (init_loginfo "Publisher '/processed_aruco/pose' initialised" ∉ trace r)
  ∧ ∀ name, name ∈ ["tfbr"; "camera_matrix"; "dist_coeffs"] →
            name ∈ final r → name ∈ attrs.
Proof.
  intros Hn r. subst r. rewrite __init___run by done. cbn [outcome final trace].
  split; [done |].
  split; [by destruct is_shutdown |].
  split; [destruct is_shutdown; apply (bool_decide_unpack (_ ∈ _)); vm_compute; exact I |].
  split; [destruct is_shutdown; apply (bool_decide_unpack (_ ∈ _)); vm_compute; exact I |].
  split.
  { destruct is_shutdown.
    - split; [| done]. intros Hin. exfalso. revert Hin.
      apply (bool_decide_unpack (_ ∉ _)); vm_compute; exact I.
    - split; [done |]. intros _. apply (bool_decide_unpack (_ ∈ _)); vm_compute; exact I. }
  split; [destruct is_shutdown; apply (bool_decide_unpack (_ ∉ _)); vm_compute; exact I |].
  intros name Hname [Hin|Hin]%elem_of_app; [done |]. exfalso.
  assert (Hnone : Forall (fun name => name ∉ final (__init__ is_shutdown []))
                    ["tfbr"; "camera_matrix"; "dist_coeffs"]).
  { destruct is_shutdown; repeat constructor;
      apply (bool_decide_unpack (_ ∉ _)); vm_compute; exact I. }
  by apply (proj1 (Forall_forall _ _) Hnone name).
Qed.

Lemma constructor_raises_at_its_last_line_witness :
  ("pose_sub_topic" ∉ @nil string)
  ∧ outcome (__init__ false []) = Raises (AttributeError "pose_sub_topic")
  ∧ final (__init__ false []) = init_attributes.
Proof.
  assert (Hn : "pose_sub_topic" ∉ @nil string) by apply not_elem_of_nil.
  split; [exact Hn |].
  destruct (constructor_raises_at_its_last_line false [] Hn) as (Hout & Hfin & _).
  split; [exact Hout | exact Hfin].
Defined.

(** X14.  [main] never reaches [rospy.spin()]: the construction of the
    detector raises, so the main thread leaves [main] with the
    [AttributeError] of line 53, having initialised the node and logged
    its two lines. *)
Theorem main_never_spins (is_shutdown : bool) :
  let r := main is_shutdown in
  outcome r = Raises (AttributeError "pose_sub_topic")
  ∧ (rospy_spin ∉ trace r)
  ∧ take 3 (trace r)
    = [init_node "EGB349_vision"; init_loginfo "Node 'EGB450 vision' started";
       init_loginfo "Processing images..."].
Proof.
  intros r. subst r.
  destruct is_shutdown;
    (split; [by vm_compute |];
     split; [apply (bool_decide_unpack (_ ∉ _)); vm_compute; exact I | by vm_compute]).
Qed.

(** ** A frame with markers *)

Lemma lines_app evs1 evs2 : lines (evs1 ++ evs2) = lines evs1 ++ lines evs2.
Proof. apply omap_app. Qed.

Lemma texts_app evs1 evs2 : texts (evs1 ++ evs2) = texts evs1 ++ texts evs2.
Proof. apply omap_app. Qed.

(** Lines 76 to 92 on an array of eight entries: the outline, the log
    line and the id are drawn, and the local [corners] is the (4, 2)
    array. *)
Lemma draw_marker_run (a : ndarray) (marker_ID : Z) (s : ArucoDetector) :
  length (entries a) = 8%nat →
  draw_marker a marker_ID s
  = Run (((fun pq => cv2_line pq.1 pq.2) <$> outline a)
         ++ [loginfo ("Aruco detected, ID: " +:+ pretty marker_ID);
             cv2_putText (pretty marker_ID)
               ((corner_pixel a 0).1, (corner_pixel a 1).2 - 15)])
      s (Returns {| shape := [4; 2]%nat; entries := entries a |}).
Proof.
  destruct a as [sh es]. cbn [entries]. intros Hlen.
  do 8 (destruct es as [|? es]; [done |]).
  destruct es; [| done]. reflexivity.
Qed.

(** *** First sightings *)

Lemma first_sightings_elem ids : ∀ seen x,
  x ∈ first_sightings seen ids ↔ x ∈ ids ∧ x ∉ seen.
Proof.
  induction ids as [|y rest IH]; intros seen x; simpl.
  - split; [by intros ?%elem_of_nil | by intros [?%elem_of_nil _]].
  - case_bool_decide as Hy.
    + rewrite IH, elem_of_cons. split; [intros [Hin Hn]; auto |].
      intros [[->|Hin] Hn]; [done | auto].
    + rewrite !elem_of_cons, IH. split.
      * intros [->|[Hin Hn]]; [split; [by left | done] |].
        split; [by right |]. intros Hs. apply Hn. by apply elem_of_union_r.
      * intros [[->|Hin] Hn]; [by left |].
        destruct (decide (x = y)) as [->|Hne]; [by left | right].
        split; [done |]. by intros [?%elem_of_singleton|?]%elem_of_union.
Qed.

Lemma first_sightings_NoDup ids : ∀ seen, NoDup (first_sightings seen ids).
Proof.
  induction ids as [|y rest IH]; intros seen; simpl; [constructor |].
  case_bool_decide; [apply IH |]. constructor; [| apply IH].
  rewrite first_sightings_elem. intros [_ Hn]. apply Hn.
  by apply elem_of_union_l, elem_of_singleton.
Qed.

Lemma first_sightings_sublist ids : ∀ seen, sublist (first_sightings seen ids) ids.
Proof.
  induction ids as [|y rest IH]; intros seen; simpl; [constructor |].
  case_bool_decide; [apply sublist_cons, IH | apply sublist_skip, IH].
Qed.

Lemma seen_cons (seen : gset Z) (y : Z) (rest : list Z) :
  seen ∪ list_to_set (y :: rest) = ({[y]} ∪ seen) ∪ list_to_set rest.
Proof.
  simpl. by rewrite (assoc_L (∪)), (comm_L (∪) seen {[y]}).
Qed.

Lemma seen_again (seen : gset Z) (y : Z) : y ∈ seen → {[y]} ∪ seen = seen.
Proof. intros Hy. apply subseteq_union_1_L. by apply singleton_subseteq_l. Qed.

Lemma first_sightings_app ids1 : ∀ seen ids2,
  first_sightings seen (ids1 ++ ids2)
  = first_sightings seen ids1 ++ first_sightings (seen ∪ list_to_set ids1) ids2.
Proof.
  induction ids1 as [|y rest IH]; intros seen ids2.
  - simpl. by rewrite (right_id_L ∅ (∪)).
  - rewrite seen_cons. simpl. case_bool_decide as Hy.
    + by rewrite IH, seen_again.
    + by rewrite IH.
Qed.

Lemma concat_batch_put batch : concat (batch_put batch) = batch.
Proof. destruct batch; [done |]. simpl. by rewrite app_nil_r. Qed.

(** *** The loop over the markers of a frame *)

(** One turn of the loop on an array of eight entries: the marker is
    drawn, the local [corners] is rebound to its (4, 2) array, and the id
    is recorded if it was not seen. *)
Lemma marker_loop_body_returns a marker_ID corners new_ids s :
  length (entries a) = 8%nat →
  ∃ t,
    marker_loop_body (a, marker_ID) (corners, new_ids) s
    = Run t {| detected_marker_ids := {[marker_ID]} ∪ detected_marker_ids s |}
        (Returns (Array {| shape := [4; 2]%nat; entries := entries a |},
                  new_ids ++ first_sightings (detected_marker_ids s) [marker_ID]))
    ∧ queued t = []
    ∧ lines t = outline a
    ∧ texts t = [pretty marker_ID].
Proof.
  intros Hlen. unfold marker_loop_body, bind. cbn [fst snd].
  rewrite draw_marker_run by done. eexists.
  destruct (decide (marker_ID ∈ detected_marker_ids s)) as [Hseen|Hnew].
  - rewrite ArucoFacts.note_marker_seen by done. cbn [first_sightings].
    rewrite bool_decide_eq_true_2 by done. rewrite seen_again by done.
    rewrite !app_nil_r. split; [by destruct s |]. done.
  - rewrite ArucoFacts.note_marker_new by done. cbn [first_sightings].
    rewrite bool_decide_eq_false_2 by done.
    rewrite !app_nil_r. done.
Qed.

Lemma marker_loop_run items : ∀ corners new_ids s,
  Forall (fun item => length (entries item.1) = 8%nat) items →
  ∃ t corners',
    for_each items marker_loop_body (corners, new_ids) s
    = Run t {| detected_marker_ids := detected_marker_ids s ∪ list_to_set items.*2 |}
        (Returns (corners',
                  new_ids ++ first_sightings (detected_marker_ids s) items.*2))
    ∧ queued t = []
    ∧ lines t = items.*1 ≫= outline
    ∧ texts t = pretty <$> items.*2
    ∧ (rebound corners ∨ items ≠ [] → rebound corners').
Proof.
  induction items as [|[a marker_ID] rest IH]; intros corners new_ids s Hitems.
  - exists [], corners. simpl. rewrite (right_id_L ∅ (∪)), app_nil_r.
    split; [by destruct s |]. do 3 (split; [done |]). by intros [?|?].
  - apply Forall_cons in Hitems as [Hlen Hrest]. cbn [fst] in Hlen.
    destruct (marker_loop_body_returns a marker_ID corners new_ids s Hlen)
      as (t1 & Hbody & Hq1 & Hl1 & Ht1).
    set (s1 := {| detected_marker_ids := {[marker_ID]} ∪ detected_marker_ids s |})
      in Hbody.
    set (c1 := Array {| shape := [4; 2]%nat; entries := entries a |}) in Hbody.
    destruct (IH c1 (new_ids ++ first_sightings (detected_marker_ids s) [marker_ID])
                s1 Hrest) as (t2 & corners' & Hloop & Hq2 & Hl2 & Ht2 & Hc).
    exists (t1 ++ t2), corners'.
    cbn [for_each]. unfold bind. rewrite Hbody, Hloop.
    rewrite ArucoFacts.queued_app, lines_app, texts_app, Hq1, Hq2, Hl1, Hl2, Ht1, Ht2.
    rewrite !fmap_cons, bind_cons. cbn [fst snd]. rewrite seen_cons.
    change (marker_ID :: rest.*2) with ([marker_ID] ++ rest.*2).
    rewrite (first_sightings_app [marker_ID]), app_assoc.
    assert (Hs1 : detected_marker_ids s ∪ list_to_set [marker_ID]
                  = detected_marker_ids s1).
    { simpl. by rewrite (right_id_L ∅ (∪)), (comm_L (∪)). }
    rewrite Hs1. cbn [detected_marker_ids s1].
    do 4 (split; [done |]). intros _. apply Hc. left.
    exists {| shape := [4; 2]%nat; entries := entries a |}. done.
Qed.

(** Line 115 on the local [corners] as the loop leaves it: [corners[0]]
    is a row of two numbers, which cannot be reshaped to (4, 2). *)
Lemma estimate_pose_rebound solvePnP quaternion_from_euler str_vec corners s :
  rebound corners →
  estimate_pose solvePnP quaternion_from_euler str_vec corners s
  = Run [] s (Raises ValueError).
Proof.
  intros (a & -> & Hshape & Hlen). rewrite ArucoFacts.estimate_pose_run.
  destruct a as [sh es]. cbn [shape entries] in Hshape, Hlen. subst sh.
  do 8 (destruct es as [|? es]; [done |]).
  destruct es; [| done]. reflexivity.
Qed.

Section MarkedFrames.

Variable solvePnP : list vec3 → ndarray → bool * vec3 * vec3.
Variable quaternion_from_euler : Q → Q → Q → Q * Q * Q * Q.
Variable str_vec : vec3 → string.

(** [find_aruco] on what the detector returns for a frame. *)
Lemma find_aruco_run (frame : Frame) (s : ArucoDetector) :
  detector_output frame →
  ∃ t,
    find_aruco solvePnP quaternion_from_euler str_vec frame s
    = Run t
        {| detected_marker_ids :=
             detected_marker_ids s ∪ list_to_set (marker_ids frame) |}
        (Raises match marker_corners frame with
                | [] => AttributeError "tfbr"
                | _ :: _ => ValueError
                end)
    ∧ queued t = batch_put (first_sightings (detected_marker_ids s) (marker_ids frame))
    ∧ lines t = marker_corners frame ≫= outline
    ∧ texts t = pretty <$> marker_ids frame.
Proof.
  intros [Hlen Hshape]. unfold find_aruco.
  destruct (marker_corners frame) as [|a corners] eqn:Hcorners.
  - destruct (marker_ids frame) as [|? ?]; [| done]. exists [].
    simpl. rewrite (right_id_L ∅ (∪)). split; [by destruct s | done].
  - change (0 <? length (a :: corners))%nat with true. cbv iota.
    destruct (marker_ids frame) as [|marker_ID ids] eqn:Hids; [done |].
    set (marker_ids := marker_ID :: ids) in *.
    assert (Hitems : Forall (fun item : ndarray * Z => length (entries item.1) = 8%nat)
                       (zip (a :: corners) marker_ids)).
    { apply Forall_forall. intros [x y] Hin. apply elem_of_zip_l in Hin.
      by apply (proj1 (Forall_forall _ _) Hshape x). }
    destruct (marker_loop_run _ (Tuple (a :: corners)) [] s Hitems)
      as (t & corners' & Hloop & Hq & Hl & Ht & Hc).
    rewrite snd_zip in Hloop, Ht by lia. rewrite fst_zip in Hl by lia.
    cbn [app] in Hloop.
    assert (Hre : rebound corners') by (apply Hc; right; discriminate).
    set (batch := first_sightings (detected_marker_ids s) marker_ids) in *.
    exists (t ++ trace (queue_new_ids batch
                          {| detected_marker_ids :=
                               detected_marker_ids s ∪ list_to_set marker_ids |})).
    unfold bind at 1 2. rewrite Hloop. cbn [fst snd]. unfold bind.
    destruct batch as [|x batch]; cbn [queue_new_ids].
    + cbn [ret]. rewrite estimate_pose_rebound by done.
      rewrite !app_nil_r. done.
    + unfold bind, emit. rewrite estimate_pose_rebound by done.
      rewrite !app_nil_r. cbn [trace app].
      rewrite ArucoFacts.queued_app, lines_app, texts_app, Hq, Hl, Ht.
      cbn. rewrite !app_nil_r. done.
Qed.

Lemma img_callback_decoded_run (frame : Frame) (s : ArucoDetector) :
  img_callback solvePnP quaternion_from_euler str_vec (Decoded frame) s
  = Run (trace (find_aruco solvePnP quaternion_from_euler str_vec frame s))
      (final (find_aruco solvePnP quaternion_from_euler str_vec frame s))
      (outcome (find_aruco solvePnP quaternion_from_euler str_vec frame s)).
Proof.
  cbn [img_callback].
  destruct (bind_always_raises
              (find_aruco solvePnP quaternion_from_euler str_vec frame)
              (fun _ => publish_to_ros) s
              (ArucoFacts.find_aruco_raises solvePnP quaternion_from_euler str_vec
                 frame)) as [Ht Hs].
  destruct (ArucoFacts.find_aruco_raises solvePnP quaternion_from_euler str_vec
              frame s) as [e He].
  unfold bind in *.
  destruct (find_aruco solvePnP quaternion_from_euler str_vec frame s)
    as [t s' [a|e']]; [done | done].
Qed.

(** The subscriber's callbacks on decodable and undecodable messages. *)
Lemma spin_run (messages : list decoded) : ∀ s,
  Forall well_decoded messages →
  let r := spin solvePnP quaternion_from_euler str_vec messages s in
  detected_marker_ids r.2 = detected_marker_ids s ∪ list_to_set (shown messages)
  ∧ concat (queued r.1) = first_sightings (detected_marker_ids s) (shown messages)
  ∧ texts r.1 = pretty <$> shown messages.
Proof.
  induction messages as [|msg_in rest IH]; intros s Hall.
  - simpl. by rewrite (right_id_L ∅ (∪)).
  - apply Forall_cons in Hall as [Hmsg Hrest]. cbn [spin].
    unfold shown. rewrite bind_cons. fold (shown rest).
    rewrite list_to_set_app_L, first_sightings_app, fmap_app.
    destruct msg_in as [frame|text].
    + rewrite img_callback_decoded_run.
      destruct (find_aruco_run frame s Hmsg) as (t & -> & Hq & _ & Ht).
      cbn [trace final].
      set (s1 := {| detected_marker_ids :=
                      detected_marker_ids s ∪ list_to_set (marker_ids frame) |}).
      specialize (IH s1 Hrest).
      destruct (spin solvePnP quaternion_from_euler str_vec rest s1) as [evs s'].
      cbn [fst snd] in *. destruct IH as (Hs & Hqs & Hts).
      rewrite ArucoFacts.queued_app, concat_app, texts_app, Hq, concat_batch_put.
      rewrite Hs, Hqs, Hts, Ht. cbn [detected_marker_ids s1].
      by rewrite (assoc_L (∪)).
    + cbn [img_callback]. specialize (IH s Hrest).
      change (final ((emit (logerr ("Error converting image: " +:+ text)) ;;
                      raise (UnboundLocalError "frame"))%py s)) with s.
      destruct (spin solvePnP quaternion_from_euler str_vec rest s) as [evs s'].
      cbn [fst snd] in *. destruct IH as (Hs & Hqs & Hts).
      cbn [list_to_set foldr first_sightings fmap list_fmap app].
      rewrite (left_id_L ∅ (∪)), (right_id_L ∅ (∪)). done.
Qed.

End MarkedFrames.

(** X15.  A frame in which the detector finds markers.  [find_aruco]
    draws the closed outline through the four corners of every marker,
    cut to integer pixels, and writes every id on the frame; it records
    all the frame's ids as seen and puts on the speech queue, as one
    batch, exactly the ids that were not seen before, each once and in
    the order of the frame (no [put] when there is none).  It then raises
    [ValueError] at line 115, whatever the pose solver would answer. *)
Theorem marked_frame_is_drawn_and_queued
    (solvePnP : list vec3 → ndarray → bool * vec3 * vec3)
    (quaternion_from_euler : Q → Q → Q → Q * Q * Q * Q)
    (str_vec : vec3 → string)
    (frame : Frame) (self : ArucoDetector) :
  detector_output frame →
  marker_corners frame ≠ [] →
  let r := find_aruco solvePnP quaternion_from_euler str_vec frame self in
  let batch := concat (queued (trace r)) in
  outcome r = Raises ValueError
  ∧ detected_marker_ids (final r)
    = detected_marker_ids self ∪ list_to_set (marker_ids frame)
  ∧ queued (trace r) = batch_put batch
  ∧ NoDup batch
  ∧ sublist batch (marker_ids frame)
  ∧ (∀ x, x ∈ batch ↔ x ∈ marker_ids frame ∧ x ∉ detected_marker_ids self)
  ∧ lines (trace r) = marker_corners frame ≫= outline
  ∧ texts (trace r) = pretty <$> marker_ids frame.
Proof.
  intros Hframe Hsome r batch. subst batch r.
  destruct (find_aruco_run solvePnP quaternion_from_euler str_vec frame self Hframe)
    as (t & -> & Hq & Hl & Ht).
  cbn [trace final outcome]. rewrite Hq, concat_batch_put.
  split; [by destruct (marker_corners frame) |].
  do 2 (split; [done |]).
  split; [apply first_sightings_NoDup |].
  split; [apply first_sightings_sublist |].
  split; [intros x; apply first_sightings_elem | done].
Qed.

Lemma marked_frame_is_drawn_and_queued_witness :
  let frame := one_marker 7 (10, 10)%Q (110, 10)%Q (110, 110)%Q (10, 110)%Q in
  let r := find_aruco (fun _ _ => (true, (0, 0, 0), (0, 0, 1))%Q)
             (fun _ _ _ => (0, 0, 0, 1)%Q) (fun _ => "") frame ArucoDetector_init in
  detector_output frame
  ∧ marker_corners frame ≠ []
  ∧ outcome r = Raises ValueError
  ∧ lines (trace r) = marker_corners frame ≫= outline
  ∧ texts (trace r) = pretty <$> marker_ids frame.
Proof.
  intros frame r.
  assert (Hframe : detector_output frame).
  { split; [reflexivity |]. repeat constructor. }
  assert (Hsome : marker_corners frame ≠ []) by discriminate.
  split; [exact Hframe |]. split; [exact Hsome |].
  destruct (marked_frame_is_drawn_and_queued
              (fun _ _ => (true, (0, 0, 0), (0, 0, 1))%Q)
              (fun _ _ _ => (0, 0, 0, 1)%Q) (fun _ => "")
              frame ArucoDetector_init Hframe Hsome)
    as (Hout & _ & _ & _ & _ & _ & Hl & Ht).
  split; [exact Hout |]. split; [exact Hl | exact Ht].
Defined.

(** X16.  A frame in which the detector finds no marker.  The callback
    draws nothing, queues nothing and leaves the seen ids alone; it
    raises [AttributeError] at line 139, where [self.tfbr] is read, and so
    never publishes the frame. *)
Theorem frame_without_markers_raises_quietly
    (solvePnP : list vec3 → ndarray → bool * vec3 * vec3)
    (quaternion_from_euler : Q → Q → Q → Q * Q * Q * Q)
    (str_vec : vec3 → string)
    (frame : Frame) (self : ArucoDetector) :
  marker_corners frame = [] →
  img_callback solvePnP quaternion_from_euler str_vec (Decoded frame) self
  = Run [] self (Raises (AttributeError "tfbr")).
Proof.
  intros Hnone. cbn [img_callback]. unfold find_aruco. rewrite Hnone. reflexivity.
Qed.

Lemma frame_without_markers_raises_quietly_witness :
  let frame := {| marker_corners := []; marker_ids := [] |} in
  marker_corners frame = []
  ∧ img_callback (fun _ _ => (true, (0, 0, 0), (0, 0, 1))%Q)
      (fun _ _ _ => (0, 0, 0, 1)%Q) (fun _ => "") (Decoded frame) ArucoDetector_init
    = Run [] ArucoDetector_init (Raises (AttributeError "tfbr")).
Proof.
  intros frame. split; [reflexivity |].
  apply (frame_without_markers_raises_quietly
           (fun _ _ => (true, (0, 0, 0), (0, 0, 1))%Q)
           (fun _ _ _ => (0, 0, 0, 1)%Q) (fun _ => "") frame ArucoDetector_init).
  reflexivity.
Defined.

(** X17.  Over any sequence of messages, each either undecodable or
    decoded to a frame the detector has looked at, the ids put on the
    speech queue, batch after batch, are the first sightings of the ids
    shown: exactly the ids shown in some frame and not seen before the
    first message, each once and in the order they were first shown;
    every shown id ends up seen, and every shown id is written on its
    frame. *)
Theorem every_new_marker_is_queued_once
    (solvePnP : list vec3 → ndarray → bool * vec3 * vec3)
    (quaternion_from_euler : Q → Q → Q → Q * Q * Q * Q)
    (str_vec : vec3 → string)
    (messages : list decoded) (self : ArucoDetector) :
  Forall well_decoded messages →
  let r := spin solvePnP quaternion_from_euler str_vec messages self in
  let batch := concat (queued r.1) in
  detected_marker_ids r.2 = detected_marker_ids self ∪ list_to_set (shown messages)
  ∧ batch = first_sightings (detected_marker_ids self) (shown messages)
  ∧ NoDup batch
  ∧ sublist batch (shown messages)
  ∧ (∀ x, x ∈ batch ↔ x ∈ shown messages ∧ x ∉ detected_marker_ids self)
  ∧ texts r.1 = pretty <$> shown messages.
Proof.
  intros Hall r batch. subst batch r.
  destruct (spin_run solvePnP quaternion_from_euler str_vec messages self Hall)
    as (Hs & -> & Ht).
  split; [done |]. split; [done |].
  split; [apply first_sightings_NoDup |].
  split; [apply first_sightings_sublist |].
  split; [intros x; apply first_sightings_elem | done].
Qed.

Lemma every_new_marker_is_queued_once_witness :
  let messages :=
    [Decoded (one_marker 7 (10, 10)%Q (110, 10)%Q (110, 110)%Q (10, 110)%Q);
     CvBridgeError "bad data";
     Decoded {| marker_corners := []; marker_ids := [] |};
     Decoded (one_marker 3 (0, 0)%Q (9, 0)%Q (9, 9)%Q (0, 9)%Q);
     Decoded (one_marker 7 (40, 20)%Q (140, 20)%Q (140, 120)%Q (40, 120)%Q)] in
  let r := spin (fun _ _ => (true, (0, 0, 0), (0, 0, 1))%Q)
             (fun _ _ _ => (0, 0, 0, 1)%Q) (fun _ => "") messages ArucoDetector_init in
  Forall well_decoded messages
  ∧ shown messages = [7; 3; 7]
  ∧ concat (queued r.1) = [7; 3]
  ∧ NoDup (concat (queued r.1))
  ∧ sublist (concat (queued r.1)) (shown messages)
  ∧ texts r.1 = pretty <$> shown messages.
Proof.
  intros messages r.
  assert (Hall : Forall well_decoded messages).
  { repeat constructor. }
  split; [exact Hall |].
  destruct (every_new_marker_is_queued_once
              (fun _ _ => (true, (0, 0, 0), (0, 0, 1))%Q)
              (fun _ _ _ => (0, 0, 0, 1)%Q) (fun _ => "")
              messages ArucoDetector_init Hall)
    as (_ & Hfirst & Hnd & Hsub & _ & Ht).
  split; [reflexivity |].
  split; [etrans; [exact Hfirst | vm_compute; reflexivity] |].
  split; [exact Hnd |]. split; [exact Hsub | exact Ht].
Defined.

(** ** The speech thread *)

Lemma said_app evs1 evs2 : said (evs1 ++ evs2) = said evs1 ++ said evs2.
Proof. apply omap_app. Qed.

Lemma waits_app evs1 evs2 : waits (evs1 ++ evs2) = (waits evs1 + waits evs2)%nat.
Proof. unfold waits. by rewrite omap_app, length_app. Qed.

Lemma announcement_inj : Inj (=) (=) announcement.
Proof.
  intros x y Hxy. unfold announcement in Hxy.
  apply (inj (String.app _)) in Hxy. by apply (inj pretty).
Qed.

(** Lines 151 and 152: every id of the batch is handed to the engine. *)
Lemma say_batch (marker_ids : list Z) (queue : list (list Z)) :
  for_each marker_ids
    (fun marker_ID (_ : unit) =>
       emit (engine_say ("Detected ArUco Marker: " +:+ pretty marker_ID))) tt queue
  = Run ((fun marker_ID => engine_say (announcement marker_ID)) <$> marker_ids)
      queue (Returns tt).
Proof.
  induction marker_ids as [|x rest IH]; [done |].
  cbn [for_each]. rewrite bind_emit, IH. done.
Qed.

(** One turn of the loop: the oldest batch, if there is one, is spoken
    and taken off the queue. *)
Lemma speech_turn_run (arrived queue : list (list Z)) :
  speech_turn arrived queue
  = match queue ++ arrived with
    | [] => Run [] [] (Returns tt)
    | marker_ids :: rest =>
        Run (((fun marker_ID => engine_say (announcement marker_ID)) <$> marker_ids)
             ++ [engine_runAndWait]) rest (Returns tt)
    end.
Proof.
  unfold speech_turn, bind, modify, get.
  destruct (queue ++ arrived) as [|marker_ids rest]; [done |].
  by rewrite say_batch.
Qed.

Lemma said_batch (marker_ids : list Z) :
  said (((fun marker_ID => engine_say (announcement marker_ID)) <$> marker_ids)
        ++ [engine_runAndWait])
  = announcement <$> marker_ids.
Proof.
  rewrite said_app. cbn. rewrite app_nil_r.
  induction marker_ids as [|x rest IH]; [done |]. cbn. by rewrite <- IH.
Qed.

Lemma waits_batch (marker_ids : list Z) :
  waits (((fun marker_ID => engine_say (announcement marker_ID)) <$> marker_ids)
         ++ [engine_runAndWait])
  = 1%nat.
Proof.
  rewrite waits_app. cbn.
  induction marker_ids as [|x rest IH]; [done |]. cbn. exact IH.
Qed.

(** The loop of the thread keeps the batches in the order they were put:
    what it has spoken so far, followed by what is still queued, is what
    was queued at the start followed by what arrived. *)
Lemma speech_turns_run (arrivals : list (list (list Z))) : ∀ queue,
  ∃ t spoken rest,
    speech_turns arrivals queue = Run t rest (Returns tt)
    ∧ spoken ++ rest = queue ++ concat arrivals
    ∧ said t = announcement <$> concat spoken
    ∧ waits t = length spoken
    ∧ (length spoken ≤ length arrivals)%nat.
Proof.
  induction arrivals as [|arrived later IH]; intros queue.
  - exists [], [], queue. simpl. by rewrite app_nil_r.
  - cbn [speech_turns]. unfold bind. rewrite speech_turn_run.
    cbn [concat]. rewrite (assoc_L (++)).
    destruct (queue ++ arrived) as [|marker_ids rest].
    + destruct (IH []) as (t & spoken & rest' & -> & Heq & Hsaid & Hwaits & Hlen).
      exists t, spoken, rest'. simpl. do 3 (split; [done |]). split; [done | lia].
    + destruct (IH rest) as (t & spoken & rest' & -> & Heq & Hsaid & Hwaits & Hlen).
      eexists _, (marker_ids :: spoken), rest'. split; [done |].
      rewrite said_app, waits_app, said_batch, waits_batch, Hsaid, Hwaits.
      cbn [concat length app]. rewrite fmap_app, Heq.
      do 3 (split; [done |]). lia.
Qed.

Lemma speech_turns_app (arrivals1 arrivals2 : list (list (list Z))) : ∀ queue,
  speech_turns (arrivals1 ++ arrivals2) queue
  = (speech_turns arrivals1 ;; speech_turns arrivals2)%py queue.
Proof.
  induction arrivals1 as [|arrived later IH]; intros queue.
  - simpl. by rewrite bind_ret.
  - cbn [app speech_turns]. rewrite bind_bind.
    set (k := fun _ : unit => bind (speech_turns later) _). unfold bind.
    destruct (speech_turn arrived queue) as [t queue' [[]|e]]; [| done].
    by rewrite IH.
Qed.

(** Turns in which nothing arrives, at least as many as there are batches
    on the queue, empty it. *)
Lemma speech_turns_idle (idle : nat) : ∀ queue,
  (length queue ≤ idle)%nat →
  ∃ t,
    speech_turns (replicate idle []) queue = Run t [] (Returns tt)
    ∧ said t = announcement <$> concat queue
    ∧ waits t = length queue.
Proof.
  induction idle as [|idle IH]; intros queue Hlen.
  - destruct queue; [| simpl in Hlen; lia]. by exists [].
  - cbn [replicate speech_turns]. unfold bind. rewrite speech_turn_run, app_nil_r.
    destruct queue as [|marker_ids rest].
    + destruct (IH [] ltac:(simpl; lia)) as (t & -> & Hsaid & Hwaits).
      exists t. done.
    + destruct (IH rest ltac:(simpl in Hlen; lia)) as (t & -> & Hsaid & Hwaits).
      eexists. split; [done |].
      rewrite said_app, waits_app, said_batch, waits_batch, Hsaid, Hwaits.
      cbn [concat length]. by rewrite fmap_app.
Qed.

Lemma process_speech_queue_run (arrivals : list (list (list Z))) queue :
  process_speech_queue arrivals queue
  = match speech_turns arrivals queue with
    | Run t queue' o => Run (speech_loginfo "Initiate speech engine" :: t) queue' o
    end.
Proof. reflexivity. Qed.

(** X18.  The speech thread returns when the node shuts down, after
    speaking the batches in the order they were put on the queue: what
    it has spoken, followed by what is still queued, is what was queued
    at the start followed by what arrived.  It takes at most one batch
    per turn, hands every id of the batch to the engine and waits for the
    engine once per batch. *)
Theorem speech_thread_speaks_in_queue_order
    (arrivals : list (list (list Z))) (queue : list (list Z)) :
  let r := process_speech_queue arrivals queue in
  outcome r = Returns tt
  ∧ ∃ spoken,
      spoken ++ final r = queue ++ concat arrivals
      ∧ said (trace r) = announcement <$> concat spoken
      ∧ waits (trace r) = length spoken
      ∧ (length spoken ≤ length arrivals)%nat.
Proof.
  intros r. subst r. rewrite process_speech_queue_run.
  destruct (speech_turns_run arrivals queue)
    as (t & spoken & rest & -> & Heq & Hsaid & Hwaits & Hlen).
  cbn [outcome final trace]. split; [done |]. by exists spoken.
Qed.

(** X19.  Given as many further turns without arrivals as there are
    batches, the speech thread empties the queue: every id that was
    queued or arrived has been spoken, in order, and the thread has
    waited for the engine once per batch. *)
Theorem speech_thread_empties_the_queue
    (arrivals : list (list (list Z))) (queue : list (list Z)) (idle : nat) :
  (length (queue ++ concat arrivals) ≤ idle)%nat →
  let r := process_speech_queue (arrivals ++ replicate idle []) queue in
  final r = []
  ∧ said (trace r) = announcement <$> concat (queue ++ concat arrivals)
  ∧ waits (trace r) = length (queue ++ concat arrivals).
Proof.
  intros Hidle r. subst r. rewrite process_speech_queue_run, speech_turns_app.
  unfold bind.
  destruct (speech_turns_run arrivals queue)
    as (t & spoken & rest & -> & Heq & Hsaid & Hwaits & Hlen).
  assert (Hrest : (length rest ≤ idle)%nat).
  { rewrite <- Heq, length_app in Hidle. lia. }
  destruct (speech_turns_idle idle rest Hrest) as (t' & -> & Hsaid' & Hwaits').
  cbn [final trace].
  change (speech_loginfo "Initiate speech engine" :: t ++ t')
    with ([speech_loginfo "Initiate speech engine"] ++ t ++ t').
  rewrite !said_app, !waits_app, Hsaid, Hsaid', Hwaits, Hwaits', <- Heq.
  rewrite concat_app, fmap_app, length_app. done.
Qed.

Lemma speech_thread_empties_the_queue_witness :
  let r := process_speech_queue ([[[7; 3]]; []; [[5]; [9; 1]]] ++ replicate 3 []) [] in
  (length ([] ++ concat [[[7; 3]]; []; [[5]; [9; 1]]]) ≤ 3)%nat
  ∧ final r = []
  ∧ said (trace r) = announcement <$> concat ([] ++ concat [[[7; 3]]; []; [[5]; [9; 1]]]).
Proof.
  intros r.
  assert (Hidle : (length ([] ++ concat [[[7; 3]]; []; [[5]; [9; 1]]]) ≤ 3)%nat)
    by (simpl; lia).
  split; [exact Hidle |].
  destruct (speech_thread_empties_the_queue [[[7; 3]]; []; [[5]; [9; 1]]] [] 3 Hidle)
    as (Hfin & Hsaid & _).
  split; [exact Hfin | exact Hsaid].
Defined.

(** X20.  The frame path and the speech thread together: whatever the
    messages, and however the batches the callbacks put on the queue are
    spread over the turns of the speech thread, no marker id is spoken
    twice, and a spoken id was not seen before the first message and is
    seen after the last. *)
Theorem no_marker_is_spoken_twice
    (solvePnP : list vec3 → ndarray → bool * vec3 * vec3)
    (quaternion_from_euler : Q → Q → Q → Q * Q * Q * Q)
    (str_vec : vec3 → string)
    (messages : list decoded) (self : ArucoDetector)
    (arrivals : list (list (list Z))) :
  concat arrivals = queued (spin solvePnP quaternion_from_euler str_vec messages self).1 →
  let r := process_speech_queue arrivals [] in
  NoDup (said (trace r))
  ∧ ∀ x, announcement x ∈ said (trace r) →
         (x ∉ detected_marker_ids self)
         ∧ x ∈ detected_marker_ids
                 (spin solvePnP quaternion_from_euler str_vec messages self).2.
Proof.
  intros Harrivals r. subst r. rewrite process_speech_queue_run.
  destruct (speech_turns_run arrivals [])
    as (t & spoken & rest & -> & Heq & Hsaid & _).
  cbn [trace].
  change (said (speech_loginfo "Initiate speech engine" :: t)) with (said t).
  rewrite Hsaid.
  destruct (ArucoFacts.spin_queued_once solvePnP quaternion_from_euler str_vec
              messages self) as (_ & Hnd & Hin).
  rewrite <- Harrivals in Hnd, Hin. cbn [app] in Heq. rewrite <- Heq in Hnd, Hin.
  rewrite concat_app in Hnd, Hin. split.
  - apply NoDup_app in Hnd as [Hnd _]. by apply (@NoDup_fmap_2 _ _ announcement announcement_inj).
  - intros x Hx. apply (@list_elem_of_fmap_inj_2 _ _ announcement announcement_inj) in Hx.
    apply Hin, elem_of_app. by left.
Qed.

Lemma no_marker_is_spoken_twice_witness :
  let messages :=
    [Decoded (one_marker 7 (10, 10)%Q (110, 10)%Q (110, 110)%Q (10, 110)%Q);
     Decoded (one_marker 7 (40, 20)%Q (140, 20)%Q (140, 120)%Q (40, 120)%Q);
     Decoded (one_marker 3 (0, 0)%Q (9, 0)%Q (9, 9)%Q (0, 9)%Q)] in
  let arrivals := [[]; [[7]]; []; [[3]]; []] in
  concat arrivals
  = queued (spin (fun _ _ => (true, (0, 0, 0), (0, 0, 1))%Q)
              (fun _ _ _ => (0, 0, 0, 1)%Q) (fun _ => "") messages
              ArucoDetector_init).1
  ∧ NoDup (said (trace (process_speech_queue arrivals []))).
Proof.
  intros messages arrivals.
  assert (Harrivals :
    concat arrivals
    = queued (spin (fun _ _ => (true, (0, 0, 0), (0, 0, 1))%Q)
                (fun _ _ _ => (0, 0, 0, 1)%Q) (fun _ => "") messages
                ArucoDetector_init).1)
    by (vm_compute; reflexivity).
  split; [exact Harrivals |].
  destruct (no_marker_is_spoken_twice
              (fun _ _ => (true, (0, 0, 0), (0, 0, 1))%Q)
              (fun _ _ _ => (0, 0, 0, 1)%Q) (fun _ => "")
              messages ArucoDetector_init arrivals Harrivals) as [Hnd _].
  exact Hnd.
Defined.

End ArucoFurther.
